(** * q-explore web client: history store and unit conversion

    A shallow embedding of the browser client of q-explore
    (static/js/main.js, generate.js, history.js, map.js, settings.js) and
    the properties of its persisted exploration history and of its
    metres/miles conversion layer.

    JavaScript numbers are IEEE 754 binary64 values: they are embedded as
    Rocq's primitive floats, whose operations are the same IEEE operations.
    JSON data is embedded as a tree of values; exceptions as an error monad
    threaded through the browser state (localStorage and the UI state). *)

From Stdlib Require Import ZArith List String Ascii Bool Lia Floats Permutation.
From Stdlib Require Import Sorted DecimalString.
Import ListNotations.

Set Warnings "-inexact-float,-register-all".

Local Open Scope string_scope.
Local Open Scope list_scope.

(* ================================================================== *)
(** * JavaScript numbers *)
(* ================================================================== *)

Module Num.

Local Open Scope float_scope.

(** The double nearest to the rational [n / d] ([d > 0]): what reading a
    decimal numeral back with parseFloat produces. *)
Definition of_ratio (n : Z) (d : positive) : float :=
  match n with
  | Z0 => 0
  | Zpos p =>
      SF2Prim (SFdiv prec emax (S754_finite false p 0) (S754_finite false d 0))
  | Zneg p =>
      SF2Prim (SFdiv prec emax (S754_finite true p 0) (S754_finite false d 0))
  end.

Definition of_Z (n : Z) : float := of_ratio n 1.

(** Exact value of a finite double as [m * 2^e], [m] signed. *)
Definition mantissa_exponent (x : float) : option (Z * Z) :=
  match Prim2SF x with
  | S754_zero _ => Some (0%Z, 0%Z)
  | S754_finite s m e => Some (if s then Z.neg m else Z.pos m, e)
  | S754_infinity _ | S754_nan => None
  end.

(** [floor (m * 2^e * scale + 1/2)], computed on integers. *)
Definition round_half_up (m e : Z) (scale : Z) : Z :=
  if (0 <=? e)%Z then (m * scale * 2 ^ e)%Z
  else ((2 * m * scale + 2 ^ (- e)) / 2 ^ (1 - e))%Z.

(** Math.round: the integral number closest to [x], ties towards +infinity;
    keeps NaN, the infinities and the zeros; a result that rounds to zero
    from below is -0. *)
Definition Math_round (x : float) : float :=
  match Prim2SF x with
  | S754_finite s m e =>
      let n := round_half_up (if s then Z.neg m else Z.pos m) e 1 in
      if (n =? 0)%Z then (if s then (-0) else 0) else of_Z n
  | _ => x
  end.

(** Number.prototype.toFixed(digits) followed by reading the text back as
    a number (the text goes into an input control and parseFloat reads
    it): [x] is rounded to [digits] decimals, half away from zero on the
    exact binary value, and the decimal numeral is read to the nearest
    double. Zero of either sign prints without a sign. Values of
    magnitude 1e21 and above, NaN and the infinities print as
    themselves. *)
Definition toFixed (x : float) (digits : nat) : float :=
  match Prim2SF x with
  | S754_zero _ => 0
  | S754_finite s m e =>
      if 1e21 <=? abs x then x
      else
        let scale := Z.pow 10 (Z.of_nat digits) in
        let n := round_half_up (Z.pos m) e scale in
        let r := of_ratio n (Z.to_pos scale) in
        if s then - r else r
  | _ => x
  end.

(** ToBoolean on a number: 0, -0 and NaN are falsy. *)
Definition truthy (x : float) : bool :=
  negb (is_zero x || is_nan x).

(** [a || b] on numbers. *)
Definition or_else (a b : float) : float := if truthy a then a else b.

End Num.

(* ================================================================== *)
(** * JSON values, exceptions and the browser state *)
(* ================================================================== *)

(** A JSON value as JSON.parse builds it. [undefined] is not a JSON value:
    an expression that may be undefined has type [option value]. *)
Inductive value : Type :=
| VNull
| VBool (b : bool)
| VNum (n : float)
| VStr (s : string)
| VArr (items : list value)
| VObj (props : list (string * value)).

Inductive error : Type :=
| TypeError
| SyntaxError
| Error (message : string).

Inductive result (A : Type) : Type :=
| Normal (a : A)
| Throw (e : error).

Arguments Normal {A} a.
Arguments Throw {A} e.

(** A string, as far as this client looks at one: all it does with the
    text of a storage slot, a fetched body or an imported file is test it
    for emptiness and hand it to JSON.parse. *)
Inductive text : Type :=
| EmptyText              (* the empty string *)
| Malformed              (* a non-empty string that JSON.parse rejects *)
| Json (v : value).      (* a string that JSON.parse turns into [v] *)

Module JS.

Fixpoint lookup (k : string) (props : list (string * value)) : option value :=
  match props with
  | [] => None
  | (k', v) :: rest => if String.eqb k k' then Some v else lookup k rest
  end.

(** The names every object inherits from Object.prototype in a
    browser: a read of one of them on an object that has no such key
    of its own gives the inherited member, not undefined. *)
Definition Object_prototype : list string :=
  ["constructor"; "hasOwnProperty"; "isPrototypeOf"; "propertyIsEnumerable";
   "toLocaleString"; "toString"; "valueOf"; "__proto__";
   "__defineGetter__"; "__defineSetter__";
   "__lookupGetter__"; "__lookupSetter__"].

(** Property read [v.k] for the data property names this client uses
    (own properties of parsed objects, and [length]). Reading a property
    of undefined or null raises TypeError. The length of a string is
    its number of bytes, which is its JavaScript length on ASCII
    text. Inherited members are left out: the read is that of the code
    for a key that names no member of a prototype (Object_prototype,
    the methods of arrays, strings and numbers), as the keys written in
    this client do (id, timestamp, request, winners, ...); a statement
    about a key that the page supplies is made for such keys only. *)
Definition get (v : option value) (k : string) : result (option value) :=
  match v with
  | None | Some VNull => Throw TypeError
  | Some (VObj props) => Normal (lookup k props)
  | Some (VArr items) =>
      if String.eqb k "length"
      then Normal (Some (VNum (Num.of_Z (Z.of_nat (List.length items)))))
      else Normal None
  | Some (VStr s) =>
      if String.eqb k "length"
      then Normal (Some (VNum (Num.of_Z (Z.of_nat (String.length s)))))
      else Normal None
  | Some (VBool _) | Some (VNum _) => Normal None
  end.

(** ToBoolean. *)
Definition truthy (v : option value) : bool :=
  match v with
  | None | Some VNull => false
  | Some (VBool b) => b
  | Some (VNum n) => Num.truthy n
  | Some (VStr s) => negb (String.eqb s "")
  | Some (VArr _) | Some (VObj _) => true
  end.

(** SameValueZero, the membership test of Set: primitives by value (NaN
    equals itself, 0 equals -0); arrays and objects by identity, and two
    objects read from parsed JSON are never the same object. *)
Definition sameValueZero (a b : option value) : bool :=
  match a, b with
  | None, None => true
  | Some VNull, Some VNull => true
  | Some (VBool x), Some (VBool y) => Bool.eqb x y
  | Some (VNum x), Some (VNum y) =>
      PrimFloat.eqb x y || (PrimFloat.is_nan x && PrimFloat.is_nan y)
  | Some (VStr x), Some (VStr y) => String.eqb x y
  | _, _ => false
  end.

(** [new Set(xs).has(x)] *)
Definition has (xs : list (option value)) (x : option value) : bool :=
  existsb (sameValueZero x) xs.

(** Strict equality [a === b] against a primitive. *)
Definition strictEquals (a b : option value) : bool :=
  match a, b with
  | None, None => true
  | Some VNull, Some VNull => true
  | Some (VBool x), Some (VBool y) => Bool.eqb x y
  | Some (VNum x), Some (VNum y) => PrimFloat.eqb x y
  | Some (VStr x), Some (VStr y) => String.eqb x y
  | _, _ => false
  end.

(** An object literal [{k1: e1, ..., kn: en}] whose field expressions may
    be undefined. The literal is only ever serialised or read field by
    field, and both treat an undefined field as an absent one, so the
    undefined fields are left out. *)
Fixpoint object_of (fields : list (string * option value)) : list (string * value) :=
  match fields with
  | [] => []
  | (k, Some v) :: rest => (k, v) :: object_of rest
  | (_, None) :: rest => object_of rest
  end.

(** Calling an array method ([forEach], [map], [filter], [push],
    [unshift], [sort]) on a parsed value: anything but an array raises
    TypeError. *)
Definition as_array (v : value) : result (list value) :=
  match v with
  | VArr items => Normal items
  | _ => Throw TypeError
  end.

Definition isArray (v : value) : bool :=
  match v with VArr _ => true | _ => false end.

(** [Object.values(v)[0]] for a value that is neither undefined nor null;
    the properties of an object are listed in its own order. *)
Definition first_value (v : value) : option value :=
  match v with
  | VObj ((_, x) :: _) => Some x
  | VArr (x :: _) => Some x
  | VStr (String c _) => Some (VStr (String c EmptyString))
  | _ => None
  end.

(** What JSON.parse(JSON.stringify(v)) returns: NaN and the infinities are
    written as null and -0 as 0; everything else comes back as it was. *)
Definition roundTrip_number (n : float) : value :=
  if PrimFloat.is_nan n || PrimFloat.is_infinity n then VNull
  else if PrimFloat.is_zero n then VNum 0%float
  else VNum n.

Fixpoint jsonRoundTrip (v : value) : value :=
  match v with
  | VNum n => roundTrip_number n
  | VArr items => VArr (map jsonRoundTrip items)
  | VObj props => VObj (map (fun kv => (fst kv, jsonRoundTrip (snd kv))) props)
  | _ => v
  end.

Definition JSON_stringify (v : value) : text := Json (jsonRoundTrip v).

Definition JSON_parse (t : text) : result value :=
  match t with
  | Json v => Normal v
  | EmptyText | Malformed => Throw SyntaxError
  end.

End JS.

(* ================================================================== *)
(** * Browser state *)
(* ================================================================== *)

(** What #history-list shows: the empty-state message, or one item per
    rendered entry. Only the data each item is built from is kept. The
    code writes the id into the markup of the item as it is, and the
    click handlers read data-index back from the parsed markup: the
    items are those of the page when the ids are plain strings
    (letters, digits, '-' and '_'), which the markup carries
    unchanged. *)
Record HistoryItem : Type := mkHistoryItem {
  item_index : nat;                 (* data-index *)
  item_id : option value;           (* data-id *)
  item_lat : float;
  item_lng : float;
  item_flower : bool;               (* 'Flower' or 'Standard' *)
  item_radius : option value;       (* the radius given to formatRadius *)
  item_timestamp : option value     (* the instant given to new Date *)
}.

Inductive HistoryView : Type :=
| EmptyState
| Items (items : list HistoryItem).

Inductive ResultPanel : Type :=
| Hidden
| NoResultFound
| ShownCoords (lat lng : float).

Inductive alert : Type :=
| Imported (n : nat)                (* `Imported ${n} entries` *)
| ImportFailed (e : error).         (* `Import failed: ${error.message}` *)

Record Browser : Type := mkBrowser {
  (* localStorage *)
  historySlot : option text;        (* 'q-explore-history'; None: no such key *)
  (* state *)
  units : value;                    (* state.units *)
  selectedLat : option value;
  selectedLng : option value;
  selectedType : string;
  currentResult : option value;
  (* elements *)
  radiusInput : float;              (* the number parseFloat reads from the control *)
  modeSelect : option value;
  (* map *)
  mapView : float * float * Z;      (* centre and zoom *)
  centerMarker : option (float * float);
  radiusCircle : option (float * float * float);   (* centre, radius in metres *)
  resultMarkers : list (float * float * string);
  (* document *)
  historyList : HistoryView;
  resultPanel : ResultPanel;
  activeTab : string;
  alerts : list alert               (* most recent first *)
}.

Definition set_historySlot (x : option text) (w : Browser) : Browser :=
  mkBrowser x (units w) (selectedLat w) (selectedLng w) (selectedType w)
    (currentResult w) (radiusInput w) (modeSelect w) (mapView w)
    (centerMarker w) (radiusCircle w) (resultMarkers w) (historyList w)
    (resultPanel w) (activeTab w) (alerts w).

Definition set_units (x : value) (w : Browser) : Browser :=
  mkBrowser (historySlot w) x (selectedLat w) (selectedLng w) (selectedType w)
    (currentResult w) (radiusInput w) (modeSelect w) (mapView w)
    (centerMarker w) (radiusCircle w) (resultMarkers w) (historyList w)
    (resultPanel w) (activeTab w) (alerts w).

Definition set_selected (lat lng : option value) (w : Browser) : Browser :=
  mkBrowser (historySlot w) (units w) lat lng (selectedType w)
    (currentResult w) (radiusInput w) (modeSelect w) (mapView w)
    (centerMarker w) (radiusCircle w) (resultMarkers w) (historyList w)
    (resultPanel w) (activeTab w) (alerts w).

Definition set_currentResult (x : option value) (w : Browser) : Browser :=
  mkBrowser (historySlot w) (units w) (selectedLat w) (selectedLng w)
    (selectedType w) x (radiusInput w) (modeSelect w) (mapView w)
    (centerMarker w) (radiusCircle w) (resultMarkers w) (historyList w)
    (resultPanel w) (activeTab w) (alerts w).

Definition set_radiusInput (x : float) (w : Browser) : Browser :=
  mkBrowser (historySlot w) (units w) (selectedLat w) (selectedLng w)
    (selectedType w) (currentResult w) x (modeSelect w) (mapView w)
    (centerMarker w) (radiusCircle w) (resultMarkers w) (historyList w)
    (resultPanel w) (activeTab w) (alerts w).

Definition set_modeSelect (x : option value) (w : Browser) : Browser :=
  mkBrowser (historySlot w) (units w) (selectedLat w) (selectedLng w)
    (selectedType w) (currentResult w) (radiusInput w) x (mapView w)
    (centerMarker w) (radiusCircle w) (resultMarkers w) (historyList w)
    (resultPanel w) (activeTab w) (alerts w).

Definition set_mapView (x : float * float * Z) (w : Browser) : Browser :=
  mkBrowser (historySlot w) (units w) (selectedLat w) (selectedLng w)
    (selectedType w) (currentResult w) (radiusInput w) (modeSelect w) x
    (centerMarker w) (radiusCircle w) (resultMarkers w) (historyList w)
    (resultPanel w) (activeTab w) (alerts w).

Definition set_centerMarker (x : option (float * float)) (w : Browser) : Browser :=
  mkBrowser (historySlot w) (units w) (selectedLat w) (selectedLng w)
    (selectedType w) (currentResult w) (radiusInput w) (modeSelect w)
    (mapView w) x (radiusCircle w) (resultMarkers w) (historyList w)
    (resultPanel w) (activeTab w) (alerts w).

Definition set_radiusCircle (x : option (float * float * float)) (w : Browser) : Browser :=
  mkBrowser (historySlot w) (units w) (selectedLat w) (selectedLng w)
    (selectedType w) (currentResult w) (radiusInput w) (modeSelect w)
    (mapView w) (centerMarker w) x (resultMarkers w) (historyList w)
    (resultPanel w) (activeTab w) (alerts w).

Definition set_resultMarkers (x : list (float * float * string)) (w : Browser) : Browser :=
  mkBrowser (historySlot w) (units w) (selectedLat w) (selectedLng w)
    (selectedType w) (currentResult w) (radiusInput w) (modeSelect w)
    (mapView w) (centerMarker w) (radiusCircle w) x (historyList w)
    (resultPanel w) (activeTab w) (alerts w).

Definition set_historyList (x : HistoryView) (w : Browser) : Browser :=
  mkBrowser (historySlot w) (units w) (selectedLat w) (selectedLng w)
    (selectedType w) (currentResult w) (radiusInput w) (modeSelect w)
    (mapView w) (centerMarker w) (radiusCircle w) (resultMarkers w) x
    (resultPanel w) (activeTab w) (alerts w).

Definition set_resultPanel (x : ResultPanel) (w : Browser) : Browser :=
  mkBrowser (historySlot w) (units w) (selectedLat w) (selectedLng w)
    (selectedType w) (currentResult w) (radiusInput w) (modeSelect w)
    (mapView w) (centerMarker w) (radiusCircle w) (resultMarkers w)
    (historyList w) x (activeTab w) (alerts w).

Definition set_activeTab (x : string) (w : Browser) : Browser :=
  mkBrowser (historySlot w) (units w) (selectedLat w) (selectedLng w)
    (selectedType w) (currentResult w) (radiusInput w) (modeSelect w)
    (mapView w) (centerMarker w) (radiusCircle w) (resultMarkers w)
    (historyList w) (resultPanel w) x (alerts w).

Definition push_alert (x : alert) (w : Browser) : Browser :=
  mkBrowser (historySlot w) (units w) (selectedLat w) (selectedLng w)
    (selectedType w) (currentResult w) (radiusInput w) (modeSelect w)
    (mapView w) (centerMarker w) (radiusCircle w) (resultMarkers w)
    (historyList w) (resultPanel w) (activeTab w) (x :: alerts w).

(** The page as main.js and map.js set it up: nothing stored, metric
    units, no location selected, the map on its default view. *)
Definition initial : Browser :=
  mkBrowser None (VStr "metric") (Some VNull) (Some VNull) "attractor"
    (Some VNull) 3000%float (Some (VStr "standard"))
    (40.7128%float, (-74.0060)%float, 13%Z) None None []
    EmptyState Hidden "generate" [].

(** ** Statements: state transformers that may raise *)

Definition M (A : Type) : Type := Browser -> Browser * result A.

Definition ret {A} (a : A) : M A := fun w => (w, Normal a).

Definition throw {A} (e : error) : M A := fun w => (w, Throw e).

Definition bind {A B} (m : M A) (f : A -> M B) : M B :=
  fun w =>
    match m w with
    | (w', Normal a) => f a w'
    | (w', Throw e) => (w', Throw e)
    end.

(** An expression: it may raise, and changes nothing. *)
Definition eval {A} (r : result A) : M A := fun w => (w, r).

Definition read {A} (f : Browser -> A) : M A := fun w => (w, Normal (f w)).

Definition write (f : Browser -> Browser) : M unit := fun w => (f w, Normal tt).

(** try { body } catch (error) { handler error } *)
Definition try_catch {A} (body : M A) (handler : error -> M A) : M A :=
  fun w =>
    match body w with
    | (w', Throw e) => handler e w'
    | done => done
    end.

Declare Scope js_scope.
Delimit Scope js_scope with js.
Notation "'let*' x ':=' m 'in' k" := (bind m (fun x => k))
  (at level 10, x name, m at level 100, k at level 200) : js_scope.
Notation "m ';;' k" := (bind m (fun _ => k))
  (at level 100, k at level 200, right associativity) : js_scope.

(** The same for expressions, which only compute or raise. *)
Definition rbind {A B} (r : result A) (f : A -> result B) : result B :=
  match r with
  | Normal a => f a
  | Throw e => Throw e
  end.

Declare Scope result_scope.
Delimit Scope result_scope with result.
Notation "'let?' x ':=' r 'in' k" := (rbind r (fun x => k))
  (at level 10, x name, r at level 100, k at level 200) : result_scope.

(** A receiver of a Number method ([toFixed]) or a Leaflet coordinate:
    anything but a number raises. The two raise different exceptions
    (TypeError, and Leaflet's 'Invalid LatLng object'); the embedding
    raises TypeError for both. Leaflet refuses NaN as well, which
    passes here: as a coordinate the embedding is that of the code for
    numbers other than NaN (parsed JSON holds no NaN). *)
Definition as_number (v : option value) : result float :=
  match v with
  | Some (VNum n) => Normal n
  | _ => Throw TypeError
  end.

(* ================================================================== *)
(** * main.js: the unit system *)
(* ================================================================== *)

Module Units.

Local Open Scope float_scope.

Definition MILES_PER_METER : float := 0.000621371.
Definition METERS_PER_MILE : float := 1609.34.

Record UnitConversion : Type := mkUnit {
  fromMeters : float;
  toMeters : float;
  step : float;
  decimals : nat
}.

(** [UNIT_CONVERSIONS[unitType]]; None is undefined. The table of the
    code is an object literal: for a name of JS.Object_prototype the
    code reads the inherited member where this table gives None, so
    the table is that of the code for every other name. *)
Definition UNIT_CONVERSIONS (unitType : string) : option UnitConversion :=
  if String.eqb unitType "meters" then Some (mkUnit 1 1 100 0)
  else if String.eqb unitType "miles"
       then Some (mkUnit MILES_PER_METER METERS_PER_MILE 0.1 1)
  else if String.eqb unitType "feet" then Some (mkUnit 3.28084 0.3048 100 0)
  else if String.eqb unitType "kilometers" then Some (mkUnit 0.001 1000 0.1 1)
  else None.

Definition unit_names : list string := ["meters"; "miles"; "feet"; "kilometers"].

(** [state.units === 'imperial'] *)
Definition is_imperial (u : value) : bool :=
  JS.strictEquals (Some u) (Some (VStr "imperial")).

(** The unit a unit system shows distances in
    (loadSettings: [state.units === 'imperial' ? 'miles' : 'meters']). *)
Definition unitType_of (u : value) : string :=
  if is_imperial u then "miles" else "meters".

(** [decimals > 0 ? x.toFixed(decimals) : Math.round(x)], the value a
    control is given (loadSettings, updateAllUnits). *)
Definition formatted (c : UnitConversion) (displayValue : float) : float :=
  if (0 <? decimals c)%nat then Num.toFixed displayValue (decimals c)
  else Num.Math_round displayValue.

(** Metres to a unit's display value: [meters * conversion.fromMeters],
    formatted (loadSettings, and the second half of updateAllUnits). *)
Definition fromMeters_display (c : UnitConversion) (meters : float) : float :=
  formatted c (meters * fromMeters c).

(** A unit's display value to metres: [value * conversion.toMeters]
    (the first half of updateAllUnits). *)
Definition toMeters_value (c : UnitConversion) (displayValue : float) : float :=
  displayValue * toMeters c.

(** updateAllUnits on one .unit-value input whose data attributes name
    [fromUnitType] and [toUnitType] (None: no such attribute): the new
    value and step of the control, or None when it is left alone. *)
Definition updateUnitValue (fromUnitType toUnitType : option string)
    (inputValue : float) : result (option (float * float)) :=
  match fromUnitType, toUnitType with
  | Some f, Some t =>
      if negb (String.eqb f "") && negb (String.eqb t "") then
        let currentValue := Num.or_else inputValue 0 in
        match UNIT_CONVERSIONS f with
        | None => Throw TypeError
        | Some cf =>
            let valueInMeters := toMeters_value cf currentValue in
            match UNIT_CONVERSIONS t with
            | None => Throw TypeError
            | Some ct =>
                Normal (Some (formatted ct (valueInMeters * fromMeters ct), step ct))
            end
        end
      else Normal None
  | _, _ => Normal None
  end.

(** getRadiusInMeters *)
Definition getRadiusInMeters (w : Browser) : float :=
  let displayValue := Num.or_else (radiusInput w) 3000 in
  if is_imperial (units w) then displayValue * METERS_PER_MILE
  else displayValue.

(** formatRadius: the number shown and its suffix. *)
Definition formatRadius (w : Browser) (meters : float) : float * string :=
  if is_imperial (units w)
  then (Num.toFixed (meters * MILES_PER_METER) 1, " mi"%string)
  else (Num.Math_round meters, "m"%string).

End Units.

(* ================================================================== *)
(** * map.js, main.js, generate.js: what replay calls *)
(* ================================================================== *)

Module Map.

Local Open Scope js_scope.

(** updateRadiusCircle. The circle is always given metres. Leaflet
    refuses a centre that is not a pair of numbers. *)
Definition updateRadiusCircle : M unit :=
  let* lat := read selectedLat in
  let* lng := read selectedLng in
  if negb (JS.truthy lat) || negb (JS.truthy lng) then ret tt
  else
    let* radiusInMeters := read Units.getRadiusInMeters in
    let* la := eval (as_number lat) in
    let* lo := eval (as_number lng) in
    write (set_radiusCircle (Some (la, lo, radiusInMeters))).

(** updateLocationDisplay: the state is assigned first, then the
    coordinates are printed with toFixed(6). *)
Definition updateLocationDisplay (lat lng : option value) : M unit :=
  write (set_selected lat lng);;
  let* _ := eval (as_number lat) in
  let* _ := eval (as_number lng) in
  ret tt.

(** setMapCenter, for coordinates that are not NaN (L.marker raises on
    NaN, which as_number lets through). *)
Definition setMapCenter (lat lng : option value) : M unit :=
  updateLocationDisplay lat lng;;
  let* la := eval (as_number lat) in
  let* lo := eval (as_number lng) in
  write (set_centerMarker (Some (la, lo)));;
  updateRadiusCircle.

(** [map.setView([lat, lng], zoom)] *)
Definition setView (lat lng : option value) (zoom : Z) : M unit :=
  let* la := eval (as_number lat) in
  let* lo := eval (as_number lng) in
  write (set_mapView (la, lo, zoom)).

(** The forEach of displayResults over [response.circles]: a small
    marker on the centre of every circle but the one named 'center'. *)
Fixpoint petalMarkers (circles : list value) : M unit :=
  match circles with
  | [] => ret tt
  | circle :: rest =>
      let* id := eval (JS.get (Some circle) "id") in
      (if negb (JS.strictEquals id (Some (VStr "center"))) then
         let* center := eval (JS.get (Some circle) "center") in
         let* lat := eval (JS.get center "lat") in
         let* center' := eval (JS.get (Some circle) "center") in
         let* lng := eval (JS.get center' "lng") in
         let* la := eval (as_number lat) in
         let* lo := eval (as_number lng) in
         let* markers := read resultMarkers in
         write (set_resultMarkers (markers ++ [(la, lo, "center")]))
       else ret tt);;
      petalMarkers rest
  end.

(** [length > 1]; a length that is not a number counts as not greater. *)
Definition more_than_one (length : option value) : bool :=
  match length with
  | Some (VNum n) => PrimFloat.ltb 1 n
  | _ => false
  end.

(** displayResults: one marker for the winner of the selected type, the
    map moved onto it at the current zoom, and the petal centres when
    the response has more than one circle. *)
Definition displayResults (response : value) (displayType : string) : M unit :=
  write (set_resultMarkers []);;
  let* winners := eval (JS.get (Some response) "winners") in
  let* winner := eval (JS.get winners displayType) in
  if negb (JS.truthy winner) then ret tt
  else
    let* result := eval (JS.get winner "result") in
    let* coords := eval (JS.get result "coords") in
    let* lat := eval (JS.get coords "lat") in
    let* coords' := eval (JS.get result "coords") in
    let* lng := eval (JS.get coords' "lng") in
    let* z := eval (JS.get result "z_score") in
    (* addResultMarker *)
    let* la := eval (as_number lat) in
    let* lo := eval (as_number lng) in
    let* _ := (if JS.truthy z then eval (as_number z) else ret 0%float) in
    let* markers := read resultMarkers in
    write (set_resultMarkers (markers ++ [(la, lo, displayType)]));;
    let* view := read mapView in
    write (set_mapView (la, lo, snd view));;
    (* If flower power mode, show all circle centers too *)
    let* circles := eval (JS.get (Some response) "circles") in
    let* length := eval (JS.get circles "length") in
    if more_than_one length then
      let* items := eval (match circles with
                          | Some v => JS.as_array v
                          | None => Throw TypeError
                          end) in
      petalMarkers items
    else ret tt.

(** showResult (generate.js) *)
Definition showResult (response : value) (displayType : string) : M unit :=
  let* winners := eval (JS.get (Some response) "winners") in
  let* winner := eval (JS.get winners displayType) in
  if negb (JS.truthy winner) then write (set_resultPanel NoResultFound)
  else
    let* result := eval (JS.get winner "result") in
    let* coords := eval (JS.get result "coords") in
    let* lat := eval (JS.get coords "lat") in
    let* coords' := eval (JS.get result "coords") in
    let* lng := eval (JS.get coords' "lng") in
    let* la := eval (as_number lat) in
    let* lo := eval (as_number lng) in
    let* z := eval (JS.get result "z_score") in
    let* _ := (match z with
               | None | Some VNull => ret 0%float
               | _ => eval (as_number z)
               end) in
    write (set_resultPanel (ShownCoords la lo)).

(** The result types of the client: the keys of the table of
    formatTypeName, which are the data-type values of the four type
    buttons. *)
Definition typeNames : list string :=
  ["attractor"; "void"; "power"; "blind_spot"].

(** switchTab (main.js) *)
Definition switchTab (tabName : string) : M unit :=
  write (set_activeTab tabName).

End Map.

(* ================================================================== *)
(** * generate.js, history.js, settings.js: the history store *)
(* ================================================================== *)

(** What [fetch('/api/history')] settles to. *)
Inductive fetched : Type :=
| Rejected                                (* the request failed *)
| Response (ok : bool) (body : text).

Module History.

Section Platform.

(** Two functions of the platform are parameters of the development:
    the time value of [new Date(v)] in milliseconds (None: Invalid Date,
    whose time value is NaN), and parseFloat on the text of a control. *)
Variable Date_time : value -> option Z.
Variable parseFloat : string -> float.

Local Open Scope js_scope.
Local Open Scope result_scope.

(** [JSON.parse(localStorage.getItem('q-explore-history') || '[]')] *)
Definition readHistory : M value :=
  let* slot := read historySlot in
  eval (JS.JSON_parse
          match slot with
          | None | Some EmptyText => Json (VArr [])
          | Some t => t
          end).

(** [localStorage.setItem('q-explore-history', JSON.stringify(history))] *)
Definition writeHistory (history : list value) : M unit :=
  write (set_historySlot (Some (JS.JSON_stringify (VArr history)))).

(** [history.map(e => e.id)] *)
Fixpoint ids_of (history : list value) : result (list (option value)) :=
  match history with
  | [] => Normal []
  | e :: rest =>
      let? id := JS.get (Some e) "id" in
      let? ids := ids_of rest in
      Normal (id :: ids)
  end.

(** ** Sorting by timestamp, newest first *)

Definition timeOf (timestamp : option value) : option Z :=
  match timestamp with
  | Some v => Date_time v
  | None => None
  end.

(** The comparator [(a, b) => new Date(b.timestamp) - new Date(a.timestamp)];
    None is NaN. *)
Definition byTimestamp (a b : value) : result (option Z) :=
  let? tb := JS.get (Some b) "timestamp" in
  let? ta := JS.get (Some a) "timestamp" in
  Normal match timeOf tb, timeOf ta with
         | Some y, Some x => Some (y - x)%Z
         | _, _ => None
         end.

(** sort puts [b] before [a] when the comparator is positive; zero and
    NaN leave the two in their order. *)
Definition comes_after (c : option Z) : bool :=
  match c with
  | Some d => (0 <? d)%Z
  | None => false
  end.

(** Array.prototype.sort with this comparator. The sort is stable, so on
    timestamps that are all valid dates its result is determined: the
    entries by decreasing time, equal times in their former order. It is
    computed here by insertion from the right. The comparator is called
    as soon as there are two elements, and raises on a null element.
    With a timestamp that is no valid date the comparator answers NaN
    and is not consistent: the result is then some reordering of the
    entries that depends on the engine, of which the one computed here
    is an instance only; what is stated of the order is stated for
    valid dates. *)
Fixpoint insertSorted (a : value) (sorted : list value) : result (list value) :=
  match sorted with
  | [] => Normal [a]
  | b :: rest =>
      let? c := byTimestamp a b in
      if comes_after c
      then let? rest' := insertSorted a rest in Normal (b :: rest')
      else Normal (a :: sorted)
  end.

Fixpoint sort (history : list value) : result (list value) :=
  match history with
  | [] => Normal []
  | a :: rest => let? sorted := sort rest in insertSorted a sorted
  end.

(** ** history.js: updateHistoryDisplay *)

(** One turn of the forEach of updateHistoryDisplay: None when the entry
    has no winner to show. *)
Definition renderEntry (index : nat) (entry : value) : result (option HistoryItem) :=
  let? winners := JS.get (Some entry) "winners" in
  let? attractor := JS.get winners "attractor" in
  let? winner :=
    (if JS.truthy attractor then Normal attractor
     else
       let? blind_spot := JS.get winners "blind_spot" in
       if JS.truthy blind_spot then Normal blind_spot
       else match winners with
            | Some v => Normal (JS.first_value v)
            | None => Throw TypeError
            end) in
  if negb (JS.truthy winner) then Normal None
  else
    let? result := JS.get winner "result" in
    let? coords := JS.get result "coords" in
    let? lat := JS.get coords "lat" in
    let? coords' := JS.get result "coords" in
    let? lng := JS.get coords' "lng" in
    let? la := as_number lat in
    let? lo := as_number lng in
    let? timestamp := JS.get (Some entry) "timestamp" in
    let? request := JS.get (Some entry) "request" in
    let? mode := JS.get request "mode" in
    let? radius := JS.get request "radius" in
    let? id := JS.get (Some entry) "id" in
    Normal (Some (mkHistoryItem index id la lo
                    (JS.strictEquals mode (Some (VStr "flower_power")))
                    radius timestamp)).

Fixpoint renderEntries (index : nat) (entries : list value) : result (list HistoryItem) :=
  match entries with
  | [] => Normal []
  | entry :: rest =>
      let? item := renderEntry index entry in
      let? items := renderEntries (S index) rest in
      Normal match item with
             | Some i => i :: items
             | None => items
             end
  end.

(** updateHistoryDisplay, on a page that has the #history-list element.
    The list is replaced only once every entry has been rendered. *)
Definition updateHistoryDisplay : M unit :=
  let* history := readHistory in
  let* len := eval (JS.get (Some history) "length") in
  if JS.strictEquals len (Some (VNum 0%float))
  then write (set_historyList EmptyState)
  else
    let* entries := eval (JS.as_array history) in
    let* items := eval (renderEntries 0 entries) in
    write (set_historyList (Items items)).

(** ** generate.js: saveToHistory *)

(** The record kept of a generation response:
    [{id, timestamp: metadata.timestamp, request, winners}]. *)
Definition recordOf (response : option value) : result value :=
  let? id := JS.get response "id" in
  let? metadata := JS.get response "metadata" in
  let? timestamp := JS.get metadata "timestamp" in
  let? request := JS.get response "request" in
  let? winners := JS.get response "winners" in
  Normal (VObj (JS.object_of [("id", id); ("timestamp", timestamp);
                              ("request", request); ("winners", winners)])).

(** saveToHistory(result). history.js is loaded, so updateHistoryDisplay
    is a function and is called. There is no return statement: the
    call evaluates to undefined (None). *)
Definition saveToHistory (result : value) : M (option value) :=
  let* history := readHistory in
  let* record := eval (recordOf (Some result)) in
  let* items := eval (JS.as_array history) in
  let unshifted := record :: items in
  let kept := if (100 <? List.length unshifted)%nat
              then removelast unshifted else unshifted in
  writeHistory kept;;
  updateHistoryDisplay;;
  ret None.

(** ** history.js: loadHistoryEntry (replay) *)

(** [history[index]] *)
Definition at_index (history : value) (index : nat) : result (option value) :=
  match history with
  | VNull => Throw TypeError
  | VArr items => Normal (nth_error items index)
  | VStr s =>
      Normal match String.get index s with
             | Some c => Some (VStr (String c EmptyString))
             | None => None
             end
  | VObj props =>
      Normal (JS.lookup (NilEmpty.string_of_uint (Nat.to_uint index)) props)
  | VBool _ | VNum _ => Normal None
  end.

(** The number parseFloat reads from a control after [control.value = v]:
    a number is written out and read back as itself, a string is read by
    parseFloat, and the text of anything else (undefined, null, true,
    an object) is no numeral. *)
Definition control_reading (v : option value) : float :=
  match v with
  | Some (VNum n) => n
  | Some (VStr s) => parseFloat s
  | _ => PrimFloat.nan
  end.

Definition loadHistoryEntry (index : nat) : M unit :=
  let* history := readHistory in
  let* entry := eval (at_index history index) in
  if negb (JS.truthy entry) then ret tt
  else
    (* Restore request parameters *)
    let* req := eval (JS.get entry "request") in
    (* Set location *)
    let* lat := eval (JS.get req "lat") in
    let* lng := eval (JS.get req "lng") in
    Map.setMapCenter lat lng;;
    Map.setView lat lng 13;;
    (* Set radius *)
    let* radius := eval (JS.get req "radius") in
    write (set_radiusInput (control_reading radius));;
    Map.updateRadiusCircle;;
    (* Set mode *)
    let* mode := eval (JS.get req "mode") in
    write (set_modeSelect (if JS.truthy mode then mode else Some (VStr "standard")));;
    (* Build a response object from history *)
    let* id := eval (JS.get entry "id") in
    let* winners := eval (JS.get entry "winners") in
    let* timestamp := eval (JS.get entry "timestamp") in
    let response :=
      VObj (JS.object_of
              [("id", id); ("request", req); ("winners", winners);
               ("circles", Some (VArr []));
               ("metadata", Some (VObj (JS.object_of [("timestamp", timestamp)])))]) in
    (* Display on map *)
    write (set_currentResult (Some response));;
    let* displayType := read selectedType in
    Map.displayResults response displayType;;
    Map.showResult response displayType;;
    (* Switch to generate tab *)
    Map.switchTab "generate".

(** ** history.js: clearHistory, deleteHistoryEntry *)

Definition clearHistory (confirmed : bool) : M unit :=
  if negb confirmed then ret tt
  else write (set_historySlot None);; updateHistoryDisplay.

(** [history.filter(entry => entry.id !== id)] *)
Fixpoint without_id (id : option value) (history : list value) : result (list value) :=
  match history with
  | [] => Normal []
  | entry :: rest =>
      let? entry_id := JS.get (Some entry) "id" in
      let? filtered := without_id id rest in
      Normal (if JS.strictEquals entry_id id then filtered else entry :: filtered)
  end.

Definition deleteHistoryEntry (id : option value) : M unit :=
  let* history := readHistory in
  let* items := eval (JS.as_array history) in
  let* filtered := eval (without_id id items) in
  writeHistory filtered;;
  updateHistoryDisplay.

(** ** history.js: syncHistoryFromServer *)

(** The forEach over [data.entries]: the records pushed onto the local
    history, in the order of the server's list. [localIds] was built
    before the loop and is not extended by it. *)
Fixpoint newFromServer (localIds : list (option value)) (entries : list value)
  : result (list value) :=
  match entries with
  | [] => Normal []
  | entry :: rest =>
      let? response := JS.get (Some entry) "response" in
      let? id := JS.get response "id" in
      if JS.has localIds id then newFromServer localIds rest
      else
        let? record := recordOf response in
        let? pushed := newFromServer localIds rest in
        Normal (record :: pushed)
  end.

Definition syncHistoryFromServer (answer : fetched) : M unit :=
  try_catch
    (match answer with
     | Rejected => throw TypeError
     | Response ok body =>
         if negb ok then ret tt
         else
           let* data := eval (JS.JSON_parse body) in
           (* Merge server history with local history *)
           let* stored := readHistory in
           let* localHistory := eval (JS.as_array stored) in
           let* localIds := eval (ids_of localHistory) in
           (* Add server entries that aren't in local storage *)
           let* list := eval (JS.get (Some data) "entries") in
           let* entries := eval (match list with
                                 | Some v => JS.as_array v
                                 | None => Throw TypeError
                                 end) in
           let* pushed := eval (newFromServer localIds entries) in
           (* Sort by timestamp descending *)
           let* sorted := eval (sort (localHistory ++ pushed)) in
           (* Keep only last 100 *)
           writeHistory (firstn 100 sorted);;
           updateHistoryDisplay
     end)
    (fun _ => ret tt).    (* console.warn *)

(** ** settings.js: importHistory *)

(** The forEach over the imported array: the elements pushed onto the
    existing history. *)
Fixpoint newFromFile (existingIds : list (option value)) (imported : list value)
  : result (list value) :=
  match imported with
  | [] => Normal []
  | entry :: rest =>
      let? id := JS.get (Some entry) "id" in
      if JS.truthy id && negb (JS.has existingIds id)
      then let? pushed := newFromFile existingIds rest in Normal (entry :: pushed)
      else newFromFile existingIds rest
  end.

(** The change handler of the file input of importHistory; [file] is the
    text of the chosen file, None when no file was chosen. *)
Definition importHistory (file : option text) : M unit :=
  match file with
  | None => ret tt
  | Some fileText =>
      try_catch
        (let* imported := eval (JS.JSON_parse fileText) in
         if negb (JS.isArray imported)
         then throw (Error "Invalid format: expected array")
         else
           let* items := eval (JS.as_array imported) in
           (* Merge with existing history *)
           let* stored := readHistory in
           let* existing := eval (JS.as_array stored) in
           let* existingIds := eval (ids_of existing) in
           let* pushed := eval (newFromFile existingIds items) in
           (* Sort by timestamp descending *)
           let* sorted := eval (sort (existing ++ pushed)) in
           (* Keep only last 100 *)
           writeHistory (firstn 100 sorted);;
           updateHistoryDisplay;;
           write (push_alert (Imported (List.length items))))
        (fun error => write (push_alert (ImportFailed error)))
  end.

End Platform.

End History.

(* ================================================================== *)
(** * settings.js: the exports *)
(* ================================================================== *)

(** What an export hands to the browser: the alert 'No history to
    export', or a file to download. Of the download only the content
    is kept; its name carries the date of the day. *)
Inductive exported (A : Type) : Type :=
| NothingToExport
| Download (file : A).

Arguments NothingToExport {A}.
Arguments Download {A} file.

(** A waypoint of the GPX file: the values that the template of
    exportHistoryGpx writes into it, before they are turned into text
    (None is written 'undefined'). *)
Record Waypoint : Type := mkWaypoint {
  wpt_lat : option value;           (* result.lat *)
  wpt_lon : option value;           (* result.lng *)
  wpt_name : value;                 (* entry.id.slice(0, 8) *)
  wpt_mode : option value;          (* entry.request.mode || 'standard' *)
  wpt_radius : option value;        (* entry.request.radius *)
  wpt_time : option value           (* entry.timestamp *)
}.

Module Exports.

Local Open Scope js_scope.
Local Open Scope result_scope.

(** exportHistory: the file holds [JSON.stringify(history, null, 2)]. *)
Definition exportHistory : M (exported text) :=
  let* history := History.readHistory in
  let* len := eval (JS.get (Some history) "length") in
  if JS.strictEquals len (Some (VNum 0%float)) then ret NothingToExport
  else ret (Download (JS.JSON_stringify history)).

(** [entry.winners['attractor'] || entry.winners['blind_spot'] ||
    Object.values(entry.winners)[0]] *)
Definition firstWinner (entry : value) : result (option value) :=
  let? winners := JS.get (Some entry) "winners" in
  let? attractor := JS.get winners "attractor" in
  if JS.truthy attractor then Normal attractor
  else
    let? blind_spot := JS.get winners "blind_spot" in
    if JS.truthy blind_spot then Normal blind_spot
    else match winners with
         | Some v => Normal (JS.first_value v)
         | None => Throw TypeError
         end.

(** [id.slice(0, 8)]: strings and arrays have a slice method; calling
    it on anything else raises TypeError. *)
Definition slice8 (id : option value) : result value :=
  match id with
  | Some (VStr s) => Normal (VStr (String.substring 0 8 s))
  | Some (VArr items) => Normal (VArr (firstn 8 items))
  | _ => Throw TypeError
  end.

(** One turn of the forEach of exportHistoryGpx: None when the entry
    has no winner. *)
Definition gpxWaypoint (entry : value) : result (option Waypoint) :=
  let? winner := firstWinner entry in
  if negb (JS.truthy winner) then Normal None
  else
    let? result := JS.get winner "result" in
    let? id := JS.get (Some entry) "id" in
    let? name := slice8 id in
    let? request := JS.get (Some entry) "request" in
    let? mode := JS.get request "mode" in
    let? radius := JS.get request "radius" in
    let? lat := JS.get result "lat" in
    let? lng := JS.get result "lng" in
    let? timestamp := JS.get (Some entry) "timestamp" in
    Normal (Some (mkWaypoint lat lng name
                    (if JS.truthy mode then mode else Some (VStr "standard"))
                    radius timestamp)).

Fixpoint gpxWaypoints (entries : list value) : result (list Waypoint) :=
  match entries with
  | [] => Normal []
  | entry :: rest =>
      let? wpt := gpxWaypoint entry in
      let? wpts := gpxWaypoints rest in
      Normal match wpt with
             | Some p => p :: wpts
             | None => wpts
             end
  end.

(** exportHistoryGpx: the file holds one waypoint for each entry that
    has a winner, in the order of the store. *)
Definition exportHistoryGpx : M (exported (list Waypoint)) :=
  let* history := History.readHistory in
  let* len := eval (JS.get (Some history) "length") in
  if JS.strictEquals len (Some (VNum 0%float)) then ret NothingToExport
  else
    let* entries := eval (JS.as_array history) in
    let* wpts := eval (gpxWaypoints entries) in
    ret (Download wpts).

End Exports.

(* ================================================================== *)
(** * generate.js: generating, and choosing a type *)
(* ================================================================== *)

(** The alerts of handleGenerate. *)
Inductive generateAlert : Type :=
| SelectLocationFirst        (* 'Please select a location on the map first ...' *)
| GenerationError (e : error).       (* `Error: ${error.message}` *)

(** What a call of handleGenerate did towards the outside: the body of
    the request it posted to /api/generate (None: no request), and the
    alert it showed (None: no alert). *)
Record generated : Type := mkGenerated {
  request_sent : option text;
  alert_shown : option generateAlert
}.

Definition set_selectedType (x : string) (w : Browser) : Browser :=
  mkBrowser (historySlot w) (units w) (selectedLat w) (selectedLng w) x
    (currentResult w) (radiusInput w) (modeSelect w) (mapView w)
    (centerMarker w) (radiusCircle w) (resultMarkers w) (historyList w)
    (resultPanel w) (activeTab w) (alerts w).

Module Generate.

Section Platform.

(** ToString on a value that is not a string is left to the platform. *)
Variable String_of : value -> string.

Local Open Scope js_scope.

Definition toString (v : option value) : string :=
  match v with
  | Some (VStr s) => s
  | Some v => String_of v
  | None => "undefined"
  end.

(** hideResult *)
Definition hideResult : M unit := write (set_resultPanel Hidden).

(** The parameters handleGenerate posts; [backend] is the value of the
    backend control. The radius is always sent in metres. *)
Definition params (backend : string) (w : Browser) : value :=
  VObj (JS.object_of
          [("lat", selectedLat w); ("lng", selectedLng w);
           ("radius", Some (VNum (Units.getRadiusInMeters w)));
           ("points", Some (VNum 10000%float));
           ("backend", Some (VStr backend));
           ("mode", modeSelect w);
           ("include_points", Some (VBool false))]).

(** handleGenerate, given what the request settles to. The generate
    button is disabled while the request is pending and enabled again
    at the end, however the call ends; the button is not part of the
    page state here. No other handler is taken to run while the
    request is pending. *)
Definition handleGenerate (backend : string) (answer : fetched) : M generated :=
  (* Validate location *)
  let* lat := read selectedLat in
  let* lng := read selectedLng in
  if negb (JS.truthy lat) || negb (JS.truthy lng)
  then ret (mkGenerated None (Some SelectLocationFirst))
  else
    (* Get parameters (radius is always sent in meters to API) *)
    let* parameters := read (params backend) in
    hideResult;;
    let body := JS.JSON_stringify parameters in
    try_catch
      (match answer with
       | Rejected => throw TypeError
       | Response ok response =>
           if negb ok then
             let* error := eval (JS.JSON_parse response) in
             let* message := eval (JS.get (Some error) "message") in
             throw (Error (if JS.truthy message then toString message
                           else "Generation failed"))
           else
             let* result := eval (JS.JSON_parse response) in
             write (set_currentResult (Some result));;
             (* Display on map *)
             let* displayType := read selectedType in
             Map.displayResults result displayType;;
             (* Show result panel *)
             let* displayType' := read selectedType in
             Map.showResult result displayType';;
             (* Save to history *)
             History.saveToHistory result;;
             ret (mkGenerated (Some body) None)
       end)
      (fun error => ret (mkGenerated (Some body) (Some (GenerationError error)))).

(** The click handlers of a type button whose data-type is [type]
    (main.js, initTypeButtons; generate.js): the type is selected, and
    a current result is shown again for it. Which button is marked
    active is not part of the page state here. *)
Definition selectType (type : string) : M unit :=
  write (set_selectedType type);;
  let* current := read currentResult in
  match current with
  | Some response =>
      if JS.truthy current then
        Map.displayResults response type;;
        Map.showResult response type
      else ret tt
  | None => ret tt
  end.

End Platform.

End Generate.

(* ================================================================== *)
(** * main.js: coordinates typed into the location box *)
(* ================================================================== *)

(** How parseAndSetLocation ends: at once, on a blank text; with the
    location set; or with the alert 'Could not parse coordinates'. *)
Inductive located : Type :=
| NothingTyped
| LocationSet
| CouldNotParse.

Module Location.

(** Texts are read character by character here. A character is one of
    the 256 characters U+0000 to U+00FF. *)

(** [\d] *)
Definition isDigit (c : ascii) : bool :=
  let n := nat_of_ascii c in (48 <=? n)%nat && (n <=? 57)%nat.

(** [\s], and what trim removes: tab, line feed, vertical tab, form
    feed, carriage return, space and no-break space (the other white
    space characters of the language lie above U+00FF). *)
Definition isSpace (c : ascii) : bool :=
  let n := nat_of_ascii c in
  ((9 <=? n)%nat && (n <=? 13)%nat) || (n =? 32)%nat || (n =? 160)%nat.

(** [[,\s]] *)
Definition isSeparator (c : ascii) : bool :=
  Ascii.eqb c "," || isSpace c.

Fixpoint dropWhile (p : ascii -> bool) (l : list ascii) : list ascii :=
  match l with
  | [] => []
  | c :: rest => if p c then dropWhile p rest else l
  end.

(** The longest prefix of characters that satisfy [p], and the rest. *)
Fixpoint span (p : ascii -> bool) (l : list ascii) : list ascii * list ascii :=
  match l with
  | [] => ([], [])
  | c :: rest =>
      if p c then let (taken, left) := span p rest in (c :: taken, left)
      else ([], l)
  end.

(** String.prototype.trim *)
Definition trim (l : list ascii) : list ascii :=
  rev (dropWhile isSpace (rev (dropWhile isSpace l))).

Definition isEmpty (l : list ascii) : bool :=
  match l with [] => true | _ => false end.

(** A text that [\d+\.?\d*] matches from its first to its last
    character: digits, at least one, then nothing more, or a dot and
    digits, possibly none. *)
Definition isUnsigned (l : list ascii) : bool :=
  let (digits, rest) := span isDigit l in
  negb (isEmpty digits) &&
  match rest with
  | [] => true
  | c :: fraction => Ascii.eqb c "." && forallb isDigit fraction
  end.

(** The same for [-?\d+\.?\d*]. *)
Definition isNumberText (l : list ascii) : bool :=
  match l with
  | c :: rest => if Ascii.eqb c "-" then isUnsigned rest else isUnsigned l
  | [] => false
  end.

(** [cleaned.match(/^(N)[,\s]+(N)$/)] where N is [-?\d+\.?\d*]: the two
    groups, or None when there is no match. No character of a number
    is a separator, so the first group is the text before the first
    separator, the separators are all that follow at once, and the
    second group is the rest. *)
Definition matchCoordinates (cleaned : list ascii)
  : option (list ascii * list ascii) :=
  let (first, rest) := span (fun c => negb (isSeparator c)) cleaned in
  let (separators, second) := span isSeparator rest in
  if negb (isEmpty separators) && isNumberText first && isNumberText second
  then Some (first, second)
  else None.

Section Platform.

Variable parseFloat : string -> float.

Local Open Scope js_scope.

(** [!isNaN(lat) && !isNaN(lng) && lat >= -90 && lat <= 90 &&
    lng >= -180 && lng <= 180] *)
Definition inRange (lat lng : float) : bool :=
  negb (PrimFloat.is_nan lat) && negb (PrimFloat.is_nan lng) &&
  PrimFloat.leb (-90)%float lat && PrimFloat.leb lat 90%float &&
  PrimFloat.leb (-180)%float lng && PrimFloat.leb lng 180%float.

(** parseAndSetLocation(text) *)
Definition parseAndSetLocation (text : string) : M located :=
  let typed := list_ascii_of_string text in
  if isEmpty typed || isEmpty (trim typed) then ret NothingTyped
  else
    let cleaned := trim typed in
    match matchCoordinates cleaned with
    | Some (first, second) =>
        let lat := parseFloat (string_of_list_ascii first) in
        let lng := parseFloat (string_of_list_ascii second) in
        if inRange lat lng then
          Map.setMapCenter (Some (VNum lat)) (Some (VNum lng));;
          Map.setView (Some (VNum lat)) (Some (VNum lng)) 13;;
          ret LocationSet
        else ret CouldNotParse
    | None => ret CouldNotParse
    end.

End Platform.

End Location.

(* ================================================================== *)
(** * An instance of the platform, and sample data *)
(* ================================================================== *)

Module Sample.

Local Open Scope float_scope.

(** [new Date(v)] for the values whose time the language fixes without
    parsing text: a number is the instant that many milliseconds after
    the epoch, truncated, and invalid beyond 8.64e15; null is 0 and a
    boolean 0 or 1. The samples below use numeric timestamps only; a
    string (which the platform would parse) is given no time here. *)
Definition Date_time (v : value) : option Z :=
  match v with
  | VNum n =>
      match Num.mantissa_exponent n with
      | Some (m, e) =>
          let t := if (0 <=? e)%Z then (m * 2 ^ e)%Z else Z.quot m (2 ^ (- e)) in
          if (Z.abs t <=? 8640000000000000)%Z then Some t else None
      | None => None
      end
  | VNull => Some 0%Z
  | VBool b => Some (if b then 1 else 0)%Z
  | VStr _ | VArr _ | VObj _ => None
  end.

(** parseFloat on plain decimal numerals: an optional sign, digits and an
    optional fraction at the start of the text; NaN when there is no
    digit. Exponents and 'Infinity' are not read by this instance. *)
Definition digit_of (c : ascii) : option Z :=
  let n := Z.of_nat (nat_of_ascii c) in
  if ((48 <=? n) && (n <=? 57))%Z then Some (n - 48)%Z else None.

Fixpoint read_digits (s : string) (acc : Z) (count : nat) : Z * nat * string :=
  match s with
  | String c rest =>
      match digit_of c with
      | Some d => read_digits rest (10 * acc + d)%Z (S count)
      | None => (acc, count, s)
      end
  | EmptyString => (acc, count, s)
  end.

Definition parseFloat (s : string) : float :=
  let '(negative, body) :=
    match s with
    | String "-" rest => (true, rest)
    | String "+" rest => (false, rest)
    | _ => (false, s)
    end in
  let '(whole, n1, rest) := read_digits body 0%Z 0 in
  let '(num, n2, den) :=
    match rest with
    | String "." frac =>
        let '(all, n2, _) := read_digits frac whole 0 in
        (all, n2, Z.pow 10 (Z.of_nat n2))
    | _ => (whole, 0%nat, 1%Z)
    end in
  if (n1 + n2 =? 0)%nat then PrimFloat.nan
  else
    let r := Num.of_ratio num (Z.to_pos den) in
    if negative then - r else r.

(** A winner entry and a generation response as /api/generate returns
    it, with a numeric timestamp. *)
Definition winner (lat lng : float) : value :=
  VObj [("result", VObj [("coords", VObj [("lat", VNum lat); ("lng", VNum lng)]);
                         ("z_score", VNum 4.2);
                         ("is_attractor", VBool true)])].

Definition request (radius : float) : value :=
  VObj [("lat", VNum 40.7128); ("lng", VNum (-74.006));
        ("radius", VNum radius); ("mode", VStr "standard")].

Definition generation (id : string) (time : Z) : value :=
  VObj [("id", VStr id);
        ("request", request 3000);
        ("winners", VObj [("attractor", winner 40.72 (-74.01))]);
        ("circles", VArr []);
        ("metadata", VObj [("timestamp", VNum (Num.of_Z time))])].

(** The record saveToHistory keeps of [generation id time]. *)
Definition record (id : string) (time : Z) : value :=
  VObj [("id", VStr id);
        ("timestamp", VNum (Num.of_Z time));
        ("request", request 3000);
        ("winners", VObj [("attractor", winner 40.72 (-74.01))])].

(** An entry of the server's history list. *)
Definition served (id : string) (time : Z) : value :=
  VObj [("response", generation id time)].

Definition history_response (entries : list value) : fetched :=
  Response true (Json (VObj [("entries", VArr entries)])).

End Sample.

(* ================================================================== *)
(** * Vocabulary of the unit properties *)
(* ================================================================== *)

Module Conversion.

Import Units.
Local Open Scope float_scope.

(** The canonical values the round trip is checked on. *)
Definition representative : list float := [0; 1; 3000; 1609340].

(** Half a unit of the last decimal a unit displays, in metres: the
    most that rounding a display value to [decimals c] places can move
    it. *)
Definition tolerance (c : UnitConversion) : float :=
  toMeters_value c (Num.of_ratio 1 (Z.to_pos (2 * 10 ^ Z.of_nat (decimals c)))).

(** Metres to the display value of a unit and back. *)
Definition there_and_back (c : UnitConversion) (meters : float) : float :=
  toMeters_value c (fromMeters_display c meters).

Definition within_tolerance (c : UnitConversion) (meters : float) : bool :=
  abs (there_and_back c meters - meters) <=? tolerance c.

End Conversion.

(* ================================================================== *)
(** * Vocabulary of the store properties *)
(* ================================================================== *)

Module Store.

Section Platform.

Variable Date_time : value -> option Z.

Local Open Scope result_scope.

Local Abbreviation sort := (History.sort Date_time).
Local Abbreviation syncHistoryFromServer := (History.syncHistoryFromServer Date_time).
Local Abbreviation importHistory := (History.importHistory Date_time).

(** ** What is stored, and what each operation writes *)

(** The value the operations read from a slot. *)
Definition slot_value (slot : option text) : result value :=
  JS.JSON_parse match slot with
                | None | Some EmptyText => Json (VArr [])
                | Some t => t
                end.

(** The stored history, when the slot holds (or defaults to) an array. *)
Definition stored (w : Browser) : option (list value) :=
  match slot_value (historySlot w) with
  | Normal (VArr items) => Some items
  | _ => None
  end.

(** The slot after an operation that writes the list it has built, or
    raises before writing. *)
Definition storage_after (w : Browser) (written : result (list value)) : option text :=
  match written with
  | Normal history => Some (JS.JSON_stringify (VArr history))
  | Throw _ => historySlot w
  end.

(** The list saveToHistory writes. *)
Definition saved (response history : value) : result (list value) :=
  let? record := History.recordOf (Some response) in
  let? items := JS.as_array history in
  Normal (if (100 <? List.length (record :: items))%nat
          then removelast (record :: items) else record :: items).

(** The list syncHistoryFromServer writes. *)
Definition merged (data history : value) : result (list value) :=
  let? localHistory := JS.as_array history in
  let? localIds := History.ids_of localHistory in
  let? list := JS.get (Some data) "entries" in
  let? entries := match list with
                  | Some v => JS.as_array v
                  | None => Throw TypeError
                  end in
  let? pushed := History.newFromServer localIds entries in
  let? sorted := sort (localHistory ++ pushed) in
  Normal (firstn 100 sorted).

(** The list importHistory writes. *)
Definition imported (items : list value) (history : value) : result (list value) :=
  let? existing := JS.as_array history in
  let? existingIds := History.ids_of existing in
  let? pushed := History.newFromFile existingIds items in
  let? sorted := sort (existing ++ pushed) in
  Normal (firstn 100 sorted).

(** ** Sequences of insertions *)

(** The operations that insert records. *)
Inductive insertion : Type :=
| Add (response : value)              (* saveToHistory *)
| MergeImport (answer : fetched)      (* syncHistoryFromServer *)
| ImportBulk (file : option text).    (* importHistory *)

(** The page after one insertion, and after a sequence of them. *)
Definition insert_with (op : insertion) (w : Browser) : Browser :=
  match op with
  | Add response => fst (History.saveToHistory response w)
  | MergeImport answer => fst (syncHistoryFromServer answer w)
  | ImportBulk file => fst (importHistory file w)
  end.

Definition after (ops : list insertion) (w : Browser) : Browser :=
  fold_left (fun w op => insert_with op w) ops w.

(** The store holds an array of at most 100 records. *)
Definition within_capacity (w : Browser) : Prop :=
  exists items, stored w = Some items /\ List.length items <= 100.

(** ** Records, their ids and their order *)

(** [e.k] for an entry that is not null; undefined otherwise. *)
Definition field (k : string) (e : value) : option value :=
  match JS.get (Some e) k with
  | Normal o => o
  | Throw _ => None
  end.

Definition idOf (e : value) : option value := field "id" e.

(** The time value of [new Date(e.timestamp)]; None is NaN. *)
Definition time (e : value) : option Z :=
  History.timeOf Date_time (field "timestamp" e).

(** The data model of the store: the id of a record is a string; its
    timestamp is a JSON value (serialising leaves it as it is) that
    denotes a valid date. *)
Definition hasStringId (e : value) : Prop :=
  exists s, idOf e = Some (VStr s).

Definition hasValidTime (e : value) : Prop :=
  exists t x,
    field "timestamp" e = Some t /\ JS.jsonRoundTrip t = t /\ Date_time t = Some x.

Definition wellFormed (e : value) : Prop := hasStringId e /\ hasValidTime e.

(** [a] is at least as recent as [b]. *)
Definition notOlder (a b : value) : Prop :=
  exists x y, time a = Some x /\ time b = Some y /\ (y <= x)%Z.

(** Non-increasing timestamp order. *)
Definition newestFirst (history : list value) : Prop :=
  StronglySorted notOlder history.

(** An entry whose timestamp is a valid date. *)
Definition timed (e : value) : Prop := exists x, time e = Some x.

(** ** Remote lists *)

(** [entry.response.id] of an entry of the server's list. *)
Definition servedId (entry : value) : option value :=
  match JS.get (Some entry) "response" with
  | Normal response =>
      match JS.get response "id" with
      | Normal id => id
      | Throw _ => None
      end
  | Throw _ => None
  end.

(** [data.entries] of an answer that is read at all. *)
Definition served_by (answer : fetched) : list value :=
  match answer with
  | Response true (Json data) =>
      match JS.get (Some data) "entries" with
      | Normal (Some (VArr entries)) => entries
      | _ => []
      end
  | _ => []
  end.

(** An add of a record with a string id that the store does not hold. *)
Definition freshAdd (response : value) (w : Browser) : Prop :=
  forall record items,
    History.recordOf (Some response) = Normal record ->
    stored w = Some items ->
    hasStringId record /\ ~ In (idOf record) (map idOf items).

(** A remote list whose ids are strings, no two the same. *)
Definition distinctRemote (answer : fetched) : Prop :=
  Forall (fun e => exists s, servedId e = Some (VStr s)) (served_by answer) /\
  NoDup (map servedId (served_by answer)).

(** The pages reached from the empty store by such adds and merges. *)
Inductive distinctRun : Browser -> Prop :=
| run_empty : distinctRun initial
| run_add (response : value) (w : Browser) :
    distinctRun w -> freshAdd response w ->
    distinctRun (fst (History.saveToHistory response w))
| run_merge (answer : fetched) (w : Browser) :
    distinctRun w -> distinctRemote answer ->
    distinctRun (fst (syncHistoryFromServer answer w)).

(** The store holds records with string ids, no two the same. *)
Definition distinctIds (w : Browser) : Prop :=
  exists items,
    stored w = Some items /\ Forall hasStringId items /\ NoDup (map idOf items).

(** The remote records that can be built are well-formed. *)
Definition remoteWellFormed (entries : list value) : Prop :=
  forall entry response record,
    In entry entries ->
    JS.get (Some entry) "response" = Normal response ->
    History.recordOf response = Normal record ->
    wellFormed record.

(** An id names one record: a remote record with the id of a local one
    carries the same timestamp. *)
Definition sameRecordSameTime (entries items : list value) : Prop :=
  forall entry response record l,
    In entry entries ->
    JS.get (Some entry) "response" = Normal response ->
    History.recordOf response = Normal record ->
    In l items -> idOf l = idOf record ->
    time l = time record.

(** ** Retention *)

(** [items] holds the most recent of the records [offered], as they
    read after serialising: every stored record is one of those
    offered, and an offered record is stored unless the store is full
    of records that are at least as recent. *)
Definition mostRecentOf (offered items : list value) : Prop :=
  (forall s, In s items -> In s (map JS.jsonRoundTrip offered)) /\
  (forall x, In x offered ->
     In (JS.jsonRoundTrip x) items \/
     (List.length items = 100 /\ forall s, In s items -> notOlder s x)).

(** The sequences of insertions, from the empty store, that only put in
    well-formed records and only add a record that is at least as
    recent as every stored one; with the records they put in: the
    record built by an add, the records pushed by a merge or a bulk
    import (those whose id the store does not hold). *)
Inductive orderly : list insertion -> list value -> Prop :=
| orderly_nil : orderly [] []
| orderly_add (ops : list insertion) (offered : list value)
      (response record : value) :
    orderly ops offered ->
    History.recordOf (Some response) = Normal record ->
    wellFormed record ->
    (forall items s,
       stored (after ops initial) = Some items -> In s items -> notOlder record s) ->
    orderly (ops ++ [Add response]) (offered ++ [record])
| orderly_merge (ops : list insertion) (offered : list value)
      (data : value) (entries items pushed : list value) :
    orderly ops offered ->
    stored (after ops initial) = Some items ->
    JS.get (Some data) "entries" = Normal (Some (VArr entries)) ->
    History.newFromServer (map idOf items) entries = Normal pushed ->
    Forall wellFormed pushed ->
    orderly (ops ++ [MergeImport (Response true (Json data))]) (offered ++ pushed)
| orderly_import (ops : list insertion) (offered : list value)
      (payload items pushed : list value) :
    orderly ops offered ->
    stored (after ops initial) = Some items ->
    History.newFromFile (map idOf items) payload = Normal pushed ->
    Forall wellFormed pushed ->
    orderly (ops ++ [ImportBulk (Some (Json (VArr payload)))]) (offered ++ pushed).

(** The store holds well-formed records, newest first, the most recent
    of those offered. *)
Definition keepsMostRecent (offered : list value) (w : Browser) : Prop :=
  exists items,
    stored w = Some items /\ Forall wellFormed items /\ newestFirst items /\
    Forall wellFormed offered /\ mostRecentOf offered items.

(** The timestamp of [e] is a valid date, not before [instant]. *)
Definition notBefore (instant : Z) (e : value) : bool :=
  match time e with
  | Some t => (instant <=? t)%Z
  | None => false
  end.

(** ** Bulk import *)

(** The test of the forEach of importHistory: a truthy id that the
    store does not hold. *)
Definition accepted (ids : list (option value)) (entry : value) : bool :=
  JS.truthy (idOf entry) && negb (JS.has ids (idOf entry)).


(** ** Deleting, replaying, redrawing *)

(** An entry that is an object. *)
Definition isObject (e : value) : Prop := exists props, e = VObj props.

(** The test of the filter of deleteHistoryEntry: [entry.id !== id]. *)
Definition otherThan (id : option value) (e : value) : bool :=
  negb (JS.strictEquals (idOf e) id).

(** The page apart from the stored history, the history list and the
    alerts. *)
Definition beyondHistory (w : Browser) :=
  (units w, (selectedLat w, selectedLng w, selectedType w), currentResult w,
   (radiusInput w, modeSelect w),
   (mapView w, centerMarker w, radiusCircle w, resultMarkers w),
   (resultPanel w, activeTab w)).

(** What a replay has no business with: the stored history, the unit
    system, the history list and the alerts. *)
Definition beyondReplay (w : Browser) :=
  (historySlot w, units w, historyList w, alerts w).

(** An entry of the server's list whose id the store holds. *)
Definition alreadyStored (items : list value) (entry : value) : Prop :=
  exists s, servedId entry = Some (VStr s) /\ In (Some (VStr s)) (map idOf items).

(** ** Exports *)

(** A record that a bulk import can take: well-formed, the id not the
    empty string. *)
Definition importable (e : value) : Prop :=
  wellFormed e /\ JS.truthy (idOf e) = true.

(** An entry whose winner has a result without a [lat] or [lng] of its
    own: showResult, displayResults and updateHistoryDisplay read the
    coordinates under [result.coords]. *)
Definition coordsUnderCoords (entry : value) : Prop :=
  forall winner props,
    Exports.firstWinner entry = Normal winner ->
    JS.get winner "result" = Normal (Some (VObj props)) ->
    JS.lookup "lat" props = None /\ JS.lookup "lng" props = None.

(** An entry that the history list cannot draw: drawing it raises, at
    whatever position it stands. *)
Definition unrenderable (e : value) : Prop :=
  forall index, exists err, History.renderEntry index e = Throw err.



(** ** Generating *)

(** An answer to the generation request that brings no result: the
    request failed, the server refused it, or the body of its answer
    is not JSON. *)
Definition withoutResult (answer : fetched) : Prop :=
  match answer with
  | Response true (Json _) => False
  | _ => True
  end.

(** The page apart from the result panel. *)
Definition beyondResultPanel (w : Browser) :=
  (historySlot w, units w, (selectedLat w, selectedLng w, selectedType w),
   currentResult w, (radiusInput w, modeSelect w),
   (mapView w, centerMarker w, radiusCircle w, resultMarkers w),
   (historyList w, activeTab w, alerts w)).

End Platform.

(** ** Frames *)

(** A statement that leaves a part of the page alone, however it ends. *)
Definition keeps {X A} (part : Browser -> X) (m : M A) : Prop :=
  forall w, part (fst (m w)) = part w.

(** Leaving localStorage alone. *)
Definition keeps_storage {A} (m : M A) : Prop := keeps historySlot m.

(** ** Induction on values *)

(** Induction on values, with the hypothesis for the elements of an
    array and the property values of an object. *)
Section value_induction.

Variable P : value -> Prop.
Hypothesis HNull : P VNull.
Hypothesis HBool : forall b, P (VBool b).
Hypothesis HNum : forall n, P (VNum n).
Hypothesis HStr : forall s, P (VStr s).
Hypothesis HArr : forall items, Forall P items -> P (VArr items).
Hypothesis HObj : forall props, Forall (fun kv => P (snd kv)) props -> P (VObj props).

Fixpoint value_induction (v : value) : P v :=
  match v with
  | VNull => HNull
  | VBool b => HBool b
  | VNum n => HNum n
  | VStr s => HStr s
  | VArr items =>
      HArr items
        ((fix all (l : list value) : Forall P l :=
            match l with
            | [] => Forall_nil P
            | x :: rest => Forall_cons x (value_induction x) (all rest)
            end) items)
  | VObj props =>
      HObj props
        ((fix all (l : list (string * value)) : Forall (fun kv => P (snd kv)) l :=
            match l with
            | [] => Forall_nil _
            | kv :: rest => Forall_cons kv (value_induction (snd kv)) (all rest)
            end) props)
  end.

End value_induction.

End Store.

(* ================================================================== *)
(** * Sample pages and payloads *)
(* ================================================================== *)

Module Pages.

Import Sample Store.
Local Open Scope float_scope.

Local Abbreviation sync := (History.syncHistoryFromServer Sample.Date_time).
Local Abbreviation import := (History.importHistory Sample.Date_time).

(** The initial page with 'furlongs' for unit system and 5 in the
    radius control. *)
Definition furlongs_page : Browser :=
  set_units (VStr "furlongs") (set_radiusInput 5 initial).

(** A page in imperial units whose history holds one record of a
    3000 m generation around (40.7128, -74.006); the radius control
    shows 1.9 (miles). *)
Definition imperial_page : Browser :=
  mkBrowser (Some (Json (VArr [Sample.record "A" 10]))) (VStr "imperial")
    (Some VNull) (Some VNull) "attractor" (Some VNull) 1.9
    (Some (VStr "standard")) (40.7128, -74.0060, 13%Z) None None []
    EmptyState Hidden "history" [].

Definition string_of_nat (n : nat) : string :=
  NilEmpty.string_of_uint (Nat.to_uint n).

(** The store after add(B@20), and after add(A@10) then add(B@20). *)
Definition page_B : Browser :=
  fst (History.saveToHistory (generation "B" 20) initial).

Definition page_BA : Browser :=
  fst (History.saveToHistory (generation "B" 20)
         (fst (History.saveToHistory (generation "A" 10) initial))).

(** The server holds A@10 and C@5. *)
Definition answer_AC : fetched :=
  history_response [served "A" 10; served "C" 5].

(** A hundred adds, of r1 at time 1 up to r100 at time 100. *)
Definition hundred_adds : list insertion :=
  map (fun n => Add (generation ("r" ++ string_of_nat n) (Z.of_nat n)))
    (seq 1 100).

(** The store after the hundred adds and the add of r0 at time 0. *)
Definition page_over : Browser :=
  after Sample.Date_time (hundred_adds ++ [Add (generation "r0" 0)]) initial.

(** The full store r100 .. r1, and a server that holds n1@150, r1@1
    and n2@0. *)
Definition page_full : Browser := after Sample.Date_time hundred_adds initial.

Definition answer_at_capacity : fetched :=
  history_response [served "n1" 150; served "r1" 1; served "n2" 0].

(** A server that holds r1@1 .. r100@100, and the records built of its
    answer. *)
Definition answer_hundred : fetched :=
  history_response
    (map (fun n => served ("r" ++ string_of_nat n) (Z.of_nat n)) (seq 1 100)).

Definition hundred_records : list value :=
  map (fun n => record ("r" ++ string_of_nat n) (Z.of_nat n)) (seq 1 100).

(** Insertions in order of time but for the last: the merge of the
    hundred, the add of n@150, the bulk import of old@0; and the
    records they offer. *)
Definition orderly_insertions : list insertion :=
  [MergeImport answer_hundred; Add (generation "n" 150);
   ImportBulk (Some (Json (VArr [record "old" 0])))].

Definition orderly_offer : list value :=
  (hundred_records ++ [record "n" 150]) ++ [record "old" 0].

(** Nine valid records v1@1 .. v9@9, and three records that lack a
    field each. *)
Definition nine_valid : list value :=
  map (fun n => record ("v" ++ string_of_nat n) (Z.of_nat n)) (seq 1 9).

Definition winners_sample : value :=
  VObj [("attractor", winner 40.72 (-74.01))].


Definition no_request : value :=
  VObj [("id", VStr "bad"); ("timestamp", VNum 5); ("winners", winners_sample)].

Definition no_id : value :=
  VObj [("timestamp", VNum 5); ("request", request 3000); ("winners", winners_sample)].

Definition import_of (payload : list value) : Browser :=
  fst (import (Some (Json (VArr payload))) initial).

(** A page whose history slot holds text that is not JSON. *)
Definition corrupt_page : Browser := set_historySlot (Some Malformed) initial.

(** The store after add(B@20) and then add(A@10): A before B, out of
    order. *)
Definition page_AB : Browser :=
  fst (History.saveToHistory (generation "A" 10) page_B).

(** Answers of the server: C@5 and A@10; and A alone, with another
    timestamp than the stored A. *)
Definition data_CA : value :=
  VObj [("entries", VArr [served "C" 5; served "A" 10])].

Definition data_A_changed : value :=
  VObj [("entries", VArr [served "A" 999])].

(** Pages with a selected location: in New York, and on the equator. *)
Definition located_page : Browser :=
  set_selected (Some (VNum 40.7128)) (Some (VNum (-74.006))) initial.

Definition equator_page : Browser :=
  set_selected (Some (VNum 0)) (Some (VNum 10)) initial.

(** A page that shows the result of a generation, which has an
    attractor and no other winner. *)
Definition shown_page : Browser :=
  set_currentResult (Some (generation "A" 10)) located_page.

(** A store that holds B@20 and a record without a request; and a
    generation response without metadata. *)
Definition page_with_bad_record : Browser :=
  set_historySlot (Some (Json (VArr [record "B" 20; no_request]))) initial.

Definition no_metadata : value :=
  VObj [("id", VStr "M"); ("request", request 3000); ("winners", winners_sample)].

(** Answers to a generation request: a refusal with a message, and a
    result. *)
Definition refusal : fetched :=
  Response false (Json (VObj [("message", VStr "No entropy")])).

Definition result_G : fetched := Response true (Json (generation "G" 50)).

End Pages.

(* ================================================================== *)
(** * Properties of the unit system *)
(* ================================================================== *)

Module UnitFacts.

Import Units Conversion.
Local Open Scope float_scope.

Lemma UNIT_CONVERSIONS_cases (u : string) (c : UnitConversion) :
  UNIT_CONVERSIONS u = Some c ->
  c = mkUnit 1 1 100 0 \/
  c = mkUnit MILES_PER_METER METERS_PER_MILE 0.1 1 \/
  c = mkUnit 3.28084 0.3048 100 0 \/
  c = mkUnit 0.001 1000 0.1 1.
Proof.
  unfold UNIT_CONVERSIONS.
  destruct (String.eqb u "meters"); [intros [= <-]; auto |].
  destruct (String.eqb u "miles"); [intros [= <-]; auto |].
  destruct (String.eqb u "feet"); [intros [= <-]; auto |].
  destruct (String.eqb u "kilometers"); [intros [= <-]; auto 6 | discriminate].
Qed.

(** C9. For every unit of the conversion table and each of the
    canonical values 0, 1, 3000 and 1609340 metres, converting to the
    unit's display value (rounded to the unit's decimals) and back to
    metres lands within the unit's rounding tolerance of the value:
    half a unit of its last displayed decimal. *)
Theorem round_trip_within_tolerance (u : string) (c : UnitConversion) (v : float) :
  UNIT_CONVERSIONS u = Some c ->
  In v representative ->
  within_tolerance c v = true.
Proof.
  intros Hc Hv.
  apply UNIT_CONVERSIONS_cases in Hc.
  unfold representative in Hv; simpl in Hv.
  destruct Hc as [-> | [-> | [-> | ->]]];
    destruct Hv as [<- | [<- | [<- | [<- | []]]]];
    vm_compute; reflexivity.
Qed.

Lemma round_trip_miles_3000 :
  UNIT_CONVERSIONS "miles" = Some (mkUnit MILES_PER_METER METERS_PER_MILE 0.1 1) /\
  In 3000 representative /\
  within_tolerance (mkUnit MILES_PER_METER METERS_PER_MILE 0.1 1) 3000 = true.
Proof.
  split; [reflexivity |].
  split; [simpl; auto |].
  apply (round_trip_within_tolerance "miles"); [reflexivity | simpl; auto].
Defined.

(** What the round trip gives on the representative values, unit by
    unit: exact for metres; for miles 3000 m is shown as 1.9 and comes
    back as 3057.746 m. *)
Example round_trip_values :
  map (there_and_back (mkUnit MILES_PER_METER METERS_PER_MILE 0.1 1)) representative
    = [0; 0; 3057.7459999999996; 1609340] /\
  map (there_and_back (mkUnit 3.28084 0.3048 100 0)) representative
    = [0; 0.9144000000000001; 3000.1464; 1609340.0376000002] /\
  map (there_and_back (mkUnit 0.001 1000 0.1 1)) representative
    = [0; 0; 3000; 1609300] /\
  map (there_and_back (mkUnit 1 1 100 0)) representative = representative.
Proof. vm_compute. repeat split; reflexivity. Qed.

Lemma is_imperial_spec (u : value) :
  is_imperial u = true <-> u = VStr "imperial".
Proof.
  unfold is_imperial, JS.strictEquals.
  destruct u; split; try discriminate; try reflexivity.
  - intros H. apply String.eqb_eq in H. now subst.
  - intros [= ->]. reflexivity.
Qed.

Lemma UNIT_CONVERSIONS_named (u : string) (c : UnitConversion) :
  UNIT_CONVERSIONS u = Some c -> String.eqb u "" = false.
Proof.
  intros H. destruct (String.eqb_spec u ""); [| reflexivity].
  subst u. discriminate H.
Qed.

(** X25. updateAllUnits on one control, at the edges. A control that lacks
    one of the two data attributes, or has it empty, is left alone.
    When neither attribute is a name that objects inherit
    (JS.Object_prototype) and one of them names no unit of the
    conversion table, the update raises TypeError. A control that is
    blank, not a number or 0 is given the value 0 in the new unit, with
    the step of that unit. *)
Theorem updateUnitValue_edges (fromUnitType toUnitType : option string)
    (v : float) :
  (fromUnitType = None \/ fromUnitType = Some "" \/
   toUnitType = None \/ toUnitType = Some "" ->
   updateUnitValue fromUnitType toUnitType v = Normal None) /\
  (forall f t,
     fromUnitType = Some f -> toUnitType = Some t -> f <> "" -> t <> "" ->
     ~ In f JS.Object_prototype -> ~ In t JS.Object_prototype ->
     UNIT_CONVERSIONS f = None \/ UNIT_CONVERSIONS t = None ->
     updateUnitValue fromUnitType toUnitType v = Throw TypeError) /\
  (forall f t cf ct,
     fromUnitType = Some f -> toUnitType = Some t ->
     UNIT_CONVERSIONS f = Some cf -> UNIT_CONVERSIONS t = Some ct ->
     Num.truthy v = false ->
     updateUnitValue fromUnitType toUnitType v = Normal (Some (0, step ct))).
Proof.
  split; [| split].
  - intros [-> | [-> | [-> | ->]]]; unfold updateUnitValue.
    + reflexivity.
    + destruct toUnitType; reflexivity.
    + destruct fromUnitType; reflexivity.
    + destruct fromUnitType as [f |]; [| reflexivity].
      cbn [String.eqb negb]. now rewrite andb_false_r.
  - intros f t -> -> Hf Ht _ _ Hunknown. unfold updateUnitValue.
    apply String.eqb_neq in Hf, Ht. rewrite Hf, Ht. cbn [negb andb].
    destruct Hunknown as [-> | Hu]; [reflexivity |].
    destruct (UNIT_CONVERSIONS f); [now rewrite Hu | reflexivity].
  - intros f t cf ct -> -> Hf Ht Hv. unfold updateUnitValue.
    rewrite (UNIT_CONVERSIONS_named f cf Hf), (UNIT_CONVERSIONS_named t ct Ht).
    cbn [negb andb]. rewrite Hf, Ht. unfold Num.or_else. rewrite Hv.
    apply UNIT_CONVERSIONS_cases in Hf, Ht.
    destruct Hf as [-> | [-> | [-> | ->]]];
      destruct Ht as [-> | [-> | [-> | ->]]];
      vm_compute; reflexivity.
Qed.

Lemma not_inherited (name : string) :
  existsb (String.eqb name) JS.Object_prototype = false ->
  ~ In name JS.Object_prototype.
Proof.
  intros H Hin.
  assert (Hex : existsb (String.eqb name) JS.Object_prototype = true).
  { apply existsb_exists. exists name. split; [exact Hin | apply String.eqb_refl]. }
  rewrite H in Hex. discriminate Hex.
Qed.

(** Switching from metres to miles with a blank radius box (parseFloat
    reads NaN from it): the box shows 0, with a step of 0.1. A control
    whose data attribute names yards, which the table lacks, makes the
    switch raise. *)
Lemma blank_control_after_unit_switch :
  (Num.truthy nan = false /\
   updateUnitValue (Some "meters") (Some "miles") nan = Normal (Some (0, 0.1))) /\
  (~ In "meters" JS.Object_prototype /\ ~ In "yards" JS.Object_prototype /\
   UNIT_CONVERSIONS "yards" = None /\
   updateUnitValue (Some "meters") (Some "yards") 5 = Throw TypeError).
Proof.
  split; [split; [reflexivity |] | ].
  - exact (proj2 (proj2 (updateUnitValue_edges (Some "meters") (Some "miles") nan))
             "meters" "miles" (mkUnit 1 1 100 0)
             (mkUnit MILES_PER_METER METERS_PER_MILE 0.1 1)
             eq_refl eq_refl eq_refl eq_refl eq_refl).
  - split; [exact (not_inherited "meters" eq_refl) |].
    split; [exact (not_inherited "yards" eq_refl) |].
    split; [reflexivity |].
    refine (proj1 (proj2 (updateUnitValue_edges (Some "meters") (Some "yards") 5))
              "meters" "yards" eq_refl eq_refl _ _
              (not_inherited "meters" eq_refl) (not_inherited "yards" eq_refl)
              (or_intror eq_refl)); discriminate.
Defined.

End UnitFacts.

(* ================================================================== *)
(** * Reasoning about statements and JSON values *)
(* ================================================================== *)

Module Facts.

Import Store.

(** ** Statements *)

Lemma bind_eval {A B} (r : result A) (f : A -> M B) (w : Browser) :
  bind (eval r) f w = match r with
                      | Normal a => f a w
                      | Throw e => (w, Throw e)
                      end.
Proof. destruct r; reflexivity. Qed.

Lemma bind_read {A B} (g : Browser -> A) (f : A -> M B) (w : Browser) :
  bind (read g) f w = f (g w) w.
Proof. reflexivity. Qed.

Lemma bind_write {B} (g : Browser -> Browser) (f : unit -> M B) (w : Browser) :
  bind (write g) f w = f tt (g w).
Proof. reflexivity. Qed.

Lemma keeps_ret {X A} (part : Browser -> X) (a : A) : keeps part (ret a).
Proof. intro w; reflexivity. Qed.

Lemma keeps_throw {X A} (part : Browser -> X) (e : error) : keeps part (@throw A e).
Proof. intro w; reflexivity. Qed.

Lemma keeps_eval {X A} (part : Browser -> X) (r : result A) : keeps part (eval r).
Proof. intro w; reflexivity. Qed.

Lemma keeps_read {X A} (part : Browser -> X) (g : Browser -> A) :
  keeps part (read g).
Proof. intro w; reflexivity. Qed.

Lemma keeps_write {X} (part : Browser -> X) (g : Browser -> Browser) :
  (forall w, part (g w) = part w) -> keeps part (write g).
Proof. intros H w; apply H. Qed.

Lemma keeps_bind {X A B} (part : Browser -> X) (m : M A) (f : A -> M B) :
  keeps part m -> (forall a, keeps part (f a)) -> keeps part (bind m f).
Proof.
  intros Hm Hf w. unfold bind.
  specialize (Hm w). destruct (m w) as [w' [a | e]]; simpl in *.
  - rewrite Hf. exact Hm.
  - exact Hm.
Qed.

Lemma keeps_try_catch {X A} (part : Browser -> X) (body : M A)
    (handler : error -> M A) :
  keeps part body -> (forall e, keeps part (handler e)) ->
  keeps part (try_catch body handler).
Proof.
  intros Hb Hh w. unfold try_catch.
  specialize (Hb w). destruct (body w) as [w' [a | e]]; simpl in *.
  - exact Hb.
  - rewrite Hh. exact Hb.
Qed.

Ltac keeps :=
  repeat first
    [ apply keeps_ret | apply keeps_throw | apply keeps_eval | apply keeps_read
    | apply keeps_write; intro; reflexivity
    | apply keeps_bind; [| intro]
    | apply keeps_try_catch; [| intro]
    | match goal with
      | |- keeps _ (if ?b then _ else _) => destruct b
      | |- keeps _ (match ?x with _ => _ end) => destruct x
      end ].

Lemma readHistory_keeps : keeps_storage History.readHistory.
Proof. unfold keeps_storage, History.readHistory. keeps. Qed.

Lemma updateHistoryDisplay_keeps : keeps_storage History.updateHistoryDisplay.
Proof.
  unfold keeps_storage, History.updateHistoryDisplay, History.readHistory. keeps.
Qed.


(** ** JSON values *)

Lemma roundTrip_number_twice (n : float) :
  JS.jsonRoundTrip (JS.roundTrip_number n) = JS.roundTrip_number n.
Proof.
  unfold JS.roundTrip_number.
  destruct (PrimFloat.is_nan n || PrimFloat.is_infinity n) eqn:Hn; [reflexivity |].
  destruct (PrimFloat.is_zero n) eqn:Hz; simpl.
  - reflexivity.
  - unfold JS.roundTrip_number. rewrite Hn, Hz. reflexivity.
Qed.

(** Serialising and parsing twice is the same as once. *)
Lemma jsonRoundTrip_twice (v : value) :
  JS.jsonRoundTrip (JS.jsonRoundTrip v) = JS.jsonRoundTrip v.
Proof.
  induction v using value_induction; simpl; try reflexivity.
  - apply roundTrip_number_twice.
  - f_equal. rewrite map_map. apply map_ext_in.
    intros x Hx. rewrite Forall_forall in H. now apply H.
  - f_equal. rewrite map_map. apply map_ext_in.
    intros [k x] Hx. simpl. f_equal.
    rewrite Forall_forall in H. exact (H _ Hx).
Qed.

Lemma lookup_roundTrip (k : string) (props : list (string * value)) :
  JS.lookup k (map (fun kv => (fst kv, JS.jsonRoundTrip (snd kv))) props)
  = option_map JS.jsonRoundTrip (JS.lookup k props).
Proof.
  induction props as [| [k' v] rest IH]; simpl; [reflexivity |].
  destruct (String.eqb k k'); [reflexivity | exact IH].
Qed.

End Facts.

(* ================================================================== *)
(** * Unit handling outside the table, and replay *)
(* ================================================================== *)

Module ReplayFacts.

Import Units Pages.
Local Open Scope float_scope.

(** C8, as the code has it: a unit system that is not in the supported
    set raises nothing. 'furlongs' is not a key of the conversion
    table, yet getRadiusInMeters returns the control's number as metres
    and formatRadius prints metres, exactly as for 'metric'. *)
Lemma unknown_unit_system_is_read_as_metric :
  UNIT_CONVERSIONS "furlongs" = None /\
  getRadiusInMeters furlongs_page = 5 /\
  getRadiusInMeters furlongs_page
    = getRadiusInMeters (set_units (VStr "metric") furlongs_page) /\
  formatRadius furlongs_page 3000 = (3000, "m"%string) /\
  formatRadius furlongs_page 3000
    = formatRadius (set_units (VStr "metric") furlongs_page) 3000.
Proof. vm_compute. repeat split; reflexivity. Qed.

(** C8, amended. For every unit-system value other than 'imperial',
    supported or not, getRadiusInMeters returns the number in the radius
    control unchanged (3000 when the control is empty or zero) and
    formatRadius shows the rounded metres with the suffix 'm': the value
    is treated as metric and no error is raised. *)
Theorem conversion_defaults_to_metric (w : Browser) (meters : float) :
  units w <> VStr "imperial" ->
  getRadiusInMeters w = Num.or_else (radiusInput w) 3000 /\
  formatRadius w meters = (Num.Math_round meters, "m"%string).
Proof.
  intros Hu.
  assert (His : is_imperial (units w) = false).
  { destruct (is_imperial (units w)) eqn:E; [| reflexivity].
    apply UnitFacts.is_imperial_spec in E. contradiction. }
  unfold getRadiusInMeters, formatRadius. rewrite His. split; reflexivity.
Qed.

Lemma conversion_defaults_to_metric_furlongs :
  units furlongs_page <> VStr "imperial" /\
  getRadiusInMeters furlongs_page = Num.or_else (radiusInput furlongs_page) 3000 /\
  formatRadius furlongs_page 1609.34 = (Num.Math_round 1609.34, "m"%string).
Proof.
  assert (H : units furlongs_page <> VStr "imperial") by (vm_compute; discriminate).
  split; [exact H |].
  exact (conversion_defaults_to_metric furlongs_page 1609.34 H).
Defined.

(** C1, at the input where the code departs from it. Replaying the
    record on the imperial page restores the stored location and keeps
    the stored request (radius 3000 m) in the current result, but it
    writes the stored metres unconverted into the radius control: the
    control reads 3000 where the display value of 3000 m in miles is
    1.9, and getRadiusInMeters, which takes the control to hold miles,
    makes the radius circle 4828020 m wide. *)
Theorem replay_writes_metres_into_miles_control :
  let run := History.loadHistoryEntry Sample.parseFloat 0 imperial_page in
  let w' := fst run in
  snd run = Normal tt /\
  selectedLat w' = Some (VNum 40.7128) /\
  selectedLng w' = Some (VNum (-74.006)) /\
  centerMarker w' = Some (40.7128, -74.006) /\
  option_map (JS.lookup "request")
    (match currentResult w' with Some (VObj p) => Some p | _ => None end)
    = Some (Some (Sample.request 3000)) /\
  radiusInput w' = 3000 /\
  fromMeters_display (mkUnit MILES_PER_METER METERS_PER_MILE 0.1 1) 3000 = 1.9 /\
  radiusCircle w' = Some (40.7128, -74.006, 4828020).
Proof. vm_compute. repeat split; reflexivity. Qed.

End ReplayFacts.

(* ================================================================== *)
(** * Properties of the history store *)
(* ================================================================== *)

Module StoreFacts.

Import Store Facts.

Section Platform.

Variable Date_time : value -> option Z.
Variable parseFloat : string -> float.

Local Open Scope result_scope.

Local Abbreviation time := (Store.time Date_time).
Local Abbreviation hasValidTime := (Store.hasValidTime Date_time).
Local Abbreviation wellFormed := (Store.wellFormed Date_time).
Local Abbreviation notOlder := (Store.notOlder Date_time).
Local Abbreviation newestFirst := (Store.newestFirst Date_time).
Local Abbreviation timed := (Store.timed Date_time).
Local Abbreviation merged := (Store.merged Date_time).
Local Abbreviation imported := (Store.imported Date_time).
Local Abbreviation insert_with := (Store.insert_with Date_time).
Local Abbreviation after := (Store.after Date_time).
Local Abbreviation distinctRun := (Store.distinctRun Date_time).
Local Abbreviation remoteWellFormed := (Store.remoteWellFormed Date_time).
Local Abbreviation sameRecordSameTime := (Store.sameRecordSameTime Date_time).
Local Abbreviation orderly := (Store.orderly Date_time).
Local Abbreviation keepsMostRecent := (Store.keepsMostRecent Date_time).
Local Abbreviation mostRecentOf := (Store.mostRecentOf Date_time).
Local Abbreviation notBefore := (Store.notBefore Date_time).
Local Abbreviation importable := (Store.importable Date_time).

Local Abbreviation sort := (History.sort Date_time).
Local Abbreviation insertSorted := (History.insertSorted Date_time).
Local Abbreviation syncHistoryFromServer := (History.syncHistoryFromServer Date_time).
Local Abbreviation importHistory := (History.importHistory Date_time).
Local Abbreviation loadHistoryEntry := (History.loadHistoryEntry parseFloat).

(** ** What each operation leaves in storage *)

Lemma readHistory_eq (w : Browser) :
  History.readHistory w = (w, slot_value (historySlot w)).
Proof. reflexivity. Qed.

Lemma bind_readHistory {B} (f : value -> M B) (w : Browser) :
  bind History.readHistory f w
  = match slot_value (historySlot w) with
    | Normal history => f history w
    | Throw e => (w, Throw e)
    end.
Proof.
  unfold bind. rewrite readHistory_eq.
  destruct (slot_value (historySlot w)); reflexivity.
Qed.

Lemma written_then {B} (history : list value) (m : M B) (w : Browser) :
  keeps_storage m ->
  historySlot (fst (bind (History.writeHistory history) (fun _ => m) w))
  = Some (JS.JSON_stringify (VArr history)).
Proof.
  intros Hm. unfold History.writeHistory. rewrite bind_write.
  rewrite Hm. reflexivity.
Qed.

Ltac step :=
  first [ rewrite bind_readHistory | rewrite bind_eval ];
  match goal with
  | |- context [match ?r with Normal _ => _ | Throw _ => _ end] =>
      destruct r; cbn [rbind storage_after fst snd]; [| reflexivity]
  end.

Lemma saveToHistory_storage (response : value) (w : Browser) :
  historySlot (fst (History.saveToHistory response w))
  = storage_after w
      (let? history := slot_value (historySlot w) in saved response history).
Proof.
  unfold History.saveToHistory, saved.
  do 3 step.
  apply written_then.
  apply keeps_bind; [apply updateHistoryDisplay_keeps | intro; apply keeps_ret].
Qed.

Lemma caught_after_write {A} (history : list value) (m : M A) (h : error -> M A)
    (w : Browser) :
  keeps_storage m -> (forall e, keeps_storage (h e)) ->
  historySlot
    (fst (try_catch (bind (History.writeHistory history) (fun _ => m)) h w))
  = Some (JS.JSON_stringify (VArr history)).
Proof.
  intros Hm Hh. unfold try_catch.
  pose proof (written_then history m w Hm) as Hw.
  destruct (bind (History.writeHistory history) (fun _ => m) w) as [w' [a | e]];
    simpl in *; [exact Hw | rewrite Hh; exact Hw].
Qed.

Lemma try_catch_bind_eval {A B} (r : result A) (f : A -> M B) (h : error -> M B)
    (w : Browser) :
  try_catch (bind (eval r) f) h w
  = match r with
    | Normal a => try_catch (f a) h w
    | Throw e => h e w
    end.
Proof. destruct r; reflexivity. Qed.

Lemma try_catch_bind_readHistory {B} (f : value -> M B) (h : error -> M B)
    (w : Browser) :
  try_catch (bind History.readHistory f) h w
  = match slot_value (historySlot w) with
    | Normal history => try_catch (f history) h w
    | Throw e => h e w
    end.
Proof.
  unfold try_catch. rewrite bind_readHistory.
  destruct (slot_value (historySlot w)); reflexivity.
Qed.

Ltac step_try :=
  first [ rewrite try_catch_bind_readHistory | rewrite try_catch_bind_eval ];
  match goal with
  | |- historySlot (fst (match ?r with Normal _ => _ | Throw _ => _ end)) = _ =>
      destruct r; cbn [rbind storage_after fst snd]; [| reflexivity]
  end.

Lemma syncHistoryFromServer_storage (answer : fetched) (w : Browser) :
  historySlot (fst (syncHistoryFromServer answer w))
  = storage_after w
      match answer with
      | Rejected | Response false _ => Throw TypeError
      | Response true body =>
          let? data := JS.JSON_parse body in
          let? history := slot_value (historySlot w) in
          merged data history
      end.
Proof.
  unfold History.syncHistoryFromServer, merged.
  destruct answer as [| [|] body]; cbn [negb storage_after]; try reflexivity.
  do 8 step_try.
  apply caught_after_write; [apply updateHistoryDisplay_keeps | intro; apply keeps_ret].
Qed.

Lemma importHistory_storage (file : text) (w : Browser) :
  historySlot (fst (importHistory (Some file) w))
  = storage_after w
      (let? parsed := JS.JSON_parse file in
       let? items := JS.as_array parsed in
       let? history := slot_value (historySlot w) in
       imported items history).
Proof.
  unfold History.importHistory, imported.
  step_try.
  destruct a; cbn [JS.isArray negb JS.as_array rbind storage_after];
    try reflexivity.
  rewrite try_catch_bind_eval.
  do 5 step_try.
  apply caught_after_write.
  - apply keeps_bind; [apply updateHistoryDisplay_keeps | intro].
    apply keeps_write. intro; reflexivity.
  - intro. apply keeps_write. intro; reflexivity.
Qed.

(** ** Records, their ids and their order *)

Lemma get_field (k : string) (e : value) :
  e <> VNull -> JS.get (Some e) k = Normal (field k e).
Proof.
  intros He. unfold field.
  destruct e; try reflexivity; try contradiction;
    simpl; destruct (String.eqb k "length"); reflexivity.
Qed.

Lemma field_not_null (k : string) (e : value) (v : value) :
  field k e = Some v -> e <> VNull.
Proof. intros H ->. discriminate H. Qed.

Lemma time_not_null (e : value) (x : Z) : time e = Some x -> e <> VNull.
Proof.
  unfold Store.time. intros H ->. discriminate H.
Qed.

Lemma hasValidTime_time (e : value) :
  hasValidTime e -> exists x, time e = Some x.
Proof.
  intros (t & x & Ht & _ & Hx). exists x. unfold Store.time. rewrite Ht. exact Hx.
Qed.

Lemma notOlder_trans (a b c : value) : notOlder a b -> notOlder b c -> notOlder a c.
Proof.
  intros (x & y & Ha & Hb & Hxy) (y' & z & Hb' & Hc & Hyz).
  rewrite Hb in Hb'. injection Hb' as <-.
  exists x, z. repeat split; [assumption | assumption | lia].
Qed.

Lemma byTimestamp_times (a b : value) (x y : Z) :
  time a = Some x -> time b = Some y ->
  History.byTimestamp Date_time a b = Normal (Some (y - x)%Z).
Proof.
  intros Ha Hb. unfold History.byTimestamp.
  rewrite (get_field "timestamp" b (time_not_null b y Hb)).
  rewrite (get_field "timestamp" a (time_not_null a x Ha)).
  cbn [rbind]. unfold Store.time in Ha, Hb. rewrite Ha, Hb. reflexivity.
Qed.

(** ** The sort *)

Lemma insertSorted_Permutation (a : value) (l s : list value) :
  insertSorted a l = Normal s -> Permutation s (a :: l).
Proof.
  revert s. induction l as [| b rest IH]; intros s H; simpl in H.
  - injection H as <-. apply Permutation_refl.
  - destruct (History.byTimestamp Date_time a b) as [c | e]; [| discriminate].
    cbn [rbind] in H. destruct (History.comes_after c).
    + destruct (insertSorted a rest) as [rest' | e]; [| discriminate].
      cbn [rbind] in H. injection H as <-.
      apply Permutation_trans with (b :: a :: rest).
      * apply perm_skip. now apply IH.
      * apply perm_swap.
    + injection H as <-. apply Permutation_refl.
Qed.

Lemma sort_Permutation (l s : list value) :
  sort l = Normal s -> Permutation s l.
Proof.
  revert s. induction l as [| a rest IH]; intros s H; simpl in H.
  - injection H as <-. apply perm_nil.
  - destruct (sort rest) as [sorted | e]; [| discriminate].
    cbn [rbind] in H. apply insertSorted_Permutation in H.
    apply Permutation_trans with (a :: sorted); [exact H |].
    apply perm_skip. now apply IH.
Qed.

(** An element at least as recent as the head of a list goes in front. *)
Lemma insertSorted_front (a : value) (l : list value) :
  (forall h rest, l = h :: rest -> notOlder a h) ->
  insertSorted a l = Normal (a :: l).
Proof.
  intros H. destruct l as [| h rest]; [reflexivity |].
  destruct (H h rest eq_refl) as (x & y & Ha & Hh & Hle).
  simpl. rewrite (byTimestamp_times a h x y Ha Hh). cbn [rbind History.comes_after].
  destruct (Z.ltb_spec 0 (y - x)); [lia | reflexivity].
Qed.

Lemma insertSorted_newestFirst (a : value) (l : list value) :
  timed a -> Forall timed l -> newestFirst l ->
  exists s, insertSorted a l = Normal s /\ newestFirst s.
Proof.
  intros [x Ha]. induction l as [| b rest IH]; intros Ht Hl.
  - exists [a]. split; [reflexivity |]. repeat constructor.
  - apply StronglySorted_inv in Hl as [Hrest Hb].
    apply Forall_cons_iff in Ht as [[y Hy] Ht].
    simpl. rewrite (byTimestamp_times a b x y Ha Hy).
    cbn [rbind History.comes_after].
    destruct (Z.ltb_spec 0 (y - x)) as [Hlt | Hge].
    + destruct (IH Ht Hrest) as (rest' & Hins & Hsorted). rewrite Hins.
      cbn [rbind]. exists (b :: rest'). split; [reflexivity |].
      constructor; [exact Hsorted |].
      apply insertSorted_Permutation in Hins.
      apply (Permutation_Forall (Permutation_sym Hins)).
      constructor; [| exact Hb].
      exists y, x. repeat split; [assumption | assumption | lia].
    + exists (a :: b :: rest). split; [reflexivity |].
      assert (Hab : notOlder a b).
      { exists x, y. repeat split; [assumption | assumption | lia]. }
      constructor; [constructor; assumption |].
      constructor; [exact Hab |].
      eapply Forall_impl; [| exact Hb].
      intros c Hc. exact (notOlder_trans a b c Hab Hc).
Qed.

Lemma sort_newestFirst (l : list value) :
  Forall timed l ->
  exists s, sort l = Normal s /\ newestFirst s /\ Permutation s l.
Proof.
  induction l as [| a rest IH]; intros Ht.
  - exists []. repeat split; constructor.
  - apply Forall_cons_iff in Ht as [Ha Ht].
    destruct (IH Ht) as (sorted & Hs & Hsorted & Hperm).
    assert (Ht' : Forall timed sorted).
    { exact (Permutation_Forall (Permutation_sym Hperm) Ht). }
    destruct (insertSorted_newestFirst a sorted Ha Ht' Hsorted) as (s & Hins & Hn).
    exists s. simpl. rewrite Hs. cbn [rbind]. repeat split; try assumption.
    apply insertSorted_Permutation in Hins.
    apply Permutation_trans with (a :: sorted); [exact Hins |].
    now apply perm_skip.
Qed.

(** Sorting a list that starts with entries already newest first, none
    of them older than any entry after them, leaves that prefix where
    it is. *)
Lemma sort_sorted_prefix (prefix rest sorted : list value) :
  newestFirst prefix ->
  (forall p q, In p prefix -> In q rest -> notOlder p q) ->
  sort rest = Normal sorted ->
  sort (prefix ++ rest) = Normal (prefix ++ sorted).
Proof.
  intros Hp Hle Hs. induction prefix as [| a prefix IH]; [exact Hs |].
  apply StronglySorted_inv in Hp as [Hp Ha].
  simpl. rewrite IH; [| exact Hp | intros p q Hin; apply Hle; now right].
  cbn [rbind]. apply insertSorted_front.
  intros h tail Hh. destruct prefix as [| b prefix]; simpl in Hh.
  - apply (Hle a h); [now left |].
    apply (Permutation_in h (sort_Permutation _ _ Hs)).
    rewrite Hh. now left.
  - injection Hh as <- _. now inversion Ha.
Qed.

(** ** Capacity *)

Ltac invert_chain H :=
  repeat match type of H with
         | rbind ?r _ = Normal _ =>
             let E := fresh "E" in
             destruct r eqn:E; cbn [rbind] in H; [| discriminate H]
         end.

Lemma stored_written (w w' : Browser) (written : result (list value)) :
  historySlot w' = storage_after w written ->
  stored w' = match written with
              | Normal history => Some (map JS.jsonRoundTrip history)
              | Throw _ => stored w
              end.
Proof.
  intros H. unfold stored. rewrite H. destruct written; reflexivity.
Qed.

Lemma stored_slot_value (w : Browser) (items : list value) :
  stored w = Some items -> slot_value (historySlot w) = Normal (VArr items).
Proof.
  unfold stored. destruct (slot_value (historySlot w)) as [[] | ]; try discriminate.
  now intros [= ->].
Qed.

Lemma saved_length (response : value) (items kept : list value) :
  saved response (VArr items) = Normal kept ->
  List.length items <= 100 -> List.length kept <= 100.
Proof.
  unfold saved. intros H Hlen. invert_chain H. injection E0 as <-.
  injection H as <-. cbn [List.length].
  destruct (Nat.ltb_spec 100 (S (List.length items))) as [Hgt | Hle].
  - change (List.length (removelast (a :: items)) <= 100).
    rewrite removelast_firstn_len, length_firstn. simpl in *. lia.
  - exact Hle.
Qed.

Lemma saved_firstn (response : value) (items kept : list value) :
  saved response (VArr items) = Normal kept ->
  exists record n,
    History.recordOf (Some response) = Normal record /\
    kept = firstn n (record :: items).
Proof.
  unfold saved. intros H.
  destruct (History.recordOf (Some response)) as [record | e]; [| discriminate].
  cbn [rbind JS.as_array] in H. exists record.
  destruct (100 <? List.length (record :: items))%nat.
  - exists (pred (List.length (record :: items))). split; [reflexivity |].
    rewrite <- removelast_firstn_len. congruence.
  - exists (List.length (record :: items)). split; [reflexivity |].
    rewrite firstn_all. congruence.
Qed.

Lemma ids_of_map (l : list value) (ids : list (option value)) :
  History.ids_of l = Normal ids -> ids = map idOf l.
Proof.
  revert ids. induction l as [| e rest IH]; intros ids H;
    cbn [History.ids_of] in H.
  - now injection H as <-.
  - invert_chain H. injection H as <-. simpl. f_equal.
    + unfold idOf, field. now rewrite E.
    + now apply IH.
Qed.

Lemma merged_inv (data : value) (items kept : list value) :
  merged data (VArr items) = Normal kept ->
  exists entries pushed sorted,
    JS.get (Some data) "entries" = Normal (Some (VArr entries)) /\
    History.ids_of items = Normal (map idOf items) /\
    History.newFromServer (map idOf items) entries = Normal pushed /\
    sort (items ++ pushed) = Normal sorted /\
    kept = firstn 100 sorted.
Proof.
  unfold Store.merged. cbn [JS.as_array rbind]. intros H.
  destruct (History.ids_of items) as [ids | e] eqn:Eids; [| discriminate].
  pose proof (ids_of_map _ _ Eids) as ->. cbn [rbind] in H.
  destruct (JS.get (Some data) "entries") as [list | e]; [| discriminate].
  cbn [rbind] in H.
  destruct list as [[| | | | entries |] |]; try discriminate.
  cbn [JS.as_array rbind] in H.
  destruct (History.newFromServer (map idOf items) entries) as [pushed | e] eqn:Ep;
    [| discriminate]. cbn [rbind] in H.
  destruct (sort (items ++ pushed)) as [sorted | e] eqn:Es; [| discriminate].
  cbn [rbind] in H.
  exists entries, pushed, sorted. repeat split; congruence.
Qed.

Lemma merged_firstn (data history : value) (kept : list value) :
  merged data history = Normal kept -> exists sorted, kept = firstn 100 sorted.
Proof.
  unfold Store.merged. intros H. invert_chain H. injection H as <-. now eexists.
Qed.

Lemma imported_firstn (items : list value) (history : value) (kept : list value) :
  imported items history = Normal kept -> exists sorted, kept = firstn 100 sorted.
Proof.
  unfold Store.imported. intros H. invert_chain H. injection H as <-. now eexists.
Qed.

Lemma within_capacity_written (w w' : Browser) (written : result (list value)) :
  within_capacity w ->
  historySlot w' = storage_after w written ->
  (forall kept, written = Normal kept -> List.length kept <= 100) ->
  within_capacity w'.
Proof.
  intros Hw Hslot Hlen. unfold within_capacity.
  rewrite (stored_written w w' written Hslot).
  destruct written as [kept | e]; [| exact Hw].
  exists (map JS.jsonRoundTrip kept). split; [reflexivity |].
  rewrite length_map. now apply Hlen.
Qed.

Lemma insert_within_capacity (op : insertion) (w : Browser) :
  within_capacity w -> within_capacity (insert_with op w).
Proof.
  intros Hw. pose proof Hw as (items & Hitems & Hlen).
  apply stored_slot_value in Hitems.
  destruct op as [response | answer | [file |]]; cbn [Store.insert_with].
  - eapply within_capacity_written;
      [exact Hw | apply saveToHistory_storage |].
    rewrite Hitems. cbn [rbind]. intros kept Hk.
    exact (saved_length response items kept Hk Hlen).
  - eapply within_capacity_written;
      [exact Hw | apply syncHistoryFromServer_storage |].
    intros kept Hk. destruct answer as [| [|] body]; try discriminate.
    invert_chain Hk. apply merged_firstn in Hk as [sorted ->].
    apply firstn_le_length.
  - eapply within_capacity_written;
      [exact Hw | apply importHistory_storage |].
    intros kept Hk. invert_chain Hk. apply imported_firstn in Hk as [sorted ->].
    apply firstn_le_length.
  - exact Hw.
Qed.

(** After any sequence of insertions from the empty store, the store
    holds an array of at most 100 records. *)
Lemma after_within_capacity (ops : list insertion) :
  within_capacity (after ops initial).
Proof.
  assert (H : forall w, within_capacity w -> within_capacity (after ops w)).
  { induction ops as [| op ops IH]; intros w Hw; [exact Hw |].
    simpl. apply IH. now apply insert_within_capacity. }
  apply H. exists []. split; [reflexivity | simpl; lia].
Qed.

Lemma after_snoc (ops : list insertion) (op : insertion) (w : Browser) :
  after (ops ++ [op]) w = insert_with op (after ops w).
Proof. unfold Store.after. now rewrite fold_left_app. Qed.

(** ** Well-formed records survive serialisation *)

Lemma field_Some_object (k : string) (e v : value) :
  k <> "length" -> field k e = Some v ->
  exists props, e = VObj props /\ JS.lookup k props = Some v.
Proof.
  intros Hk H. apply String.eqb_neq in Hk. unfold field in H.
  destruct e; simpl in H; try rewrite Hk in H; try discriminate.
  now exists props.
Qed.

Lemma field_roundTrip (k : string) (e v : value) :
  k <> "length" -> field k e = Some v ->
  field k (JS.jsonRoundTrip e) = Some (JS.jsonRoundTrip v).
Proof.
  intros Hk H. destruct (field_Some_object k e v Hk H) as (props & -> & Hl).
  unfold field. simpl. rewrite lookup_roundTrip, Hl. reflexivity.
Qed.

Lemma idOf_roundTrip (e : value) :
  hasStringId e -> idOf (JS.jsonRoundTrip e) = idOf e.
Proof.
  intros [s Hs]. unfold idOf in *. rewrite Hs.
  now rewrite (field_roundTrip "id" e (VStr s)).
Qed.

Lemma timestamp_roundTrip (e : value) :
  hasValidTime e ->
  field "timestamp" (JS.jsonRoundTrip e) = field "timestamp" e.
Proof.
  intros (t & x & Ht & Hrt & _). rewrite Ht.
  rewrite (field_roundTrip "timestamp" e t); [now rewrite Hrt | discriminate | exact Ht].
Qed.

Lemma time_roundTrip (e : value) :
  hasValidTime e -> time (JS.jsonRoundTrip e) = time e.
Proof.
  intros H. unfold Store.time. now rewrite timestamp_roundTrip.
Qed.

Lemma wellFormed_roundTrip (e : value) :
  wellFormed e -> wellFormed (JS.jsonRoundTrip e).
Proof.
  intros [Hid Ht]. split.
  - destruct Hid as [s Hs]. exists s.
    rewrite idOf_roundTrip; [exact Hs | now exists s].
  - pose proof Ht as (t & x & Hf & Hrt & Hx). exists t, x.
    rewrite timestamp_roundTrip by exact Ht. now repeat split.
Qed.

Lemma ids_roundTrip (l : list value) :
  Forall hasStringId l -> map idOf (map JS.jsonRoundTrip l) = map idOf l.
Proof.
  intros H. rewrite map_map. apply map_ext_in.
  intros e He. apply idOf_roundTrip.
  rewrite Forall_forall in H. now apply H.
Qed.

Lemma StronglySorted_map {A B} (R : A -> A -> Prop) (R' : B -> B -> Prop)
    (P : A -> Prop) (f : A -> B) (l : list A) :
  (forall a b, P a -> P b -> R a b -> R' (f a) (f b)) ->
  Forall P l -> StronglySorted R l -> StronglySorted R' (map f l).
Proof.
  intros Hf HP Hs. induction Hs as [| a l Hs IH Ha]; simpl; [constructor |].
  apply Forall_cons_iff in HP as [Pa HP].
  constructor; [now apply IH |].
  rewrite Forall_map. rewrite Forall_forall in *.
  intros b Hb. apply Hf; auto.
Qed.

Lemma StronglySorted_firstn {A} (R : A -> A -> Prop) (n : nat) (l : list A) :
  StronglySorted R l -> StronglySorted R (firstn n l).
Proof.
  intros Hs. revert n. induction Hs as [| a l Hs IH Ha]; intros [| n]; simpl;
    try constructor.
  - apply IH.
  - rewrite Forall_forall in *. intros b Hb. apply Ha.
    rewrite <- (firstn_skipn n l). apply in_or_app. now left.
Qed.

Lemma newestFirst_roundTrip (l : list value) :
  Forall hasValidTime l -> newestFirst l ->
  newestFirst (map JS.jsonRoundTrip l).
Proof.
  apply StronglySorted_map.
  intros a b Ha Hb (x & y & Hx & Hy & Hle). exists x, y.
  now rewrite !time_roundTrip.
Qed.

(** ** add *)

Lemma bind_never {A B} (P : result B -> Prop) (m : M A) (f : A -> M B)
    (w : Browser) :
  (forall e, P (Throw e)) -> (forall a w', P (snd (f a w'))) ->
  P (snd (bind m f w)).
Proof.
  intros He Hf. unfold bind. destruct (m w) as [w' [a | e]]; simpl; auto.
Qed.

Lemma saveToHistory_returns_undefined (response : value) (w : Browser)
    (size : value) :
  snd (History.saveToHistory response w) <> Normal (Some size).
Proof.
  unfold History.saveToHistory.
  repeat (apply bind_never; [discriminate | intros]).
  discriminate.
Qed.

(** C2, amended. add(record) puts the record at the head of the stored
    list without re-sorting it, then drops the last record when the
    list has grown beyond 100, writes the list back, and returns
    nothing (undefined), not the store size. The stored list is in
    non-increasing timestamp order afterwards provided it was so before
    and the new record is at least as recent as every stored one
    (records well-formed: string id, valid timestamp). *)
Theorem saveToHistory_prepends (w : Browser) (response record : value)
    (items : list value) :
  stored w = Some items ->
  History.recordOf (Some response) = Normal record ->
  let kept := if (100 <? List.length (record :: items))%nat
              then removelast (record :: items) else record :: items in
  stored (fst (History.saveToHistory response w))
    = Some (map JS.jsonRoundTrip kept) /\
  (forall size, snd (History.saveToHistory response w) <> Normal (Some size)) /\
  (Forall wellFormed (record :: items) -> newestFirst (record :: items) ->
   newestFirst (map JS.jsonRoundTrip kept)).
Proof.
  intros Hitems Hrecord kept. repeat split.
  - rewrite (stored_written w _ _ (saveToHistory_storage response w)).
    rewrite (stored_slot_value w items Hitems). cbn [rbind].
    unfold saved. rewrite Hrecord. reflexivity.
  - intros size. apply saveToHistory_returns_undefined.
  - intros Hwf Hsorted.
    assert (Hvalid : Forall hasValidTime (record :: items)).
    { eapply Forall_impl; [| exact Hwf]. now intros e [_ He]. }
    assert (Hk : exists n, kept = firstn n (record :: items)).
    { unfold kept. destruct (100 <? List.length (record :: items))%nat.
      - eexists. apply removelast_firstn_len.
      - exists (List.length (record :: items)). symmetry. apply firstn_all. }
    destruct Hk as [n ->].
    apply newestFirst_roundTrip.
    + rewrite Forall_forall in *. intros e He. apply Hvalid.
      rewrite <- (firstn_skipn n (record :: items)). apply in_or_app. now left.
    + now apply StronglySorted_firstn.
Qed.

(** ** Uniqueness of ids *)

Lemma NoDup_firstn {A} (n : nat) (l : list A) : NoDup l -> NoDup (firstn n l).
Proof.
  intros H. rewrite <- (firstn_skipn n l) in H.
  now apply NoDup_app_remove_r in H.
Qed.

Lemma Forall_firstn {A} (P : A -> Prop) (n : nat) (l : list A) :
  Forall P l -> Forall P (firstn n l).
Proof.
  intros H. rewrite <- (firstn_skipn n l) in H.
  now apply Forall_app in H.
Qed.

Lemma recordOf_id (response : option value) (record : value) (id : option value) :
  History.recordOf response = Normal record ->
  JS.get response "id" = Normal id ->
  idOf record = id.
Proof.
  unfold History.recordOf. intros H Hid. rewrite Hid in H. cbn [rbind] in H.
  invert_chain H. injection H as <-.
  destruct id, a0, a1, a2; reflexivity.
Qed.

Lemma newFromServer_ids (ids : list (option value)) (entries pushed : list value) :
  History.newFromServer ids entries = Normal pushed ->
  map idOf pushed
  = filter (fun id => negb (JS.has ids id)) (map servedId entries).
Proof.
  revert pushed. induction entries as [| entry rest IH]; intros pushed H;
    cbn [History.newFromServer] in H.
  - now injection H as <-.
  - destruct (JS.get (Some entry) "response") as [response | e] eqn:Er;
      [| discriminate]. cbn [rbind] in H.
    destruct (JS.get response "id") as [id | e] eqn:Ei; [| discriminate].
    cbn [rbind] in H.
    assert (Hs : servedId entry = id) by (unfold servedId; now rewrite Er, Ei).
    simpl. rewrite Hs.
    destruct (JS.has ids id); cbn [negb].
    + now apply IH.
    + invert_chain H. injection H as <-. simpl. f_equal.
      * exact (recordOf_id response a id E Ei).
      * now apply IH.
Qed.

Lemma has_string (ids : list (option value)) (s : string) :
  In (Some (VStr s)) ids -> JS.has ids (Some (VStr s)) = true.
Proof.
  intros H. unfold JS.has. apply existsb_exists.
  exists (Some (VStr s)). split; [exact H |]. simpl. apply String.eqb_refl.
Qed.

Lemma distinct_written (w w' : Browser) (written : result (list value)) :
  distinctIds w ->
  historySlot w' = storage_after w written ->
  (forall kept, written = Normal kept ->
                Forall hasStringId kept /\ NoDup (map idOf kept)) ->
  distinctIds w'.
Proof.
  intros Hw Hslot Hk. unfold distinctIds.
  rewrite (stored_written w w' written Hslot).
  destruct written as [kept | e]; [| exact Hw].
  destruct (Hk kept eq_refl) as [Hs Hn].
  exists (map JS.jsonRoundTrip kept). split; [reflexivity |]. split.
  - rewrite Forall_map. eapply Forall_impl; [| exact Hs].
    intros e [s He]. exists s. rewrite idOf_roundTrip; [exact He | now exists s].
  - now rewrite ids_roundTrip.
Qed.

(** C3, amended. Starting from the empty store, after any sequence of
    add calls whose record has a string id that the store does not
    hold, and of merge-imports whose remote list has pairwise distinct
    string ids, no two records in the store share an id. *)
Theorem ids_stay_distinct (w : Browser) :
  distinctRun w ->
  exists items,
    stored w = Some items /\ Forall hasStringId items /\ NoDup (map idOf items).
Proof.
  intros Hrun. change (distinctIds w).
  induction Hrun as [| response w Hrun IH Hfresh | answer w Hrun IH Hremote].
  - exists []. repeat split; constructor.
  - pose proof IH as (items & Hitems & Hs & Hn).
    eapply distinct_written; [exact IH | apply saveToHistory_storage |].
    rewrite (stored_slot_value w items Hitems). cbn [rbind].
    intros kept Hk.
    apply saved_firstn in Hk as (record & n & Hrecord & ->).
    destruct (Hfresh record items Hrecord Hitems) as [Hid Hnew].
    assert (Ha : Forall hasStringId (record :: items)) by now constructor.
    assert (Hd : NoDup (map idOf (record :: items))) by now constructor.
    split.
    + now apply Forall_firstn.
    + rewrite <- firstn_map. now apply NoDup_firstn.
  - pose proof IH as (items & Hitems & Hs & Hn).
    eapply distinct_written; [exact IH | apply syncHistoryFromServer_storage |].
    intros kept Hk. destruct answer as [| [|] body]; try discriminate.
    destruct body as [| | data]; try discriminate. cbn [JS.JSON_parse rbind] in Hk.
    rewrite (stored_slot_value w items Hitems) in Hk. cbn [rbind] in Hk.
    apply merged_inv in Hk as (a2 & a3 & a4 & E1 & E0 & E3 & E4 & ->).
    assert (Hserved : served_by (Response true (Json data)) = a2).
    { unfold served_by. now rewrite E1. }
    destruct Hremote as [Hstr Hdis]. rewrite Hserved in Hstr, Hdis.
    pose proof (newFromServer_ids _ _ _ E3) as Hids.
    pose proof (sort_Permutation _ _ E4) as Hperm.
    assert (Hpushed : Forall hasStringId a3).
    { rewrite Forall_forall. intros e He.
      assert (Hin : In (idOf e) (map idOf a3)) by now apply in_map.
      rewrite Hids in Hin. apply filter_In in Hin as [Hin _].
      apply in_map_iff in Hin as (entry & Hentry & Hin).
      rewrite Forall_forall in Hstr. destruct (Hstr entry Hin) as [s Hsv].
      exists s. now rewrite <- Hentry. }
    assert (Hall : Forall hasStringId (items ++ a3)).
    { apply Forall_app. now split. }
    assert (Hnodup : NoDup (map idOf (items ++ a3))).
    { rewrite map_app. apply NoDup_app; [exact Hn | |].
      - rewrite Hids. now apply NoDup_filter.
      - intros id Hl Hr. rewrite Hids in Hr. apply filter_In in Hr as [_ Hr].
        apply in_map_iff in Hl as (e & <- & He).
        rewrite Forall_forall in Hs. destruct (Hs e He) as [s Hse].
        rewrite Hse in Hr. rewrite has_string in Hr; [discriminate |].
        rewrite <- Hse. now apply in_map. }
    split.
    + apply Forall_firstn.
      exact (Permutation_Forall (Permutation_sym Hperm) Hall).
    + rewrite <- firstn_map. apply NoDup_firstn.
      apply (Permutation_NoDup (Permutation_map idOf (Permutation_sym Hperm))).
      exact Hnodup.
Qed.

(** ** Merging twice *)

Lemma recordOf_get_id (response : option value) (record : value) :
  History.recordOf response = Normal record ->
  JS.get response "id" = Normal (idOf record).
Proof.
  intros H. destruct (JS.get response "id") as [id | e] eqn:E.
  - now rewrite (recordOf_id response record id H E).
  - unfold History.recordOf in H. now rewrite E in H.
Qed.

Lemma newFromServer_In (ids : list (option value)) (entries pushed : list value)
    (record : value) :
  History.newFromServer ids entries = Normal pushed ->
  In record pushed ->
  exists entry response,
    In entry entries /\
    JS.get (Some entry) "response" = Normal response /\
    History.recordOf response = Normal record /\
    JS.has ids (idOf record) = false.
Proof.
  revert pushed. induction entries as [| entry rest IH]; intros pushed H Hin;
    cbn [History.newFromServer] in H.
  - injection H as <-. contradiction.
  - destruct (JS.get (Some entry) "response") as [response | e] eqn:Er;
      [| discriminate]. cbn [rbind] in H.
    destruct (JS.get response "id") as [id | e] eqn:Ei; [| discriminate].
    cbn [rbind] in H.
    destruct (JS.has ids id) eqn:Eh.
    + destruct (IH pushed H Hin) as (en & re & ? & ? & ? & ?).
      exists en, re. repeat split; auto. now right.
    + destruct (History.recordOf response) as [r | e] eqn:Erec; [| discriminate].
      cbn [rbind] in H.
      destruct (History.newFromServer ids rest) as [p | e]; [| discriminate].
      cbn [rbind] in H. injection H as <-.
      destruct Hin as [<- | Hin].
      * exists entry, response. repeat split; auto; [now left |].
        now rewrite (recordOf_id response r id Erec Ei).
      * destruct (IH p eq_refl Hin) as (en & re & ? & ? & ? & ?).
        exists en, re. repeat split; auto. now right.
Qed.

Lemma newFromServer_complete (ids : list (option value))
    (entries pushed : list value) (entry : value) (response : option value)
    (record : value) :
  History.newFromServer ids entries = Normal pushed ->
  In entry entries ->
  JS.get (Some entry) "response" = Normal response ->
  History.recordOf response = Normal record ->
  JS.has ids (idOf record) = false ->
  In record pushed.
Proof.
  intros H Hin Hr Hrec Hhas. revert pushed H.
  induction entries as [| e rest IH]; intros pushed H; [contradiction |].
  cbn [History.newFromServer] in H.
  destruct (JS.get (Some e) "response") as [response' | err] eqn:Er;
    [| discriminate]. cbn [rbind] in H.
  destruct (JS.get response' "id") as [id | err] eqn:Ei; [| discriminate].
  cbn [rbind] in H.
  destruct Hin as [-> | Hin].
  - rewrite Hr in Er. injection Er as <-.
    rewrite (recordOf_get_id response record Hrec) in Ei. injection Ei as <-.
    rewrite Hhas in H. rewrite Hrec in H. cbn [rbind] in H.
    destruct (History.newFromServer ids rest); [| discriminate].
    cbn [rbind] in H. injection H as <-. now left.
  - destruct (JS.has ids id).
    + now apply IH.
    + destruct (History.recordOf response'); [| discriminate]. cbn [rbind] in H.
      destruct (History.newFromServer ids rest) as [p | err]; [| discriminate].
      cbn [rbind] in H. injection H as <-. right. now apply IH.
Qed.

Lemma has_true_string (ids : list (option value)) (s : string) :
  JS.has ids (Some (VStr s)) = true -> In (Some (VStr s)) ids.
Proof.
  unfold JS.has. intros H. apply existsb_exists in H as (x & Hx & Heq).
  destruct x as [[] |]; simpl in Heq; try discriminate.
  apply String.eqb_eq in Heq. now subst.
Qed.

Lemma In_firstn_or_skipn {A} (n : nat) (l : list A) (a : A) :
  In a l -> In a (firstn n l) \/ In a (skipn n l).
Proof.
  intros H. rewrite <- (firstn_skipn n l) in H. now apply in_app_or.
Qed.

Lemma StronglySorted_firstn_skipn {A} (R : A -> A -> Prop) (n : nat) (l : list A)
    (a b : A) :
  StronglySorted R l -> In a (firstn n l) -> In b (skipn n l) -> R a b.
Proof.
  intros Hs. revert n. induction Hs as [| x l Hs IH Hx]; intros n Ha Hb.
  - destruct n; contradiction.
  - destruct n as [| n]; [contradiction |]. simpl in Ha, Hb.
    destruct Ha as [<- | Ha].
    + rewrite Forall_forall in Hx. apply Hx.
      rewrite <- (firstn_skipn n l). apply in_or_app. now right.
    + exact (IH n Ha Hb).
Qed.

Lemma skipn_In_length {A} (n : nat) (l : list A) (a : A) :
  In a (skipn n l) -> n < List.length l.
Proof.
  intros H. destruct (Nat.lt_ge_cases n (List.length l)) as [Hlt | Hge]; [exact Hlt |].
  rewrite skipn_all2 in H by exact Hge. contradiction.
Qed.

Lemma wellFormed_timed (e : value) : wellFormed e -> timed e.
Proof. intros [_ H]. now apply hasValidTime_time. Qed.

(** The list a second merge of the same data writes is the list the
    first merge left. *)
Lemma merged_again (data : value) (entries items kept kept' : list value) :
  JS.get (Some data) "entries" = Normal (Some (VArr entries)) ->
  Forall wellFormed items ->
  remoteWellFormed entries ->
  sameRecordSameTime entries items ->
  merged data (VArr items) = Normal kept ->
  merged data (VArr (map JS.jsonRoundTrip kept)) = Normal kept' ->
  kept' = map JS.jsonRoundTrip kept.
Proof.
  intros Hent Hwf Hremote Hsame H1 H2.
  apply merged_inv in H1 as (es1 & pushed1 & sorted1 & He1 & _ & Hp1 & Hs1 & ->).
  apply merged_inv in H2 as (es2 & pushed2 & sorted2 & He2 & _ & Hp2 & Hs2 & ->).
  rewrite Hent in He1, He2. injection He1 as <-. injection He2 as <-.
  assert (Hwf1 : Forall wellFormed pushed1).
  { rewrite Forall_forall. intros r Hr.
    destruct (newFromServer_In _ _ _ _ Hp1 Hr) as (en & re & Hin & Hre & Hrec & _).
    exact (Hremote en re r Hin Hre Hrec). }
  assert (HwfA : Forall wellFormed (items ++ pushed1)).
  { apply Forall_app. now split. }
  destruct (sort_newestFirst (items ++ pushed1)) as (s & Hs & Hsorted & Hperm).
  { eapply Forall_impl; [| exact HwfA]. exact wellFormed_timed. }
  rewrite Hs1 in Hs. injection Hs as <-.
  assert (Hwfs : Forall wellFormed sorted1).
  { exact (Permutation_Forall (Permutation_sym Hperm) HwfA). }
  assert (Hwfk : Forall wellFormed (firstn 100 sorted1)) by now apply Forall_firstn.
  assert (Hidk : Forall hasStringId (firstn 100 sorted1)).
  { eapply Forall_impl; [| exact Hwfk]. now intros e [He _]. }
  assert (Hvalk : Forall hasValidTime (firstn 100 sorted1)).
  { eapply Forall_impl; [| exact Hwfk]. now intros e [_ He]. }
  assert (HsortedL : newestFirst (map JS.jsonRoundTrip (firstn 100 sorted1))).
  { apply newestFirst_roundTrip; [exact Hvalk |]. now apply StronglySorted_firstn. }
  rewrite (ids_roundTrip _ Hidk) in Hp2.
  assert (Hwf2 : Forall wellFormed pushed2).
  { rewrite Forall_forall. intros r Hr.
    destruct (newFromServer_In _ _ _ _ Hp2 Hr) as (en & re & Hin & Hre & Hrec & _).
    exact (Hremote en re r Hin Hre Hrec). }
  assert (Hlate : forall r, In r pushed2 ->
                   exists z, In z (skipn 100 sorted1) /\ time z = time r).
  { intros r Hr.
    destruct (newFromServer_In _ _ _ _ Hp2 Hr) as (en & re & Hin & Hre & Hrec & Hhas).
    destruct (Hremote en re r Hin Hre Hrec) as [[sid Hsid] _].
    assert (Hnot : ~ In (idOf r) (map idOf (firstn 100 sorted1))).
    { intro Hc. rewrite Hsid in Hc, Hhas.
      rewrite (has_string _ _ Hc) in Hhas. discriminate. }
    destruct (JS.has (map idOf items) (idOf r)) eqn:Eh.
    - rewrite Hsid in Eh. apply has_true_string in Eh.
      apply in_map_iff in Eh as (l & Hl & Hlin).
      exists l. split.
      + assert (Hls : In l sorted1).
        { apply (Permutation_in l (Permutation_sym Hperm)).
          apply in_or_app. now left. }
        destruct (In_firstn_or_skipn 100 _ _ Hls) as [Hf | Hk]; [| exact Hk].
        exfalso. apply Hnot. rewrite Hsid, <- Hl. now apply in_map.
      + apply (Hsame en re r l Hin Hre Hrec Hlin). now rewrite Hl, Hsid.
    - assert (Hrp : In r pushed1).
      { exact (newFromServer_complete _ _ _ en re r Hp1 Hin Hre Hrec Eh). }
      exists r. split; [| reflexivity].
      assert (Hrs : In r sorted1).
      { apply (Permutation_in r (Permutation_sym Hperm)).
        apply in_or_app. now right. }
      destruct (In_firstn_or_skipn 100 _ _ Hrs) as [Hf | Hk]; [| exact Hk].
      exfalso. apply Hnot. now apply in_map. }
  assert (Hle : forall p q, In p (map JS.jsonRoundTrip (firstn 100 sorted1)) ->
                            In q pushed2 -> notOlder p q).
  { intros p q Hp Hq. apply in_map_iff in Hp as (t & <- & Ht).
    destruct (Hlate q Hq) as (z & Hz & Htime).
    destruct (StronglySorted_firstn_skipn notOlder 100 sorted1 t z Hsorted Ht Hz)
      as (x & y & Hx & Hy & Hxy).
    exists x, y. rewrite time_roundTrip.
    - rewrite <- Htime. now repeat split.
    - rewrite Forall_forall in Hvalk. now apply Hvalk. }
  destruct (sort_newestFirst pushed2) as (sq & Hsq & _ & Hpermq).
  { eapply Forall_impl; [| exact Hwf2]. exact wellFormed_timed. }
  rewrite (sort_sorted_prefix _ pushed2 sq HsortedL Hle Hsq) in Hs2.
  assert (Hs2' : sorted2 = map JS.jsonRoundTrip (firstn 100 sorted1) ++ sq)
    by congruence.
  subst sorted2. clear Hs2.
  assert (Hlen : List.length (map JS.jsonRoundTrip (firstn 100 sorted1)) <= 100).
  { rewrite length_map. apply firstn_le_length. }
  destruct pushed2 as [| r rest].
  - apply Permutation_sym, Permutation_nil in Hpermq. subst sq. rewrite app_nil_r.
    now apply firstn_all2.
  - destruct (Hlate r (or_introl eq_refl)) as (z & Hz & _).
    apply skipn_In_length in Hz.
    assert (Hfull : List.length (map JS.jsonRoundTrip (firstn 100 sorted1)) = 100).
    { rewrite length_map, length_firstn. lia. }
    rewrite firstn_app, Hfull, Nat.sub_diag, firstn_O, app_nil_r.
    now apply firstn_all2.
Qed.

(** C5, amended. Merging a server answer and merging the same answer
    again at once leaves the store that the first merge left, when the
    records are those of the data model: ids are strings and name one
    record (a remote record with the id of a stored one carries its
    timestamp), and timestamps are valid dates. It does not hold for
    every store and every answer: a remote record that reuses a stored
    id with another timestamp is taken by the second merge only. *)
Theorem merge_twice_is_merge_once (answer : fetched) (w : Browser) :
  (forall items,
     stored w = Some items ->
     Forall wellFormed items /\ sameRecordSameTime (served_by answer) items) ->
  remoteWellFormed (served_by answer) ->
  let w1 := fst (syncHistoryFromServer answer w) in
  historySlot (fst (syncHistoryFromServer answer w1)) = historySlot w1.
Proof.
  intros Hlocal Hremote w1.
  pose proof (syncHistoryFromServer_storage answer w) as H1. fold w1 in H1.
  rewrite (syncHistoryFromServer_storage answer w1).
  destruct answer as [| [|] body]; try reflexivity.
  destruct body as [| | data]; try reflexivity.
  cbn [JS.JSON_parse rbind] in *.
  destruct (slot_value (historySlot w)) as [history |] eqn:Hslot; cbn [rbind] in H1.
  2: { cbn [storage_after] in H1. rewrite H1, Hslot.
       cbn [rbind storage_after]. exact H1. }
  destruct (merged data history) as [kept |] eqn:Hm; cbn [storage_after] in H1.
  2: { rewrite H1, Hslot. cbn [rbind]. rewrite Hm.
       cbn [storage_after]. exact H1. }
  rewrite H1. cbn [slot_value JS.JSON_stringify JS.JSON_parse rbind JS.jsonRoundTrip].
  destruct (merged data (VArr (map JS.jsonRoundTrip kept))) as [kept' |] eqn:Hm';
    cbn [storage_after]; [| exact H1].
  assert (Harr : exists items, history = VArr items).
  { unfold Store.merged in Hm. destruct history; try discriminate. now eexists. }
  destruct Harr as [items ->].
  assert (Hstored : stored w = Some items) by (unfold stored; now rewrite Hslot).
  destruct (Hlocal items Hstored) as [Hwf Hsame].
  pose proof Hm as Hinv.
  apply merged_inv in Hinv as (entries & _ & _ & Hent & _).
  assert (Hserved : served_by (Response true (Json data)) = entries).
  { unfold served_by. now rewrite Hent. }
  rewrite Hserved in Hremote, Hsame.
  rewrite (merged_again data entries items kept kept' Hent Hwf Hremote Hsame Hm Hm').
  unfold JS.JSON_stringify. cbn [JS.jsonRoundTrip].
  do 3 f_equal. rewrite map_map. apply map_ext. intro e. apply jsonRoundTrip_twice.
Qed.

(** ** Bulk import *)

Lemma ids_of_total (l : list value) :
  Forall (fun e => e <> VNull) l -> History.ids_of l = Normal (map idOf l).
Proof.
  induction 1 as [| e rest He _ IH]; [reflexivity |].
  cbn [History.ids_of]. rewrite (get_field "id" e He). cbn [rbind].
  rewrite IH. reflexivity.
Qed.

Lemma newFromFile_filter (ids : list (option value)) (payload : list value) :
  Forall (fun e => e <> VNull) payload ->
  History.newFromFile ids payload = Normal (filter (accepted ids) payload).
Proof.
  induction 1 as [| e rest He _ IH]; [reflexivity |].
  cbn [History.newFromFile filter]. rewrite (get_field "id" e He). cbn [rbind].
  unfold accepted at 1. fold (idOf e).
  destruct (JS.truthy (idOf e) && negb (JS.has ids (idOf e)));
    rewrite IH; reflexivity.
Qed.





(** ** Retention *)

Lemma filter_length_Permutation {A} (p : A -> bool) (l l' : list A) :
  Permutation l l' -> List.length (filter p l) = List.length (filter p l').
Proof.
  induction 1 as [| x l l' _ IH | x y l | l l' l'' _ IH1 _ IH2]; simpl.
  - reflexivity.
  - destruct (p x); simpl; congruence.
  - destruct (p x), (p y); reflexivity.
  - congruence.
Qed.

Lemma filter_none {A} (p : A -> bool) (l : list A) :
  (forall e, In e l -> p e = false) -> filter p l = [].
Proof.
  induction l as [| a l IH]; intros H; [reflexivity |].
  simpl. rewrite (H a (or_introl eq_refl)).
  apply IH. intros e He. apply H. now right.
Qed.

Lemma StronglySorted_app_r {A} (R : A -> A -> Prop) (l1 l2 : list A) :
  StronglySorted R (l1 ++ l2) -> StronglySorted R l2.
Proof.
  induction l1 as [| a l1 IH]; simpl; intros H; [exact H |].
  apply IH. now apply StronglySorted_inv in H.
Qed.

Lemma notBefore_notOlder (e x : value) (instant : Z) :
  time x = Some instant -> notOlder e x -> notBefore instant e = true.
Proof.
  intros Hx (a & b & Ha & Hb & Hle). unfold Store.notBefore. rewrite Ha.
  rewrite Hx in Hb. injection Hb as <-. now apply Z.leb_le.
Qed.

(** When a hundred entries of a list sorted newest first are at least
    as recent as [x], so is each of its first hundred: an older one
    among them would leave fewer than a hundred places before it for
    the entries that are not older than [x]. *)
Lemma sorted_keeps_newest (items pushed sorted : list value) (x s : value) :
  Permutation sorted (items ++ pushed) -> newestFirst sorted ->
  List.length items = 100 -> (forall i, In i items -> notOlder i x) ->
  timed x -> timed s ->
  In s (firstn 100 sorted) -> notOlder s x.
Proof.
  intros Hperm Hsorted Hlen Hitems [tx Hx] [ts Hs] Hin.
  destruct (Z.le_gt_cases tx ts) as [Hle | Hgt].
  { exists ts, tx. now repeat split. }
  exfalso.
  assert (Hmany : 100 <= List.length (filter (notBefore tx) sorted)).
  { rewrite (filter_length_Permutation _ _ _ Hperm), filter_app, length_app.
    rewrite forallb_filter_id; [lia |].
    apply forallb_forall. intros i Hi.
    exact (notBefore_notOlder i x tx Hx (Hitems i Hi)). }
  destruct (in_split s _ Hin) as (l1 & l2 & Hsplit).
  assert (Hl1 : List.length l1 < 100).
  { pose proof (firstn_le_length 100 sorted) as Hf.
    rewrite Hsplit, length_app in Hf. simpl in Hf. lia. }
  remember (skipn 100 sorted) as tail eqn:Htail.
  assert (Hparts : sorted = l1 ++ (s :: l2) ++ tail).
  { rewrite <- (firstn_skipn 100 sorted) at 1.
    rewrite Hsplit, <- Htail, <- app_assoc. reflexivity. }
  clear Htail Hsplit Hin Hperm. subst sorted.
  apply StronglySorted_app_r in Hsorted.
  rewrite filter_app, length_app in Hmany.
  rewrite (filter_none (notBefore tx) ((s :: l2) ++ tail)) in Hmany.
  - pose proof (filter_length_le (notBefore tx) l1). simpl in Hmany. lia.
  - intros e He. simpl in He. unfold Store.notBefore.
    destruct He as [<- | He].
    + rewrite Hs. apply Z.leb_gt. lia.
    + simpl in Hsorted. apply StronglySorted_inv in Hsorted as [_ Hall].
      rewrite Forall_forall in Hall.
      destruct (Hall e He) as (a & b & Ha & Hb & Hab).
      rewrite Hb. rewrite Hs in Ha. injection Ha as <-. apply Z.leb_gt. lia.
Qed.

(** An entry of a list sorted newest first is among its first hundred,
    or these are a hundred entries at least as recent. *)
Lemma In_kept_or_full (sorted : list value) (t : value) :
  newestFirst sorted -> In t sorted ->
  In t (firstn 100 sorted) \/
  (List.length (firstn 100 sorted) = 100 /\
   forall s, In s (firstn 100 sorted) -> notOlder s t).
Proof.
  intros Hsorted Hin.
  destruct (In_firstn_or_skipn 100 _ _ Hin) as [Hf | Hk]; [now left | right].
  split.
  - apply skipn_In_length in Hk. rewrite length_firstn. lia.
  - intros s Hs.
    exact (StronglySorted_firstn_skipn _ 100 sorted s t Hsorted Hs Hk).
Qed.

Lemma notOlder_roundTrip (s x : value) :
  hasValidTime s -> notOlder s x -> notOlder (JS.jsonRoundTrip s) x.
Proof.
  intros Hs (a & b & Ha & Hb & Hab). exists a, b.
  rewrite (time_roundTrip s Hs). now repeat split.
Qed.

Lemma notOlder_same_time (s t x : value) :
  time t = time x -> notOlder s t -> notOlder s x.
Proof.
  intros Htime (a & b & Ha & Hb & Hab). exists a, b.
  rewrite <- Htime. now repeat split.
Qed.

(** Sorting the stored records with the pushed ones and keeping the
    first hundred keeps the most recent of all the records offered. *)
Lemma newest_kept (offered items pushed sorted : list value) :
  Forall wellFormed offered -> Forall wellFormed items ->
  Forall wellFormed pushed ->
  mostRecentOf offered items ->
  Permutation sorted (items ++ pushed) -> newestFirst sorted ->
  mostRecentOf (offered ++ pushed) (map JS.jsonRoundTrip (firstn 100 sorted)).
Proof.
  intros Hwo Hwi Hwp [Hsub Hret] Hperm Hsorted.
  assert (Hws : Forall wellFormed sorted).
  { apply (Permutation_Forall (Permutation_sym Hperm)). apply Forall_app. now split. }
  assert (Hwk : Forall wellFormed (firstn 100 sorted)) by now apply Forall_firstn.
  rewrite Forall_forall in Hwo, Hwk.
  assert (Hkept : forall t x,
             In t sorted -> time t = time x ->
             In (JS.jsonRoundTrip t) (map JS.jsonRoundTrip (firstn 100 sorted)) \/
             (List.length (map JS.jsonRoundTrip (firstn 100 sorted)) = 100 /\
              forall s, In s (map JS.jsonRoundTrip (firstn 100 sorted)) ->
                        notOlder s x)).
  { intros t x Ht Htime.
    destruct (In_kept_or_full sorted t Hsorted Ht) as [Hf | [Hlen Hall]].
    - left. now apply in_map.
    - right. split; [now rewrite length_map |].
      intros s Hs. apply in_map_iff in Hs as (k & <- & Hk).
      apply notOlder_roundTrip; [exact (proj2 (Hwk k Hk)) |].
      exact (notOlder_same_time k t x Htime (Hall k Hk)). }
  split.
  - intros s Hs. apply in_map_iff in Hs as (t & <- & Ht).
    assert (Hin : In t (items ++ pushed)).
    { apply (Permutation_in t Hperm).
      rewrite <- (firstn_skipn 100 sorted). apply in_or_app. now left. }
    rewrite map_app. apply in_or_app. apply in_app_or in Hin as [Hi | Hp].
    + left. apply Hsub in Hi. apply in_map_iff in Hi as (o & <- & Ho).
      rewrite jsonRoundTrip_twice. now apply in_map.
    + right. now apply in_map.
  - intros x Hx. apply in_app_or in Hx as [Ho | Hp].
    + destruct (Hret x Ho) as [Hin | [Hlen Hall]].
      * assert (Hs : In (JS.jsonRoundTrip x) sorted).
        { apply (Permutation_in _ (Permutation_sym Hperm)).
          apply in_or_app. now left. }
        destruct (Hkept (JS.jsonRoundTrip x) x Hs
                    (time_roundTrip x (proj2 (Hwo x Ho)))) as [Hl | Hr].
        -- left. now rewrite jsonRoundTrip_twice in Hl.
        -- now right.
      * right. split.
        -- rewrite length_map, length_firstn.
           pose proof (Permutation_length Hperm) as Hl.
           rewrite length_app in Hl. lia.
        -- intros s Hs. apply in_map_iff in Hs as (k & <- & Hk).
           apply notOlder_roundTrip; [exact (proj2 (Hwk k Hk)) |].
           apply (sorted_keeps_newest items pushed sorted x k Hperm Hsorted Hlen Hall).
           ++ apply wellFormed_timed. now apply Hwo.
           ++ apply wellFormed_timed. now apply Hwk.
           ++ exact Hk.
    + assert (Hs : In x sorted).
      { apply (Permutation_in _ (Permutation_sym Hperm)).
        apply in_or_app. now right. }
      destruct (Hkept x x Hs eq_refl) as [Hl | Hr]; [now left | now right].
Qed.

Lemma wellFormed_not_null (l : list value) :
  Forall wellFormed l -> Forall (fun e => e <> VNull) l.
Proof.
  apply Forall_impl. intros e He.
  destruct (wellFormed_timed e He) as [x Hx]. exact (time_not_null e x Hx).
Qed.

Lemma keepsMostRecent_written (w w' : Browser)
    (offered items pushed sorted : list value) :
  Forall wellFormed offered -> Forall wellFormed items ->
  Forall wellFormed pushed ->
  mostRecentOf offered items ->
  Permutation sorted (items ++ pushed) -> newestFirst sorted ->
  historySlot w' = storage_after w (Normal (firstn 100 sorted)) ->
  keepsMostRecent (offered ++ pushed) w'.
Proof.
  intros Hwo Hwi Hwp Hmost Hperm Hsorted Hslot.
  assert (Hwk : Forall wellFormed (firstn 100 sorted)).
  { apply Forall_firstn.
    apply (Permutation_Forall (Permutation_sym Hperm)). apply Forall_app. now split. }
  exists (map JS.jsonRoundTrip (firstn 100 sorted)).
  split; [exact (stored_written w w' _ Hslot) |].
  split.
  { rewrite Forall_map. eapply Forall_impl; [| exact Hwk].
    exact wellFormed_roundTrip. }
  split.
  { apply newestFirst_roundTrip; [| now apply StronglySorted_firstn].
    eapply Forall_impl; [| exact Hwk]. now intros e [_ He]. }
  split; [apply Forall_app; now split |].
  now apply newest_kept with (items := items).
Qed.

Lemma orderly_keepsMostRecent (ops : list insertion) (offered : list value) :
  orderly ops offered -> keepsMostRecent offered (after ops initial).
Proof.
  induction 1 as [| ops offered response record Hrun IH Hrec Hwf Hnew
                  | ops offered data entries items pushed Hrun IH Hst Hent Hpushed Hwf
                  | ops offered payload items pushed Hrun IH Hst Hpushed Hwf].
  - exists []. split; [reflexivity |]. split; [apply Forall_nil |].
    split; [apply SSorted_nil |]. split; [apply Forall_nil |].
    split; intros ? [].
  - destruct IH as (items & Hst & Hwi & Hsorted & Hwo & Hmost).
    destruct (after_within_capacity ops) as (items' & Hst' & Hlen).
    rewrite Hst in Hst'. injection Hst' as <-.
    rewrite after_snoc. cbn [Store.insert_with].
    apply (keepsMostRecent_written (after ops initial) _ offered items [record]
             (record :: items)); auto.
    + apply Permutation_cons_append.
    + constructor; [exact Hsorted |].
      rewrite Forall_forall. intros s Hs. exact (Hnew items s Hst Hs).
    + rewrite saveToHistory_storage, (stored_slot_value _ items Hst).
      cbn [rbind]. unfold saved. rewrite Hrec. cbn [rbind JS.as_array].
      do 2 f_equal.
      destruct (Nat.ltb_spec 100 (List.length (record :: items))) as [Hgt | Hle].
      * rewrite removelast_firstn_len. f_equal. simpl in *. lia.
      * symmetry. now apply firstn_all2.
  - destruct IH as (items' & Hst' & Hwi & Hsorted & Hwo & Hmost).
    rewrite Hst in Hst'. injection Hst' as <-.
    destruct (sort_newestFirst (items ++ pushed)) as (sorted & Hs & Hn & Hperm).
    { apply Forall_app. split; (eapply Forall_impl; [exact wellFormed_timed |]);
        assumption. }
    rewrite after_snoc. cbn [Store.insert_with].
    apply (keepsMostRecent_written (after ops initial) _ offered items pushed sorted);
      auto.
    rewrite syncHistoryFromServer_storage. cbn [JS.JSON_parse rbind].
    rewrite (stored_slot_value _ items Hst). cbn [rbind].
    unfold Store.merged. cbn [JS.as_array rbind].
    rewrite (ids_of_total items (wellFormed_not_null items Hwi)). cbn [rbind].
    rewrite Hent. cbn [rbind JS.as_array]. rewrite Hpushed. cbn [rbind].
    rewrite Hs. reflexivity.
  - destruct IH as (items' & Hst' & Hwi & Hsorted & Hwo & Hmost).
    rewrite Hst in Hst'. injection Hst' as <-.
    destruct (sort_newestFirst (items ++ pushed)) as (sorted & Hs & Hn & Hperm).
    { apply Forall_app. split; (eapply Forall_impl; [exact wellFormed_timed |]);
        assumption. }
    rewrite after_snoc. cbn [Store.insert_with].
    apply (keepsMostRecent_written (after ops initial) _ offered items pushed sorted);
      auto.
    rewrite importHistory_storage. cbn [JS.JSON_parse JS.as_array rbind].
    rewrite (stored_slot_value _ items Hst). cbn [rbind].
    unfold Store.imported. cbn [JS.as_array rbind].
    rewrite (ids_of_total items (wellFormed_not_null items Hwi)). cbn [rbind].
    rewrite Hpushed. cbn [rbind]. rewrite Hs. reflexivity.
Qed.

(** C4, amended. After any sequence of insertions (add, merge-import,
    bulk import) starting from the empty store, the store holds an
    array of at most 100 records. When the sequence is orderly (every
    record put in is well-formed, and every added record is at least
    as recent as the records stored when it is added), the stored list
    is newest first and holds the most recent of the records offered:
    each stored record is one of them, and each of them is stored
    unless the store holds 100 records that are all at least as
    recent. *)
Theorem store_keeps_most_recent_when_orderly (ops : list insertion) :
  exists items,
    stored (after ops initial) = Some items /\
    List.length items <= 100 /\
    forall offered,
      orderly ops offered -> newestFirst items /\ mostRecentOf offered items.
Proof.
  destruct (after_within_capacity ops) as (items & Hst & Hlen).
  exists items. split; [exact Hst |]. split; [exact Hlen |].
  intros offered Hrun.
  destruct (orderly_keepsMostRecent ops offered Hrun)
    as (items' & Hst' & _ & Hsorted & _ & Hmost).
  rewrite Hst in Hst'. injection Hst' as <-. now split.
Qed.

(** ** Unreadable storage and unreadable files *)

(** C10. A bulk import whose file is not valid JSON, or is JSON but
    not an array, is refused as a whole: the change handler only shows
    'Import failed', and the stored history (with the rest of the page)
    is exactly what it was. *)
Theorem import_of_non_array_changes_nothing (w : Browser) (file : text) :
  (forall items, file <> Json (VArr items)) ->
  historySlot (fst (importHistory (Some file) w)) = historySlot w /\
  exists e, fst (importHistory (Some file) w) = push_alert (ImportFailed e) w.
Proof.
  intros Hfile.
  assert (H : exists e, fst (importHistory (Some file) w)
                        = push_alert (ImportFailed e) w).
  { unfold History.importHistory. rewrite try_catch_bind_eval.
    destruct file as [| | v]; cbn [JS.JSON_parse].
    - exists SyntaxError. reflexivity.
    - exists SyntaxError. reflexivity.
    - destruct v; cbn [JS.isArray negb];
        try (exists (Error "Invalid format: expected array"); reflexivity).
      exfalso. exact (Hfile items eq_refl). }
  split; [| exact H].
  destruct H as [e ->]. reflexivity.
Qed.

(** C7, amended. A history slot that is absent or holds the empty
    string is read as the empty store. A slot whose text is not valid
    JSON makes JSON.parse raise SyntaxError in every operation that
    reads the store: updateHistoryDisplay, loadHistoryEntry,
    saveToHistory and deleteHistoryEntry pass the exception to their
    caller and change nothing. *)
Theorem unreadable_history_raises (w : Browser) :
  (historySlot w = None \/ historySlot w = Some EmptyText ->
   History.readHistory w = (w, Normal (VArr [])) /\
   History.updateHistoryDisplay w = (set_historyList EmptyState w, Normal tt)) /\
  (historySlot w = Some Malformed ->
   History.updateHistoryDisplay w = (w, Throw SyntaxError) /\
   (forall index, loadHistoryEntry index w = (w, Throw SyntaxError)) /\
   (forall response, History.saveToHistory response w = (w, Throw SyntaxError)) /\
   (forall id, History.deleteHistoryEntry id w = (w, Throw SyntaxError))).
Proof.
  split.
  - intros Hslot.
    assert (Hv : slot_value (historySlot w) = Normal (VArr [])).
    { destruct Hslot as [-> | ->]; reflexivity. }
    split.
    + rewrite readHistory_eq, Hv. reflexivity.
    + unfold History.updateHistoryDisplay.
      rewrite bind_readHistory, Hv. reflexivity.
  - intros Hslot.
    assert (Hv : slot_value (historySlot w) = Throw SyntaxError).
    { rewrite Hslot. reflexivity. }
    repeat split; intros.
    + unfold History.updateHistoryDisplay. rewrite bind_readHistory, Hv. reflexivity.
    + unfold History.loadHistoryEntry. rewrite bind_readHistory, Hv. reflexivity.
    + unfold History.saveToHistory. rewrite bind_readHistory, Hv. reflexivity.
    + unfold History.deleteHistoryEntry. rewrite bind_readHistory, Hv. reflexivity.
Qed.

(** ** Deleting a record *)

Lemma deleteHistoryEntry_storage (id : option value) (w : Browser) :
  historySlot (fst (History.deleteHistoryEntry id w))
  = storage_after w
      (let? history := slot_value (historySlot w) in
       let? items := JS.as_array history in
       History.without_id id items).
Proof.
  unfold History.deleteHistoryEntry. do 3 step.
  apply written_then. apply updateHistoryDisplay_keeps.
Qed.

Lemma without_id_filter (id : option value) (items : list value) :
  Forall (fun e => e <> VNull) items ->
  History.without_id id items = Normal (filter (otherThan id) items).
Proof.
  induction 1 as [| e rest He _ IH]; [reflexivity |].
  cbn [History.without_id filter]. rewrite (get_field "id" e He). cbn [rbind].
  rewrite IH. cbn [rbind]. unfold otherThan. fold (idOf e).
  destruct (JS.strictEquals (idOf e) id); reflexivity.
Qed.

Lemma strictEquals_string (o : option value) (s : string) :
  JS.strictEquals o (Some (VStr s)) = true <-> o = Some (VStr s).
Proof.
  destruct o as [[] |]; simpl; try (split; discriminate).
  rewrite String.eqb_eq. split; congruence.
Qed.

Lemma roundTrip_string (v : value) (s : string) :
  JS.jsonRoundTrip v = VStr s <-> v = VStr s.
Proof.
  destruct v; simpl; try (split; congruence).
  unfold JS.roundTrip_number.
  destruct (PrimFloat.is_nan n || PrimFloat.is_infinity n); [split; discriminate |].
  destruct (PrimFloat.is_zero n); split; discriminate.
Qed.

Lemma idOf_roundTrip_string (e : value) (s : string) :
  idOf (JS.jsonRoundTrip e) = Some (VStr s) <-> idOf e = Some (VStr s).
Proof.
  unfold idOf, field. destruct e; simpl; try reflexivity.
  - unfold JS.roundTrip_number.
    destruct (PrimFloat.is_nan n || PrimFloat.is_infinity n); [reflexivity |].
    destruct (PrimFloat.is_zero n); reflexivity.
  - rewrite lookup_roundTrip. destruct (JS.lookup "id" props) as [v |]; simpl.
    + split; intros [= H]; f_equal; now apply roundTrip_string.
    + reflexivity.
Qed.

Lemma isObject_roundTrip (e : value) : isObject e -> isObject (JS.jsonRoundTrip e).
Proof. intros [props ->]. simpl. now eexists. Qed.

Lemma isObject_not_null (l : list value) :
  Forall isObject l -> Forall (fun e => e <> VNull) l.
Proof. apply Forall_impl. now intros e [props ->]. Qed.

Lemma deleteHistoryEntry_stored (w : Browser) (id : option value)
    (items : list value) :
  stored w = Some items ->
  Forall (fun e => e <> VNull) items ->
  stored (fst (History.deleteHistoryEntry id w))
    = Some (map JS.jsonRoundTrip (filter (otherThan id) items)).
Proof.
  intros Hst Hnn.
  rewrite (stored_written w _ _ (deleteHistoryEntry_storage id w)).
  rewrite (stored_slot_value w items Hst). cbn [rbind JS.as_array].
  rewrite (without_id_filter id items Hnn). reflexivity.
Qed.

(** X1. deleteHistoryEntry(id) on a store without null entries writes back
    the records whose id is not [id], in their order, whether or not
    the list can be redrawn afterwards. For a string id: no stored
    record has that id any more. *)
Theorem deleteHistoryEntry_removes_id (w : Browser) (id : option value)
    (items : list value) :
  stored w = Some items ->
  Forall (fun e => e <> VNull) items ->
  stored (fst (History.deleteHistoryEntry id w))
    = Some (map JS.jsonRoundTrip (filter (otherThan id) items)) /\
  forall s kept,
    id = Some (VStr s) ->
    stored (fst (History.deleteHistoryEntry id w)) = Some kept ->
    ~ In (Some (VStr s)) (map idOf kept).
Proof.
  intros Hst Hnn.
  pose proof (deleteHistoryEntry_stored w id items Hst Hnn) as H.
  split; [exact H |].
  intros s kept -> Hk. rewrite H in Hk. injection Hk as <-.
  rewrite map_map. intros Hin. apply in_map_iff in Hin as (e & He & Hin).
  apply filter_In in Hin as [_ Hin].
  apply (proj1 (idOf_roundTrip_string e s)) in He.
  unfold otherThan in Hin. apply negb_true_iff in Hin.
  apply (proj2 (strictEquals_string (idOf e) s)) in He. congruence.
Qed.

Lemma recordOf_isObject (response : option value) (record : value) :
  History.recordOf response = Normal record -> isObject record.
Proof.
  unfold History.recordOf. intros H. invert_chain H. injection H as <-.
  now eexists.
Qed.

(** X2. Adding a record to a store of fewer than 100 objects, none with the
    record's id (a string), and then deleting that id gives back the
    records the store held. *)
Theorem add_then_delete (w : Browser) (response record : value) (s : string)
    (items : list value) :
  stored w = Some items ->
  Forall isObject items ->
  List.length items < 100 ->
  History.recordOf (Some response) = Normal record ->
  idOf record = Some (VStr s) ->
  ~ In (Some (VStr s)) (map idOf items) ->
  stored (fst (History.deleteHistoryEntry (Some (VStr s))
                 (fst (History.saveToHistory response w))))
    = Some (map JS.jsonRoundTrip items).
Proof.
  intros Hst Hobj Hlen Hrec Hid Hnew.
  set (w1 := fst (History.saveToHistory response w)).
  assert (H1 : stored w1 = Some (map JS.jsonRoundTrip (record :: items))).
  { unfold w1. rewrite (stored_written w _ _ (saveToHistory_storage response w)).
    rewrite (stored_slot_value w items Hst). cbn [rbind]. unfold saved.
    rewrite Hrec. cbn [rbind JS.as_array].
    destruct (Nat.ltb_spec 100 (List.length (record :: items))) as [Hgt | _];
      [simpl in Hgt; lia | reflexivity]. }
  rewrite (deleteHistoryEntry_stored w1 (Some (VStr s)) _ H1).
  2: { apply isObject_not_null. rewrite Forall_map.
       eapply Forall_impl; [intro; apply isObject_roundTrip |].
       constructor; [exact (recordOf_isObject _ _ Hrec) | exact Hobj]. }
  f_equal. cbn [map filter]. unfold otherThan at 1.
  rewrite (proj2 (strictEquals_string _ s) (proj2 (idOf_roundTrip_string record s) Hid)).
  cbn [negb]. rewrite forallb_filter_id.
  - rewrite map_map. apply map_ext. intro e. apply jsonRoundTrip_twice.
  - apply forallb_forall. intros e He. apply in_map_iff in He as (x & <- & Hx).
    unfold otherThan. apply negb_true_iff.
    destruct (JS.strictEquals (idOf (JS.jsonRoundTrip x)) (Some (VStr s))) eqn:E;
      [| reflexivity].
    apply (proj1 (strictEquals_string _ s)) in E.
    apply (proj1 (idOf_roundTrip_string x s)) in E.
    exfalso. apply Hnew. rewrite <- E. now apply in_map.
Qed.

(** ** Clearing, and replaying what is not there *)

(** X3. clearHistory, once confirmed, removes the slot whatever it held
    (text that cannot be parsed included) and shows the empty state;
    it never raises and changes nothing else; the store then reads as
    empty. Unconfirmed, it changes nothing. *)
Theorem clearHistory_empties (w : Browser) :
  History.clearHistory false w = (w, Normal tt) /\
  History.clearHistory true w
    = (set_historyList EmptyState (set_historySlot None w), Normal tt) /\
  stored (fst (History.clearHistory true w)) = Some [] /\
  History.readHistory (fst (History.clearHistory true w))
    = (fst (History.clearHistory true w), Normal (VArr [])).
Proof. repeat split. Qed.

(** X4. loadHistoryEntry(index) with no entry at [index] (an index outside
    the list), or a falsy one, returns at once: the page is as it
    was. *)
Theorem loadHistoryEntry_without_entry (w : Browser) (items : list value)
    (index : nat) :
  stored w = Some items ->
  JS.truthy (nth_error items index) = false ->
  loadHistoryEntry index w = (w, Normal tt).
Proof.
  intros Hst Hf. unfold History.loadHistoryEntry.
  rewrite bind_readHistory, (stored_slot_value w items Hst).
  rewrite bind_eval. cbn [History.at_index]. rewrite Hf. reflexivity.
Qed.

(** ** What the operations leave alone *)

Lemma petalMarkers_keeps (circles : list value) :
  keeps beyondReplay (Map.petalMarkers circles).
Proof.
  induction circles as [| circle rest IH]; cbn [Map.petalMarkers];
    keeps; try exact IH.
Qed.

(** X5. Replaying an entry never touches the stored history, the unit
    system, the history list or the alerts, also when it raises half
    way. *)
Theorem loadHistoryEntry_keeps_history (index : nat) :
  keeps beyondReplay (loadHistoryEntry index).
Proof.
  unfold History.loadHistoryEntry, History.readHistory, Map.setMapCenter,
    Map.updateLocationDisplay, Map.updateRadiusCircle, Map.setView,
    Map.displayResults, Map.showResult, Map.switchTab.
  keeps; try apply petalMarkers_keeps.
Qed.

(** X6. Adding, deleting, clearing and merging change nothing of the page
    but the stored history and the history list; the bulk import also
    shows an alert. The selection, the controls, the map and the result
    panel stay as they are, however the operation ends. *)
Theorem history_operations_keep_the_page (response : value) (id : option value)
    (confirmed : bool) (answer : fetched) (file : option text) :
  keeps (fun w => (beyondHistory w, alerts w)) (History.saveToHistory response) /\
  keeps (fun w => (beyondHistory w, alerts w)) (History.deleteHistoryEntry id) /\
  keeps (fun w => (beyondHistory w, alerts w)) (History.clearHistory confirmed) /\
  keeps (fun w => (beyondHistory w, alerts w)) (syncHistoryFromServer answer) /\
  keeps beyondHistory (importHistory file).
Proof.
  unfold History.saveToHistory, History.deleteHistoryEntry, History.clearHistory,
    History.syncHistoryFromServer, History.importHistory, History.writeHistory,
    History.updateHistoryDisplay, History.readHistory.
  repeat split; cbv zeta; keeps.
Qed.

(** ** Exceptions of the merge and of the bulk import *)

Lemma try_catch_completes (body : M unit) (handler : error -> M unit)
    (w : Browser) :
  (forall e w', snd (handler e w') = Normal tt) ->
  snd (try_catch body handler w) = Normal tt.
Proof.
  intros H. unfold try_catch. destruct (body w) as [w' [[] | e]]; [reflexivity |].
  apply H.
Qed.

(** X7. The merge and the bulk import catch every exception: whatever the
    server answers, the file holds and the storage holds, the call
    completes normally. *)
Theorem merge_and_import_never_raise (answer : fetched) (file : option text)
    (w : Browser) :
  snd (syncHistoryFromServer answer w) = Normal tt /\
  snd (importHistory file w) = Normal tt.
Proof.
  split.
  - apply try_catch_completes. reflexivity.
  - destruct file as [fileText |]; [| reflexivity].
    apply try_catch_completes. reflexivity.
Qed.

(** X8. On a history slot whose text is not valid JSON, the merge gives up
    without a trace and the bulk import with 'Import failed': neither
    repairs or overwrites the slot, whatever the server or the file
    offers. *)
Theorem unreadable_history_is_not_overwritten (w : Browser) (answer : fetched)
    (file : text) :
  historySlot w = Some Malformed ->
  syncHistoryFromServer answer w = (w, Normal tt) /\
  exists e,
    importHistory (Some file) w = (push_alert (ImportFailed e) w, Normal tt).
Proof.
  intros Hslot.
  assert (Hv : slot_value (historySlot w) = Throw SyntaxError).
  { rewrite Hslot. reflexivity. }
  split.
  - unfold History.syncHistoryFromServer.
    destruct answer as [| [|] body]; try reflexivity. cbn [negb].
    rewrite try_catch_bind_eval. destruct body as [| | data]; try reflexivity.
    cbn [JS.JSON_parse]. rewrite try_catch_bind_readHistory, Hv. reflexivity.
  - unfold History.importHistory. rewrite try_catch_bind_eval.
    destruct file as [| | parsed]; cbn [JS.JSON_parse];
      try (exists SyntaxError; reflexivity).
    destruct parsed; cbn [JS.isArray negb];
      try (exists (Error "Invalid format: expected array"); reflexivity).
    rewrite try_catch_bind_eval. cbn [JS.as_array].
    rewrite try_catch_bind_readHistory, Hv. exists SyntaxError. reflexivity.
Qed.

(** ** The order after a merge or a bulk import *)

Lemma syncHistoryFromServer_stored (w : Browser) (data : value)
    (entries items pushed sorted : list value) :
  stored w = Some items ->
  Forall (fun e => e <> VNull) items ->
  JS.get (Some data) "entries" = Normal (Some (VArr entries)) ->
  History.newFromServer (map idOf items) entries = Normal pushed ->
  sort (items ++ pushed) = Normal sorted ->
  stored (fst (syncHistoryFromServer (Response true (Json data)) w))
    = Some (map JS.jsonRoundTrip (firstn 100 sorted)).
Proof.
  intros Hst Hnn Hent Hpushed Hsort.
  rewrite (stored_written w _ _ (syncHistoryFromServer_storage _ w)).
  cbn [JS.JSON_parse rbind]. rewrite (stored_slot_value w items Hst). cbn [rbind].
  unfold Store.merged. cbn [JS.as_array rbind].
  rewrite (ids_of_total items Hnn). cbn [rbind].
  rewrite Hent. cbn [rbind JS.as_array]. rewrite Hpushed. cbn [rbind].
  rewrite Hsort. reflexivity.
Qed.

Lemma importHistory_stored (w : Browser) (payload items sorted : list value) :
  stored w = Some items ->
  Forall (fun e => e <> VNull) items ->
  Forall (fun e => e <> VNull) payload ->
  sort (items ++ filter (accepted (map idOf items)) payload) = Normal sorted ->
  stored (fst (importHistory (Some (Json (VArr payload))) w))
    = Some (map JS.jsonRoundTrip (firstn 100 sorted)).
Proof.
  intros Hst Hnn Hpay Hsort.
  rewrite (stored_written w _ _ (importHistory_storage _ w)).
  cbn [JS.JSON_parse JS.as_array rbind].
  rewrite (stored_slot_value w items Hst). cbn [rbind].
  unfold Store.imported. cbn [JS.as_array rbind].
  rewrite (ids_of_total items Hnn). cbn [rbind].
  rewrite (newFromFile_filter _ payload Hpay). cbn [rbind].
  rewrite Hsort. reflexivity.
Qed.

(** The store after writing the first hundred of a sorted list of
    well-formed records. *)
Lemma first_hundred_sorted (items pushed sorted : list value) :
  Forall wellFormed items -> Forall wellFormed pushed ->
  newestFirst sorted -> Permutation sorted (items ++ pushed) ->
  let kept := map JS.jsonRoundTrip (firstn 100 sorted) in
  newestFirst kept /\
  List.length kept = Nat.min 100 (List.length items + List.length pushed) /\
  forall e, In e kept -> In e (map JS.jsonRoundTrip (items ++ pushed)).
Proof.
  intros Hwi Hwp Hsorted Hperm kept.
  assert (Hwk : Forall wellFormed (firstn 100 sorted)).
  { apply Forall_firstn.
    apply (Permutation_Forall (Permutation_sym Hperm)). apply Forall_app. now split. }
  split; [| split].
  - apply newestFirst_roundTrip; [| now apply StronglySorted_firstn].
    eapply Forall_impl; [| exact Hwk]. now intros e [_ He].
  - unfold kept. rewrite length_map, length_firstn, (Permutation_length Hperm).
    now rewrite length_app.
  - intros e He. apply in_map_iff in He as (x & <- & Hx). apply in_map.
    apply (Permutation_in x Hperm).
    rewrite <- (firstn_skipn 100 sorted). apply in_or_app. now left.
Qed.

(** X9. A merge puts the store in order, whatever order the adds had left
    it in: when the stored records and the records built of the
    server's new entries are well-formed, the merge writes a list that
    is newest first, made of stored and new records only, and of
    min(100, stored + new) records. *)
Theorem syncHistoryFromServer_sorts (w : Browser) (data : value)
    (entries items pushed : list value) :
  stored w = Some items ->
  Forall wellFormed items ->
  JS.get (Some data) "entries" = Normal (Some (VArr entries)) ->
  History.newFromServer (map idOf items) entries = Normal pushed ->
  Forall wellFormed pushed ->
  exists kept,
    stored (fst (syncHistoryFromServer (Response true (Json data)) w)) = Some kept /\
    newestFirst kept /\
    List.length kept = Nat.min 100 (List.length items + List.length pushed) /\
    forall e, In e kept -> In e (map JS.jsonRoundTrip (items ++ pushed)).
Proof.
  intros Hst Hwi Hent Hpushed Hwp.
  destruct (sort_newestFirst (items ++ pushed)) as (sorted & Hs & Hn & Hperm).
  { apply Forall_app. split; (eapply Forall_impl; [exact wellFormed_timed |]);
      assumption. }
  exists (map JS.jsonRoundTrip (firstn 100 sorted)). split.
  - exact (syncHistoryFromServer_stored w data entries items pushed sorted Hst
             (wellFormed_not_null items Hwi) Hent Hpushed Hs).
  - exact (first_hundred_sorted items pushed sorted Hwi Hwp Hn Hperm).
Qed.

(** X10. A bulk import puts the store in order as a merge does: with
    well-formed records in the store and in the file, it writes a list
    that is newest first, made of the stored records and of the
    records of the file whose id is truthy and not stored, and of
    min(100, stored + accepted) records. *)
Theorem importHistory_sorts (w : Browser) (payload items : list value) :
  stored w = Some items ->
  Forall wellFormed items ->
  Forall wellFormed payload ->
  let pushed := filter (accepted (map idOf items)) payload in
  exists kept,
    stored (fst (importHistory (Some (Json (VArr payload))) w)) = Some kept /\
    newestFirst kept /\
    List.length kept = Nat.min 100 (List.length items + List.length pushed) /\
    forall e, In e kept -> In e (map JS.jsonRoundTrip (items ++ pushed)).
Proof.
  intros Hst Hwi Hwf pushed.
  assert (Hwp : Forall wellFormed pushed).
  { rewrite Forall_forall in *. intros e He. apply filter_In in He as [He _].
    now apply Hwf. }
  destruct (sort_newestFirst (items ++ pushed)) as (sorted & Hs & Hn & Hperm).
  { apply Forall_app. split; (eapply Forall_impl; [exact wellFormed_timed |]);
      assumption. }
  exists (map JS.jsonRoundTrip (firstn 100 sorted)). split.
  - exact (importHistory_stored w payload items sorted Hst
             (wellFormed_not_null items Hwi) (wellFormed_not_null payload Hwf) Hs).
  - exact (first_hundred_sorted items pushed sorted Hwi Hwp Hn Hperm).
Qed.

(** ** Stored records come first *)

Lemma newFromServer_nothing (items entries : list value) :
  Forall (alreadyStored items) entries ->
  History.newFromServer (map idOf items) entries = Normal [].
Proof.
  induction 1 as [| entry rest (s & Hs & Hin) _ IH]; [reflexivity |].
  cbn [History.newFromServer]. unfold servedId in Hs.
  destruct (JS.get (Some entry) "response") as [response | e]; [| discriminate].
  cbn [rbind].
  destruct (JS.get response "id") as [id | e]; [| discriminate].
  cbn [rbind]. subst id. rewrite (has_string _ _ Hin). exact IH.
Qed.

(** X11. The stored record wins over the server's: when every entry of
    the server's list carries an id (a string) that the store holds,
    the merge takes none of them, whatever else they contain; a store
    of at most 100 well-formed records, newest first, is written back
    as it is. *)
Theorem merge_of_stored_ids_adds_nothing (w : Browser) (data : value)
    (entries items : list value) :
  stored w = Some items ->
  Forall wellFormed items -> newestFirst items -> List.length items <= 100 ->
  JS.get (Some data) "entries" = Normal (Some (VArr entries)) ->
  Forall (alreadyStored items) entries ->
  stored (fst (syncHistoryFromServer (Response true (Json data)) w))
    = Some (map JS.jsonRoundTrip items).
Proof.
  intros Hst Hwi Hsorted Hlen Hent Hall.
  rewrite (syncHistoryFromServer_stored w data entries items [] items Hst
             (wellFormed_not_null items Hwi) Hent (newFromServer_nothing _ _ Hall)).
  - now rewrite firstn_all2.
  - rewrite <- (app_nil_r items) at 2.
    apply sort_sorted_prefix; [exact Hsorted | intros p q _ [] | reflexivity].
Qed.

(** ** The history list and the positions in the store *)




(** ** Exports *)

(** X13. Neither export changes the page, and neither downloads anything
    from an empty store (no slot, an empty slot or an empty array):
    they show 'No history to export'. *)
Theorem exports_refuse_an_empty_store (w : Browser) :
  fst (Exports.exportHistory w) = w /\
  fst (Exports.exportHistoryGpx w) = w /\
  (stored w = Some [] ->
   snd (Exports.exportHistory w) = Normal NothingToExport /\
   snd (Exports.exportHistoryGpx w) = Normal NothingToExport).
Proof.
  unfold Exports.exportHistory, Exports.exportHistoryGpx.
  rewrite !bind_readHistory. unfold stored.
  destruct (slot_value (historySlot w)) as [history | e].
  2: { repeat split; discriminate. }
  rewrite !bind_eval.
  destruct history as [| b | n | s | items | props]; cbn [JS.get].
  1-4, 6: repeat split; try discriminate;
    repeat match goal with
           | |- context [if ?b then _ else _] => destruct b; cbn
           end; reflexivity.
  cbn [String.eqb Ascii.eqb Bool.eqb].
  split; [| split].
  - match goal with
    | |- context [if ?b then _ else _] => destruct b; reflexivity
    end.
  - match goal with
    | |- context [if ?b then _ else _] => destruct b; [reflexivity |]
    end.
    rewrite bind_eval. cbn [JS.as_array]. rewrite bind_eval.
    destruct (Exports.gpxWaypoints items); reflexivity.
  - intros [= ->]. split; reflexivity.
Qed.

Lemma accepted_all (payload : list value) :
  Forall (fun e => JS.truthy (idOf e) = true) payload ->
  filter (accepted []) payload = payload.
Proof.
  intros H. apply forallb_filter_id. apply forallb_forall.
  rewrite Forall_forall in H. intros e He.
  unfold accepted. rewrite (H e He). reflexivity.
Qed.

Lemma accepted_none (items payload : list value) :
  Forall (fun e => exists s, idOf e = Some (VStr s) /\
                             In (Some (VStr s)) (map idOf items)) payload ->
  filter (accepted (map idOf items)) payload = [].
Proof.
  intros H. apply filter_none. rewrite Forall_forall in H.
  intros e He. destruct (H e He) as (s & Hs & Hin).
  unfold accepted. rewrite Hs, (has_string _ _ Hin). apply andb_false_r.
Qed.

(** The length of a list of 1 to 100 elements, as a number, is not 0. *)
Lemma count_is_not_zero (n : nat) :
  n < 100 -> PrimFloat.eqb (Num.of_Z (Z.of_nat (S n))) 0 = false.
Proof.
  intros H. do 100 (destruct n as [| n]; [vm_compute; reflexivity |]). lia.
Qed.

Lemma sort_sorted (l : list value) : newestFirst l -> sort l = Normal l.
Proof.
  intros H. rewrite <- (app_nil_r l).
  apply sort_sorted_prefix; [exact H | intros p q _ [] | reflexivity].
Qed.

(** X14. Export and import are inverse on a store of at most 100 importable
    records, newest first: the exported file, imported after the
    history was cleared, restores the records and their order; and
    imported into the store it was made from, it changes nothing. *)
Theorem export_then_import_restores (w : Browser) (items : list value) :
  stored w = Some items -> items <> [] ->
  Forall importable items -> newestFirst items -> List.length items <= 100 ->
  exists file,
    Exports.exportHistory w = (w, Normal (Download file)) /\
    stored (fst (importHistory (Some file) (fst (History.clearHistory true w))))
      = Some (map JS.jsonRoundTrip items) /\
    stored (fst (importHistory (Some file) w)) = Some (map JS.jsonRoundTrip items).
Proof.
  intros Hst Hne Himp Hsorted Hlen.
  assert (Hwf : Forall wellFormed items).
  { eapply Forall_impl; [| exact Himp]. now intros e [He _]. }
  assert (Hwf' : Forall wellFormed (map JS.jsonRoundTrip items)).
  { rewrite Forall_map. eapply Forall_impl; [| exact Hwf].
    exact wellFormed_roundTrip. }
  assert (Hsorted' : newestFirst (map JS.jsonRoundTrip items)).
  { apply newestFirst_roundTrip; [| exact Hsorted].
    eapply Forall_impl; [| exact Hwf]. now intros e [_ He]. }
  assert (Hlen' : List.length (map JS.jsonRoundTrip items) <= 100)
    by now rewrite length_map.
  assert (Htwice : map JS.jsonRoundTrip (map JS.jsonRoundTrip items)
                   = map JS.jsonRoundTrip items).
  { rewrite map_map. apply map_ext. intro e. apply jsonRoundTrip_twice. }
  exists (Json (VArr (map JS.jsonRoundTrip items))). split; [| split].
  - unfold Exports.exportHistory.
    rewrite bind_readHistory, (stored_slot_value w items Hst), bind_eval.
    destruct items as [| a rest]; [contradiction |].
    cbn [JS.get String.eqb Ascii.eqb Bool.eqb].
    match goal with
    | |- context [if ?b then _ else _] => destruct b eqn:Hz
    end; [| reflexivity].
    cbn [JS.strictEquals List.length] in Hz.
    rewrite count_is_not_zero in Hz; [discriminate | simpl in Hlen; lia].
  - rewrite (importHistory_stored _ (map JS.jsonRoundTrip items) []
               (map JS.jsonRoundTrip items)).
    + now rewrite firstn_all2, Htwice.
    + reflexivity.
    + constructor.
    + exact (wellFormed_not_null _ Hwf').
    + cbn [map app]. rewrite accepted_all; [now apply sort_sorted |].
      rewrite Forall_map. eapply Forall_impl; [| exact Himp].
      intros e [[Hid _] Ht]. now rewrite (idOf_roundTrip e Hid).
  - rewrite (importHistory_stored w (map JS.jsonRoundTrip items) items items Hst).
    + now rewrite firstn_all2.
    + exact (wellFormed_not_null _ Hwf).
    + exact (wellFormed_not_null _ Hwf').
    + rewrite accepted_none, app_nil_r; [now apply sort_sorted |].
      rewrite Forall_map. rewrite Forall_forall in *. intros e He.
      destruct (Hwf e He) as [[s Hs] _]. exists s.
      rewrite (idOf_roundTrip e); [| now exists s].
      split; [exact Hs |]. rewrite <- Hs. now apply in_map.
Qed.

Lemma gpxWaypoint_coordinates (entry : value) (p : Waypoint) :
  coordsUnderCoords entry ->
  Exports.gpxWaypoint entry = Normal (Some p) ->
  wpt_lat p = None /\ wpt_lon p = None.
Proof.
  intros Hshape. unfold Exports.gpxWaypoint.
  destruct (Exports.firstWinner entry) as [winner | e] eqn:Hw; [| discriminate].
  cbn [rbind]. destruct (negb (JS.truthy winner)); [discriminate |].
  destruct (JS.get winner "result") as [result | e] eqn:Hr; [| discriminate].
  cbn [rbind]. intros H. invert_chain H. injection H as <-. cbn [wpt_lat wpt_lon].
  destruct result as [[| b | n | s | l | props] |]; try discriminate;
    try (simpl in *; split; congruence).
  destruct (Hshape winner props Hw Hr) as [Hlat Hlng].
  simpl in *. split; congruence.
Qed.

Lemma gpxWaypoints_coordinates (entries : list value) (wpts : list Waypoint) :
  Forall coordsUnderCoords entries ->
  Exports.gpxWaypoints entries = Normal wpts ->
  Forall (fun p => wpt_lat p = None /\ wpt_lon p = None) wpts.
Proof.
  intros Hall. revert wpts.
  induction Hall as [| entry rest He _ IH]; intros wpts H;
    cbn [Exports.gpxWaypoints] in H.
  - injection H as <-. constructor.
  - destruct (Exports.gpxWaypoint entry) as [p | e] eqn:Hp; [| discriminate].
    cbn [rbind] in H.
    destruct (Exports.gpxWaypoints rest) as [ps | e]; [| discriminate].
    cbn [rbind] in H. injection H as <-.
    destruct p as [p |]; [| now apply IH].
    constructor; [exact (gpxWaypoint_coordinates entry p He Hp) | now apply IH].
Qed.

(** X15. The GPX export reads the coordinates of a waypoint from
    [result.lat] and [result.lng], where the rest of the client reads
    [result.coords.lat] and [result.coords.lng]: for entries whose
    result has its coordinates under [coords] only, every waypoint of
    the file is written without latitude and longitude
    ('undefined'). *)
Theorem gpx_waypoints_have_no_coordinates (w : Browser) (items : list value)
    (wpts : list Waypoint) :
  stored w = Some items ->
  Forall coordsUnderCoords items ->
  snd (Exports.exportHistoryGpx w) = Normal (Download wpts) ->
  Forall (fun p => wpt_lat p = None /\ wpt_lon p = None) wpts.
Proof.
  intros Hst Hall. unfold Exports.exportHistoryGpx.
  rewrite bind_readHistory, (stored_slot_value w items Hst), bind_eval.
  cbn [JS.get String.eqb Ascii.eqb Bool.eqb].
  match goal with
  | |- context [if ?b then _ else _] => destruct b; [discriminate |]
  end.
  rewrite bind_eval. cbn [JS.as_array]. rewrite bind_eval.
  destruct (Exports.gpxWaypoints items) as [ps | e] eqn:Hps; [| discriminate].
  intros [= <-]. exact (gpxWaypoints_coordinates items ps Hall Hps).
Qed.

(** ** Records that cannot be kept or drawn *)

(** X16. saveToHistory reads the timestamp of the record from
    [result.metadata]: on a response whose metadata is missing or
    null it raises TypeError before anything is written, and the page
    is as it was. *)
Theorem saveToHistory_needs_metadata (w : Browser) (response : value)
    (items : list value) (id metadata : option value) :
  stored w = Some items ->
  JS.get (Some response) "id" = Normal id ->
  JS.get (Some response) "metadata" = Normal metadata ->
  metadata = None \/ metadata = Some VNull ->
  History.saveToHistory response w = (w, Throw TypeError).
Proof.
  intros Hst Hid Hmeta Hmissing. unfold History.saveToHistory.
  rewrite bind_readHistory, (stored_slot_value w items Hst), bind_eval.
  unfold History.recordOf. rewrite Hid, Hmeta. cbn [rbind].
  destruct Hmissing as [-> | ->]; reflexivity.
Qed.

Lemma renderEntries_raises (entries : list value) (start : nat) (e : value) :
  In e entries -> unrenderable e ->
  exists err, History.renderEntries start entries = Throw err.
Proof.
  intros Hin Hbad. revert start.
  induction entries as [| a rest IH]; [contradiction |]. intros start.
  cbn [History.renderEntries]. destruct Hin as [-> | Hin].
  - destruct (Hbad start) as [err ->]. now exists err.
  - destruct (History.renderEntry start a) as [item | err]; [| now exists err].
    cbn [rbind]. destruct (IH Hin (S start)) as [err ->]. now exists err.
Qed.

(** X17. One record that cannot be drawn keeps the whole history list from
    being redrawn: updateHistoryDisplay raises on a store (of at most
    100 entries) that holds such a record, and leaves the list as it
    was, whatever the other records are. *)
Theorem one_bad_record_blocks_the_list (w : Browser) (items : list value)
    (e : value) :
  stored w = Some items -> List.length items <= 100 ->
  In e items -> unrenderable e ->
  exists err, History.updateHistoryDisplay w = (w, Throw err).
Proof.
  intros Hst Hlen Hin Hbad. unfold History.updateHistoryDisplay.
  rewrite bind_readHistory, (stored_slot_value w items Hst), bind_eval.
  destruct items as [| a rest]; [contradiction |].
  cbn [JS.get String.eqb Ascii.eqb Bool.eqb JS.strictEquals List.length].
  rewrite count_is_not_zero by (simpl in Hlen; lia).
  rewrite bind_eval. cbn [JS.as_array]. rewrite bind_eval.
  destruct (renderEntries_raises (a :: rest) 0 e Hin Hbad) as [err ->].
  now exists err.
Qed.

(** ** What a completed add has stored *)

Lemma saveToHistory_completes (response : value) (w w' : Browser)
    (x : option value) :
  History.saveToHistory response w = (w', Normal x) ->
  exists record items kept,
    History.recordOf (Some response) = Normal record /\
    stored w = Some items /\
    stored w' = Some (JS.jsonRoundTrip record :: kept).
Proof.
  intros H.
  assert (Hw' : w' = fst (History.saveToHistory response w)) by now rewrite H.
  pose proof (saveToHistory_storage response w) as Hslot. rewrite <- Hw' in Hslot.
  unfold History.saveToHistory in H. rewrite bind_readHistory in H.
  destruct (slot_value (historySlot w)) as [history | e] eqn:Hv; [| discriminate].
  rewrite bind_eval in H.
  destruct (History.recordOf (Some response)) as [record | e] eqn:Hrec;
    [| discriminate].
  rewrite bind_eval in H.
  destruct history as [| | | | items |]; try discriminate. clear H.
  assert (Hst : stored w = Some items) by (unfold stored; now rewrite Hv).
  rewrite (stored_written w w' _ Hslot). cbn [rbind]. unfold saved.
  rewrite Hrec. cbn [rbind JS.as_array].
  exists record, items.
  destruct (100 <? List.length (record :: items))%nat eqn:Hfull.
  - destruct items as [| a rest]; [discriminate |].
    exists (map JS.jsonRoundTrip (removelast (a :: rest))).
    split; [reflexivity |]. split; [exact Hst | reflexivity].
  - exists (map JS.jsonRoundTrip items). now repeat split.
Qed.

End Platform.

End StoreFacts.

(* ================================================================== *)
(** * The map, the result panel and the generation *)
(* ================================================================== *)

Module PageFacts.

Import Store Facts.

Section Platform.

Variable String_of : value -> string.
Variable parseFloat : string -> float.

Local Abbreviation handleGenerate := (Generate.handleGenerate String_of).
Local Abbreviation parseAndSetLocation := (Location.parseAndSetLocation parseFloat).

(** ** The centre and its circle *)

(** X18. setMapCenter with two numbers, neither of them NaN, selects them
    and moves the centre marker there. The radius circle is drawn
    around them, with the radius of the control in metres, only when
    neither number is 0: for a centre on the equator or on the prime
    meridian the circle stays where it was. *)
Theorem setMapCenter_draws_the_circle (la lo : float) (w : Browser) :
  PrimFloat.is_nan la = false ->
  PrimFloat.is_nan lo = false ->
  let run := Map.setMapCenter (Some (VNum la)) (Some (VNum lo)) w in
  snd run = Normal tt /\
  selectedLat (fst run) = Some (VNum la) /\
  selectedLng (fst run) = Some (VNum lo) /\
  centerMarker (fst run) = Some (la, lo) /\
  radiusCircle (fst run)
    = if Num.truthy la && Num.truthy lo
      then Some (la, lo, Units.getRadiusInMeters w)
      else radiusCircle w.
Proof.
  intros _ _.
  unfold Map.setMapCenter, Map.updateLocationDisplay, Map.updateRadiusCircle,
    bind, write, read, eval, ret. cbn.
  destruct (Num.truthy la), (Num.truthy lo); cbn; repeat split.
Qed.

(** ** Choosing a type *)

Lemma displayResults_without_winner (response : value) (type : string)
    (winners winner : option value) (w : Browser) :
  JS.get (Some response) "winners" = Normal winners ->
  JS.get winners type = Normal winner ->
  JS.truthy winner = false ->
  Map.displayResults response type w = (set_resultMarkers [] w, Normal tt).
Proof.
  intros Hw Hwin Hno. unfold Map.displayResults.
  rewrite bind_write, bind_eval, Hw, bind_eval, Hwin, Hno. reflexivity.
Qed.

Lemma showResult_without_winner (response : value) (type : string)
    (winners winner : option value) (w : Browser) :
  JS.get (Some response) "winners" = Normal winners ->
  JS.get winners type = Normal winner ->
  JS.truthy winner = false ->
  Map.showResult response type w = (set_resultPanel NoResultFound w, Normal tt).
Proof.
  intros Hw Hwin Hno. unfold Map.showResult.
  rewrite bind_eval, Hw, bind_eval, Hwin, Hno. reflexivity.
Qed.

(** X19. A click on a type button selects the type. Without a current
    result nothing else happens. With a current result that has no
    winner of that type, the type being one of the four of the client
    (Map.typeNames), the markers of the former display are removed and
    the panel says that there is no result; nothing is raised. *)
Theorem selectType_without_winner (type : string) (w : Browser) :
  (JS.truthy (currentResult w) = false ->
   Generate.selectType type w = (set_selectedType type w, Normal tt)) /\
  (forall response winners winner,
     In type Map.typeNames ->
     currentResult w = Some response ->
     JS.truthy (Some response) = true ->
     JS.get (Some response) "winners" = Normal winners ->
     JS.get winners type = Normal winner ->
     JS.truthy winner = false ->
     Generate.selectType type w
     = (set_resultPanel NoResultFound
          (set_resultMarkers [] (set_selectedType type w)), Normal tt)).
Proof.
  unfold Generate.selectType. rewrite bind_write, bind_read. split.
  - cbn [currentResult set_selectedType].
    destruct (currentResult w) as [response |]; [| reflexivity].
    now intros ->.
  - intros response winners winner _ Hcur Htruthy Hw Hwin Hno.
    cbn [currentResult set_selectedType]. rewrite Hcur, Htruthy.
    unfold bind.
    rewrite (displayResults_without_winner response type winners winner _ Hw Hwin Hno).
    exact (showResult_without_winner response type winners winner _ Hw Hwin Hno).
Qed.

(** ** Generating *)

(** X20. handleGenerate asks for a location first: when the selected
    latitude or longitude is null, or 0 (a point of the equator or of
    the prime meridian), it shows 'Please select a location', posts no
    request and leaves the page as it is. *)
Theorem handleGenerate_needs_a_location (backend : string) (answer : fetched)
    (w : Browser) :
  JS.truthy (selectedLat w) = false \/ JS.truthy (selectedLng w) = false ->
  handleGenerate backend answer w
  = (w, Normal (mkGenerated None (Some SelectLocationFirst))).
Proof.
  intros H. unfold Generate.handleGenerate. rewrite !bind_read.
  destruct H as [-> | ->]; [reflexivity |].
  now rewrite orb_true_r.
Qed.

(** X21. A generation that brings no result (the request failed, the server
    refused it, or its answer is not JSON) hides the result panel and
    shows an error alert; the history, the current result and the map
    are as they were. The request carried the radius in metres. *)
Theorem failed_generation_changes_nothing (backend : string) (answer : fetched)
    (w : Browser) :
  JS.truthy (selectedLat w) = true -> JS.truthy (selectedLng w) = true ->
  withoutResult answer ->
  exists e,
    handleGenerate backend answer w
    = (set_resultPanel Hidden w,
       Normal (mkGenerated (Some (JS.JSON_stringify (Generate.params backend w)))
                 (Some (GenerationError e)))).
Proof.
  intros Hlat Hlng Hfail. unfold Generate.handleGenerate.
  rewrite !bind_read, Hlat, Hlng. cbn [negb orb].
  rewrite bind_read. unfold Generate.hideResult. rewrite bind_write. cbv zeta.
  destruct answer as [| [|] [| | v]]; try contradiction;
    try (eexists; reflexivity).
  cbn [negb]. unfold try_catch. rewrite bind_eval. cbn [JS.JSON_parse].
  rewrite bind_eval.
  destruct (JS.get (Some v) "message") as [m | e]; eexists; reflexivity.
Qed.

Lemma bind_Normal {A B} (m : M A) (f : A -> M B) (w w' : Browser) (b : B) :
  bind m f w = (w', Normal b) ->
  exists a w1, m w = (w1, Normal a) /\ f a w1 = (w', Normal b).
Proof.
  unfold bind. destruct (m w) as [w1 [a | e]]; intros H; [eauto | discriminate].
Qed.

Lemma petalMarkers_keeps_part {X} (part : Browser -> X) (circles : list value) :
  (forall l w, part (set_resultMarkers l w) = part w) ->
  keeps part (Map.petalMarkers circles).
Proof.
  intros Hp. induction circles as [| circle rest IH]; cbn [Map.petalMarkers].
  - apply keeps_ret.
  - apply keeps_bind; [apply keeps_eval | intro id].
    apply keeps_bind; [| intro; exact IH].
    destruct (negb (JS.strictEquals id (Some (VStr "center"))));
      [| apply keeps_ret].
    repeat (apply keeps_bind; [first [apply keeps_eval | apply keeps_read] | intro]).
    apply keeps_write. intro. apply Hp.
Qed.

Lemma displayResults_keeps (response : value) (type : string) :
  keeps (fun w => (historySlot w, currentResult w)) (Map.displayResults response type).
Proof.
  unfold Map.displayResults. keeps.
  apply petalMarkers_keeps_part. reflexivity.
Qed.

Lemma showResult_keeps (response : value) (type : string) :
  keeps (fun w => (historySlot w, currentResult w)) (Map.showResult response type).
Proof. unfold Map.showResult. keeps. Qed.

Lemma saveToHistory_keeps_currentResult (response : value) :
  keeps currentResult (History.saveToHistory response).
Proof.
  unfold History.saveToHistory, History.writeHistory, History.updateHistoryDisplay,
    History.readHistory. cbv zeta. keeps.
Qed.

(** X22. When handleGenerate ends without an alert, the server's answer was
    a result, it is the current result, and the record built of it is
    the first of the stored history: what the page shows has been
    saved. The request carried the radius in metres. *)
Theorem generation_without_alert_is_saved (backend : string) (answer : fetched)
    (w w' : Browser) (out : generated) :
  handleGenerate backend answer w = (w', Normal out) ->
  alert_shown out = None ->
  exists result record kept,
    answer = Response true (Json result) /\
    request_sent out = Some (JS.JSON_stringify (Generate.params backend w)) /\
    currentResult w' = Some result /\
    History.recordOf (Some result) = Normal record /\
    stored w' = Some (JS.jsonRoundTrip record :: kept).
Proof.
  intros Hout Halert. unfold Generate.handleGenerate in Hout.
  rewrite !bind_read in Hout.
  destruct (negb (JS.truthy (selectedLat w)) || negb (JS.truthy (selectedLng w))).
  { injection Hout as _ <-. discriminate Halert. }
  rewrite bind_read in Hout. unfold Generate.hideResult in Hout.
  rewrite bind_write in Hout. cbv zeta in Hout. unfold try_catch in Hout.
  match type of Hout with
  | (match ?body with _ => _ end) = _ =>
      destruct body as [w2 [o | e]] eqn:Hbody
  end.
  2: { injection Hout as _ <-. discriminate Halert. }
  injection Hout as -> ->.
  destruct answer as [| [|] body]; [discriminate Hbody | |].
  2: { cbn [negb] in Hbody. rewrite bind_eval in Hbody.
       destruct (JS.JSON_parse body) as [error | e]; [| discriminate].
       rewrite bind_eval in Hbody.
       destruct (JS.get (Some error) "message"); discriminate. }
  cbn [negb] in Hbody. rewrite bind_eval in Hbody.
  destruct body as [| | result]; try discriminate. cbn [JS.JSON_parse] in Hbody.
  rewrite bind_write, bind_read in Hbody.
  apply bind_Normal in Hbody as ([] & w3 & Hdisplay & Hbody).
  rewrite bind_read in Hbody.
  apply bind_Normal in Hbody as ([] & w4 & Hshow & Hbody).
  apply bind_Normal in Hbody as (x & w5 & Hsave & Hret).
  injection Hret as <- <-.
  destruct (StoreFacts.saveToHistory_completes result w4 w5 x Hsave)
    as (record & items & kept & Hrec & _ & Hst).
  exists result, record, kept. repeat split; try assumption.
  pose proof (saveToHistory_keeps_currentResult result w4) as H5.
  rewrite Hsave in H5. cbn [fst] in H5. rewrite H5.
  pose proof (showResult_keeps result (selectedType w3) w3) as H4.
  rewrite Hshow in H4. cbn [fst] in H4. injection H4 as _ ->.
  pose proof (displayResults_keeps result
                (selectedType (set_currentResult (Some result) (set_resultPanel Hidden w)))
                (set_currentResult (Some result) (set_resultPanel Hidden w))) as H3.
  rewrite Hdisplay in H3. cbn [fst] in H3. injection H3 as _ ->.
  reflexivity.
Qed.

(** ** Typed coordinates *)

(** X23. parseAndSetLocation never selects a point outside the globe. It
    either sets the location, and then to a latitude between -90 and
    90 and a longitude between -180 and 180, with the centre marker
    on it and the map moved there at zoom 13; or it leaves the page
    as it is, silently for a blank text and with 'Could not parse
    coordinates' otherwise. *)
Theorem parseAndSetLocation_checks_the_range (text : string) (w : Browser) :
  let run := parseAndSetLocation text w in
  (snd run = Normal LocationSet /\
   exists lat lng,
     PrimFloat.leb (-90)%float lat = true /\ PrimFloat.leb lat 90%float = true /\
     PrimFloat.leb (-180)%float lng = true /\ PrimFloat.leb lng 180%float = true /\
     selectedLat (fst run) = Some (VNum lat) /\
     selectedLng (fst run) = Some (VNum lng) /\
     centerMarker (fst run) = Some (lat, lng) /\
     mapView (fst run) = (lat, lng, 13%Z)) \/
  (fst run = w /\
   (snd run = Normal NothingTyped \/ snd run = Normal CouldNotParse)).
Proof.
  unfold Location.parseAndSetLocation. cbv zeta.
  destruct (Location.isEmpty (list_ascii_of_string text)
            || Location.isEmpty (Location.trim (list_ascii_of_string text))).
  { right. split; [reflexivity | now left]. }
  destruct (Location.matchCoordinates (Location.trim (list_ascii_of_string text)))
    as [[first second] |].
  2: { right. split; [reflexivity | now right]. }
  set (lat := parseFloat (string_of_list_ascii first)).
  set (lng := parseFloat (string_of_list_ascii second)).
  destruct (Location.inRange lat lng) eqn:Hr.
  2: { right. split; [reflexivity | now right]. }
  left. unfold Location.inRange in Hr.
  repeat (apply andb_prop in Hr; destruct Hr as [Hr ?]).
  unfold Map.setMapCenter, Map.updateLocationDisplay, Map.updateRadiusCircle,
    Map.setView, bind, write, read, eval, ret. cbn.
  destruct (Num.truthy lat), (Num.truthy lng); cbn;
    (split; [reflexivity |]); exists lat, lng; repeat split; assumption.
Qed.

Lemma digit_is_no_separator (c : ascii) :
  Location.isDigit c = true -> Location.isSeparator c = false.
Proof.
  destruct c as [[] [] [] [] [] [] [] []]; vm_compute; intro H;
    first [reflexivity | discriminate H].
Qed.

Lemma no_separator_is_no_space (c : ascii) :
  negb (Location.isSeparator c) = true -> Location.isSpace c = false.
Proof.
  unfold Location.isSeparator.
  destruct (Ascii.eqb c ","), (Location.isSpace c); simpl; congruence.
Qed.

Lemma span_spec (p : ascii -> bool) (l taken left : list ascii) :
  Location.span p l = (taken, left) ->
  l = taken ++ left /\ forallb p taken = true.
Proof.
  revert taken left. induction l as [| c rest IH]; intros taken left H;
    cbn [Location.span] in H.
  - injection H as <- <-. now split.
  - destruct (p c) eqn:Hc.
    + destruct (Location.span p rest) as [t r]. injection H as <- <-.
      destruct (IH t r eq_refl) as [-> Ht]. split; [reflexivity |].
      cbn [forallb]. now rewrite Hc.
    + injection H as <- <-. now split.
Qed.

Lemma span_app (p : ascii -> bool) (a b : list ascii) :
  forallb p a = true ->
  match b with [] => True | c :: _ => p c = false end ->
  Location.span p (a ++ b) = (a, b).
Proof.
  intros Ha Hb. induction a as [| c a IH]; cbn [app Location.span].
  - destruct b as [| c b]; [reflexivity |]. cbn [Location.span]. now rewrite Hb.
  - cbn [forallb] in Ha. apply andb_prop in Ha as [Hc Ha].
    now rewrite Hc, (IH Ha).
Qed.

Lemma digits_are_no_separators (l : list ascii) :
  forallb Location.isDigit l = true ->
  forallb (fun c => negb (Location.isSeparator c)) l = true.
Proof.
  rewrite !forallb_forall. intros H c Hc.
  now rewrite (digit_is_no_separator c (H c Hc)).
Qed.

Lemma isUnsigned_chars (l : list ascii) :
  Location.isUnsigned l = true ->
  l <> [] /\ forallb (fun c => negb (Location.isSeparator c)) l = true.
Proof.
  unfold Location.isUnsigned.
  destruct (Location.span Location.isDigit l) as [digits rest] eqn:Hs.
  destruct (span_spec _ _ _ _ Hs) as [-> Hd]. intros H.
  apply andb_prop in H as [Hne Hrest]. split.
  - destruct digits; [discriminate Hne | discriminate].
  - rewrite forallb_app, (digits_are_no_separators digits Hd).
    destruct rest as [| c fraction]; [reflexivity |].
    apply andb_prop in Hrest as [Hdot Hf]. apply Ascii.eqb_eq in Hdot. subst c.
    cbn [forallb andb]. now rewrite (digits_are_no_separators fraction Hf).
Qed.

Lemma isNumberText_chars (l : list ascii) :
  Location.isNumberText l = true ->
  l <> [] /\ forallb (fun c => negb (Location.isSeparator c)) l = true.
Proof.
  destruct l as [| c rest]; [discriminate |]. cbn [Location.isNumberText].
  destruct (Ascii.eqb c "-") eqn:E; [| apply isUnsigned_chars].
  apply Ascii.eqb_eq in E. subst c. intros H.
  apply isUnsigned_chars in H as [_ H]. split; [discriminate |].
  cbn [forallb]. now rewrite H.
Qed.

Lemma trim_keeps (l : list ascii) (c d : ascii) (l' r' : list ascii) :
  l = c :: l' -> Location.isSpace c = false ->
  rev l = d :: r' -> Location.isSpace d = false ->
  Location.trim l = l.
Proof.
  intros Hl Hc Hr Hd. unfold Location.trim.
  rewrite Hl at 1. cbn [Location.dropWhile]. rewrite Hc, <- Hl, Hr.
  cbn [Location.dropWhile]. rewrite Hd, <- Hr. apply rev_involutive.
Qed.

(** X24. Two numerals (an optional minus sign, digits, and optionally a dot
    and more digits) with commas or white space between them are
    always understood: when the numbers read from them are a latitude
    and a longitude on the globe, parseAndSetLocation selects them and
    moves the map there. *)
Theorem parseAndSetLocation_accepts (first separators second : list ascii)
    (w : Browser) :
  Location.isNumberText first = true ->
  Location.isNumberText second = true ->
  separators <> [] ->
  forallb Location.isSeparator separators = true ->
  let lat := parseFloat (string_of_list_ascii first) in
  let lng := parseFloat (string_of_list_ascii second) in
  Location.inRange lat lng = true ->
  let run := parseAndSetLocation
               (string_of_list_ascii (first ++ separators ++ second)) w in
  snd run = Normal LocationSet /\
  selectedLat (fst run) = Some (VNum lat) /\
  selectedLng (fst run) = Some (VNum lng) /\
  mapView (fst run) = (lat, lng, 13%Z).
Proof.
  intros Hfirst Hsecond Hne Hseps lat lng Hrange.
  destruct (isNumberText_chars first Hfirst) as [Hf1 Hf2].
  destruct (isNumberText_chars second Hsecond) as [Hs1 Hs2].
  unfold Location.parseAndSetLocation. cbv zeta.
  rewrite list_ascii_of_string_of_list_ascii.
  destruct first as [| c first']; [contradiction |].
  assert (Hc : Location.isSpace c = false).
  { apply no_separator_is_no_space. cbn [forallb] in Hf2.
    now apply andb_prop in Hf2 as [Hf2 _]. }
  assert (Hrev : exists d r', rev ((c :: first') ++ separators ++ second) = d :: r'
                              /\ Location.isSpace d = false).
  { rewrite !rev_app_distr, <- app_assoc.
    destruct (rev second) as [| d r] eqn:Hr.
    - exfalso. apply Hs1. rewrite <- (rev_involutive second), Hr. reflexivity.
    - exists d, (r ++ rev separators ++ rev (c :: first')). split; [reflexivity |].
      apply no_separator_is_no_space. rewrite forallb_forall in Hs2. apply Hs2.
      apply in_rev. rewrite Hr. now left. }
  destruct Hrev as (d & r' & Hrev & Hd).
  rewrite (trim_keeps ((c :: first') ++ separators ++ second) c d
             (first' ++ separators ++ second) r' eq_refl Hc Hrev Hd).
  cbn [Location.isEmpty app orb].
  change (c :: first' ++ separators ++ second)
    with ((c :: first') ++ separators ++ second).
  unfold Location.matchCoordinates.
  destruct separators as [| s seps]; [contradiction |].
  cbn [forallb] in Hseps. apply andb_prop in Hseps as [Hs Hseps].
  rewrite (span_app (fun c => negb (Location.isSeparator c)) (c :: first')
             ((s :: seps) ++ second) Hf2) by (cbn; now rewrite Hs).
  rewrite (span_app Location.isSeparator (s :: seps) second).
  - cbn [Location.isEmpty negb andb]. rewrite Hfirst, Hsecond. cbn [andb].
    fold lat lng. rewrite Hrange.
    unfold Map.setMapCenter, Map.updateLocationDisplay, Map.updateRadiusCircle,
      Map.setView, bind, write, read, eval, ret. cbn.
    destruct (Num.truthy lat), (Num.truthy lng); cbn; repeat split.
  - cbn [forallb]. now rewrite Hs, Hseps.
  - destruct second as [| x second']; [contradiction |].
    cbn [forallb] in Hs2. apply andb_prop in Hs2 as [Hx _].
    now apply negb_true_iff in Hx.
Qed.

End Platform.

End PageFacts.

(* ================================================================== *)
(** * The store on sample data *)
(* ================================================================== *)

Module Scenarios.

Import Sample Store Pages StoreFacts.
Local Open Scope float_scope.

Local Abbreviation sync := (History.syncHistoryFromServer Sample.Date_time).
Local Abbreviation import := (History.importHistory Sample.Date_time).
Local Abbreviation time := (Store.time Sample.Date_time).

(** The scenario of the specification: add(A@10), add(B@20) lists
    [B, A]; merging [A, C@5] then lists [B, A, C]. *)
Example specification_scenario :
  stored page_BA = Some [record "B" 20; record "A" 10] /\
  stored (fst (sync answer_AC page_BA))
    = Some [record "B" 20; record "A" 10; record "C" 5].
Proof. vm_compute. split; reflexivity. Qed.

(** ** add *)

(** C2, as the code has it: add(A@10) on the store [B@20] puts A in
    front of B, so the list is no longer in non-increasing timestamp
    order (10 before 20), and the call returns undefined, not the
    size 2. *)
Lemma add_of_older_record_goes_first :
  let run := History.saveToHistory (generation "A" 10) page_B in
  stored (fst run) = Some [record "A" 10; record "B" 20] /\
  map time [record "A" 10; record "B" 20] = [Some 10%Z; Some 20%Z] /\
  snd run = Normal None.
Proof. vm_compute. repeat split; reflexivity. Qed.

Lemma saveToHistory_prepends_newer :
  stored page_B = Some [record "B" 20] /\
  History.recordOf (Some (generation "C" 30)) = Normal (record "C" 30) /\
  stored (fst (History.saveToHistory (generation "C" 30) page_B))
    = Some [record "C" 30; record "B" 20].
Proof.
  split; [reflexivity |]. split; [reflexivity |].
  exact (proj1 (saveToHistory_prepends Sample.Date_time page_B
                  (generation "C" 30) (record "C" 30) [record "B" 20]
                  eq_refl eq_refl)).
Defined.

(** ** Uniqueness *)

(** C3, as the code has it: add does not look for the id in the store,
    and a merge tests remote ids against the local ones only; adding
    A twice, or merging a list that names C twice, stores two records
    with one id. *)
Lemma same_id_is_stored_twice :
  option_map (map idOf)
    (stored (fst (History.saveToHistory (generation "A" 10)
                    (fst (History.saveToHistory (generation "A" 10) initial)))))
    = Some [Some (VStr "A"); Some (VStr "A")] /\
  option_map (map idOf)
    (stored (fst (sync (history_response [served "C" 5; served "C" 5]) initial)))
    = Some [Some (VStr "C"); Some (VStr "C")].
Proof. vm_compute. split; reflexivity. Qed.

Ltac fresh_sample :=
  let record := fresh "record" in
  let items := fresh "items" in
  let Hr := fresh "Hr" in
  let Hs := fresh "Hs" in
  intros record items Hr Hs;
  vm_compute in Hr; vm_compute in Hs;
  injection Hr as <-; injection Hs as <-;
  split; [eexists; reflexivity | simpl; intuition discriminate].

Lemma sample_run_is_distinct :
  distinctRun Sample.Date_time (fst (sync answer_AC page_BA)).
Proof.
  apply run_merge.
  - apply run_add; [apply run_add; [apply run_empty |] |]; fresh_sample.
  - split.
    + repeat constructor; eexists; reflexivity.
    + vm_compute. repeat constructor; simpl; intuition discriminate.
Defined.

Lemma ids_stay_distinct_on_sample :
  distinctRun Sample.Date_time (fst (sync answer_AC page_BA)) /\
  exists items,
    stored (fst (sync answer_AC page_BA)) = Some items /\
    Forall hasStringId items /\ NoDup (map idOf items).
Proof.
  split; [exact sample_run_is_distinct |].
  exact (ids_stay_distinct Sample.Date_time _ sample_run_is_distinct).
Defined.

(** ** Capacity *)

(** C4, as the code has it: 101 different records were offered, and
    the store keeps r0, the oldest of them all, with r100 down to r2,
    and has dropped r1: the retained set is not the hundred most
    recent. add evicts the record in last place, and r0 went in
    first. *)
Lemma oldest_record_is_retained :
  List.length (hundred_adds ++ [Add (generation "r0" 0)]) = 101%nat /\
  option_map (map idOf) (stored page_over)
    = Some (Some (VStr "r0")
              :: map (fun n => Some (VStr ("r" ++ string_of_nat n))) (rev (seq 2 99))) /\
  time (record "r0" 0) = Some 0%Z /\
  time (record "r1" 1) = Some 1%Z.
Proof. vm_compute. repeat split; reflexivity. Qed.

Lemma wellFormed_record (id : string) (t : Z) :
  JS.jsonRoundTrip (VNum (Num.of_Z t)) = VNum (Num.of_Z t) ->
  Sample.Date_time (VNum (Num.of_Z t)) = Some t ->
  wellFormed Sample.Date_time (record id t).
Proof.
  intros Hrt Ht. split.
  - exists id. reflexivity.
  - exists (VNum (Num.of_Z t)), t. repeat split; assumption.
Qed.

Lemma hundred_records_are_well_formed :
  Forall (wellFormed Sample.Date_time) hundred_records.
Proof.
  unfold hundred_records. cbv beta iota delta [map seq].
  repeat (apply Forall_cons; [apply wellFormed_record; reflexivity |]).
  apply Forall_nil.
Qed.

(** [a] is at least as recent as every entry of [l], by evaluation. *)
Lemma notOlder_checked (a : value) (l : list value) :
  forallb (fun s => match time a, time s with
                    | Some x, Some y => (y <=? x)%Z
                    | _, _ => false
                    end) l = true ->
  forall s, In s l -> notOlder Sample.Date_time a s.
Proof.
  intros H s Hs. rewrite forallb_forall in H. specialize (H s Hs).
  destruct (time a) as [x |] eqn:Ea; [| discriminate].
  destruct (time s) as [y |] eqn:Es; [| discriminate].
  exists x, y. repeat split; [assumption | assumption | now apply Z.leb_le].
Qed.

Lemma sample_insertions_are_orderly :
  orderly Sample.Date_time orderly_insertions orderly_offer.
Proof.
  assert (H1 : orderly Sample.Date_time [MergeImport answer_hundred] hundred_records).
  { apply (orderly_merge Sample.Date_time [] []
             (VObj [("entries",
                     VArr (map (fun n => served ("r" ++ string_of_nat n) (Z.of_nat n))
                             (seq 1 100)))])
             (map (fun n => served ("r" ++ string_of_nat n) (Z.of_nat n)) (seq 1 100))
             [] hundred_records).
    - apply orderly_nil.
    - reflexivity.
    - reflexivity.
    - vm_compute. reflexivity.
    - exact hundred_records_are_well_formed. }
  assert (H2 : orderly Sample.Date_time
                 [MergeImport answer_hundred; Add (generation "n" 150)]
                 (hundred_records ++ [record "n" 150])).
  { apply (orderly_add Sample.Date_time [MergeImport answer_hundred] hundred_records
             (generation "n" 150) (record "n" 150) H1).
    - reflexivity.
    - apply wellFormed_record; reflexivity.
    - intros items s Hst.
      assert (Hs : stored (after Sample.Date_time [MergeImport answer_hundred] initial)
                   = Some (rev hundred_records)) by (vm_compute; reflexivity).
      rewrite Hs in Hst. injection Hst as <-.
      apply notOlder_checked. vm_compute. reflexivity. }
  eapply (orderly_import Sample.Date_time
            [MergeImport answer_hundred; Add (generation "n" 150)]
            (hundred_records ++ [record "n" 150])
            [record "old" 0] _ [record "old" 0] H2).
  - vm_compute. reflexivity.
  - vm_compute. reflexivity.
  - apply Forall_cons; [apply wellFormed_record; reflexivity | apply Forall_nil].
Qed.

(** On these insertions, n@150 and r100 .. r2 are kept: r1 and old,
    the two oldest of the 102 records offered, are not. *)
Example most_recent_ids_on_sample :
  List.length orderly_offer = 102%nat /\
  option_map (map idOf) (stored (after Sample.Date_time orderly_insertions initial))
    = Some (Some (VStr "n")
              :: map (fun n => Some (VStr ("r" ++ string_of_nat n))) (rev (seq 2 99))).
Proof. vm_compute. split; reflexivity. Qed.

Lemma most_recent_kept_on_sample :
  orderly Sample.Date_time orderly_insertions orderly_offer /\
  exists items,
    stored (after Sample.Date_time orderly_insertions initial) = Some items /\
    List.length items <= 100 /\
    newestFirst Sample.Date_time items /\
    mostRecentOf Sample.Date_time orderly_offer items.
Proof.
  split; [exact sample_insertions_are_orderly |].
  destruct (store_keeps_most_recent_when_orderly Sample.Date_time orderly_insertions)
    as (items & Hst & Hlen & Hrun).
  exists items. split; [exact Hst |]. split; [exact Hlen |].
  exact (Hrun orderly_offer sample_insertions_are_orderly).
Defined.

(** ** Merging twice *)

Ltac sample_entry H :=
  repeat match type of H with
         | In _ (_ :: _) => destruct H as [<- | H]
         | In _ [] => destruct H
         end.

Lemma recordOf_served (id : string) (t : Z) (response : option value)
    (r : value) :
  JS.get (Some (served id t)) "response" = Normal response ->
  History.recordOf response = Normal r ->
  r = record id t.
Proof.
  intros Hresp Hrec. injection Hresp as <-.
  vm_compute in Hrec. now injection Hrec as <-.
Qed.

Lemma sample_store_is_well_formed (items : list value) :
  stored page_BA = Some items ->
  Forall (wellFormed Sample.Date_time) items /\
  sameRecordSameTime Sample.Date_time (served_by answer_AC) items.
Proof.
  intros H.
  assert (Hs : stored page_BA = Some [record "B" 20; record "A" 10])
    by (vm_compute; reflexivity).
  rewrite Hs in H. injection H as <-. split.
  - repeat (apply Forall_cons; [apply wellFormed_record; reflexivity |]).
    apply Forall_nil.
  - intros entry response r l Hin Hresp Hrec Hl Hid.
    change (served_by answer_AC) with [served "A" 10; served "C" 5] in Hin.
    sample_entry Hin;
      apply (recordOf_served _ _ _ _ Hresp) in Hrec; subst r;
      sample_entry Hl; vm_compute in Hid; try discriminate Hid; reflexivity.
Defined.

Lemma sample_answer_is_well_formed :
  remoteWellFormed Sample.Date_time (served_by answer_AC).
Proof.
  intros entry response r Hin Hresp Hrec.
  change (served_by answer_AC) with [served "A" 10; served "C" 5] in Hin.
  sample_entry Hin;
    apply (recordOf_served _ _ _ _ Hresp) in Hrec; subst r;
    apply wellFormed_record; reflexivity.
Defined.

Lemma merge_twice_on_sample :
  (forall items,
     stored page_BA = Some items ->
     Forall (wellFormed Sample.Date_time) items /\
     sameRecordSameTime Sample.Date_time (served_by answer_AC) items) /\
  remoteWellFormed Sample.Date_time (served_by answer_AC) /\
  historySlot (fst (sync answer_AC (fst (sync answer_AC page_BA))))
    = historySlot (fst (sync answer_AC page_BA)).
Proof.
  split; [exact sample_store_is_well_formed |].
  split; [exact sample_answer_is_well_formed |].
  exact (merge_twice_is_merge_once Sample.Date_time answer_AC page_BA
           sample_store_is_well_formed sample_answer_is_well_formed).
Defined.

(** Merging twice at capacity. The first merge keeps n1 and evicts r1
    and n2; the second offers r1 and n2 anew, and evicts them anew. *)
Example merge_twice_at_capacity :
  let once := fst (sync answer_at_capacity page_full) in
  option_map (map idOf) (stored once)
    = Some (Some (VStr "n1")
              :: map (fun n => Some (VStr ("r" ++ string_of_nat n))) (rev (seq 2 99))) /\
  historySlot (fst (sync answer_at_capacity once)) = historySlot once.
Proof. vm_compute. split; reflexivity. Qed.

(** Why an id must name one record: if the server's r1 carried another
    timestamp than the stored r1, the first merge would keep the
    stored r1 and evict it, and the second would take the server's. *)
Example merge_twice_with_a_reused_id :
  let answer := history_response [served "n1" 150; served "r1" 200] in
  let once := fst (sync answer page_full) in
  let twice := fst (sync answer once) in
  option_map (fun l => hd_error (map idOf l)) (stored once)
    = Some (Some (Some (VStr "n1"))) /\
  option_map (fun l => hd_error (map idOf l)) (stored twice)
    = Some (Some (Some (VStr "r1"))).
Proof. vm_compute. split; reflexivity. Qed.

(** ** Bulk import *)


(** A record without an id is the one kind that is skipped: nine are
    stored, and the message still counts ten. *)
Example record_without_id_is_skipped :
  option_map (@List.length value) (stored (import_of (no_id :: nine_valid)))
    = Some 9%nat /\
  alerts (import_of (no_id :: nine_valid)) = [Imported 10].
Proof. vm_compute. split; reflexivity. Qed.



Lemma import_of_non_array_on_sample :
  (forall items, Json (VObj [("entries", VArr nine_valid)]) <> Json (VArr items)) /\
  historySlot
    (fst (import (Some (Json (VObj [("entries", VArr nine_valid)]))) page_BA))
    = historySlot page_BA.
Proof.
  assert (H : forall items,
             Json (VObj [("entries", VArr nine_valid)]) <> Json (VArr items))
    by (intros items; discriminate).
  split; [exact H |].
  exact (proj1 (import_of_non_array_changes_nothing Sample.Date_time page_BA
                  (Json (VObj [("entries", VArr nine_valid)])) H)).
Defined.

(** ** Unreadable storage *)

(** C7, as the code has it: with an unreadable blob in the slot,
    redrawing the history list raises SyntaxError and leaves the page
    as it is, where on an empty store it shows the empty state, and
    add raises instead of storing its record; the blob is not taken
    for an empty store. (A blob that is JSON but no array, here an
    empty object, raises TypeError.) *)
Lemma unreadable_blob_is_not_an_empty_store :
  History.updateHistoryDisplay corrupt_page = (corrupt_page, Throw SyntaxError) /\
  History.updateHistoryDisplay initial
    = (set_historyList EmptyState initial, Normal tt) /\
  History.saveToHistory (generation "A" 10) corrupt_page
    = (corrupt_page, Throw SyntaxError) /\
  stored (fst (History.saveToHistory (generation "A" 10) initial))
    = Some [record "A" 10] /\
  snd (History.updateHistoryDisplay
         (set_historySlot (Some (Json (VObj []))) initial)) = Throw TypeError.
Proof. vm_compute. repeat split; reflexivity. Qed.

Lemma unreadable_history_on_sample :
  historySlot corrupt_page = Some Malformed /\
  History.updateHistoryDisplay corrupt_page = (corrupt_page, Throw SyntaxError) /\
  (historySlot initial = None \/ historySlot initial = Some EmptyText) /\
  History.readHistory initial = (initial, Normal (VArr [])).
Proof.
  split; [reflexivity |]. split.
  - exact (proj1 (proj2 (unreadable_history_raises Sample.parseFloat corrupt_page)
                    eq_refl)).
  - split; [now left |].
    exact (proj1 (proj1 (unreadable_history_raises Sample.parseFloat initial)
                    (or_introl eq_refl))).
Defined.

(** ** Deleting, replaying, redrawing *)

Lemma sample_BA_not_null :
  Forall (fun e => e <> VNull) [record "B" 20; record "A" 10].
Proof. repeat (apply Forall_cons; [discriminate |]). apply Forall_nil. Qed.

Lemma sample_BA_well_formed :
  Forall (wellFormed Sample.Date_time) [record "B" 20; record "A" 10].
Proof.
  repeat (apply Forall_cons; [apply wellFormed_record; reflexivity |]).
  apply Forall_nil.
Qed.

Lemma sample_AB_well_formed :
  Forall (wellFormed Sample.Date_time) [record "A" 10; record "B" 20].
Proof.
  repeat (apply Forall_cons; [apply wellFormed_record; reflexivity |]).
  apply Forall_nil.
Qed.

Lemma sample_BA_newest_first :
  newestFirst Sample.Date_time [record "B" 20; record "A" 10].
Proof.
  apply SSorted_cons.
  - apply SSorted_cons; [apply SSorted_nil | apply Forall_nil].
  - apply Forall_cons; [| apply Forall_nil].
    exists 20%Z, 10%Z. split; [reflexivity | split; [reflexivity | lia]].
Qed.

Lemma delete_on_sample :
  stored page_BA = Some [record "B" 20; record "A" 10] /\
  stored (fst (History.deleteHistoryEntry (Some (VStr "A")) page_BA))
    = Some [record "B" 20] /\
  forall kept,
    stored (fst (History.deleteHistoryEntry (Some (VStr "A")) page_BA)) = Some kept ->
    ~ In (Some (VStr "A")) (map idOf kept).
Proof.
  split; [reflexivity |].
  destruct (deleteHistoryEntry_removes_id page_BA (Some (VStr "A"))
              [record "B" 20; record "A" 10] eq_refl sample_BA_not_null)
    as [H1 H2].
  split; [exact H1 | exact (fun kept => H2 "A" kept eq_refl)].
Defined.

Lemma add_then_delete_on_sample :
  stored page_B = Some [record "B" 20] /\
  stored (fst (History.deleteHistoryEntry (Some (VStr "C"))
                 (fst (History.saveToHistory (generation "C" 30) page_B))))
    = Some [record "B" 20].
Proof.
  split; [reflexivity |].
  refine (add_then_delete page_B (generation "C" 30) (record "C" 30) "C"
            [record "B" 20] eq_refl _ _ eq_refl eq_refl _).
  - apply Forall_cons; [now eexists | apply Forall_nil].
  - simpl. lia.
  - simpl. intuition discriminate.
Defined.

Lemma replay_outside_the_list :
  stored page_B = Some [record "B" 20] /\
  History.loadHistoryEntry Sample.parseFloat 3 page_B = (page_B, Normal tt).
Proof.
  split; [reflexivity |].
  exact (loadHistoryEntry_without_entry Sample.parseFloat page_B [record "B" 20] 3
           eq_refl eq_refl).
Defined.

Lemma unreadable_history_on_merge_and_import :
  historySlot corrupt_page = Some Malformed /\
  sync answer_AC corrupt_page = (corrupt_page, Normal tt) /\
  exists e,
    import (Some (Json (VArr nine_valid))) corrupt_page
    = (push_alert (ImportFailed e) corrupt_page, Normal tt).
Proof.
  split; [reflexivity |].
  exact (unreadable_history_is_not_overwritten Sample.Date_time corrupt_page
           answer_AC (Json (VArr nine_valid)) eq_refl).
Defined.

(** ** Order after a merge or an import *)

Lemma merge_sorts_on_sample :
  stored page_AB = Some [record "A" 10; record "B" 20] /\
  exists kept,
    stored (fst (sync (Response true (Json data_CA)) page_AB)) = Some kept /\
    newestFirst Sample.Date_time kept /\
    List.length kept = 3%nat /\
    forall e, In e kept ->
      In e (map JS.jsonRoundTrip
              ([record "A" 10; record "B" 20] ++ [record "C" 5])).
Proof.
  split; [reflexivity |].
  refine (syncHistoryFromServer_sorts Sample.Date_time page_AB data_CA
            [served "C" 5; served "A" 10] [record "A" 10; record "B" 20]
            [record "C" 5] eq_refl sample_AB_well_formed eq_refl _ _).
  - vm_compute. reflexivity.
  - apply Forall_cons; [apply wellFormed_record; reflexivity | apply Forall_nil].
Defined.

Example merge_sorts_on_sample_ids :
  option_map (map idOf) (stored (fst (sync (Response true (Json data_CA)) page_AB)))
  = Some [Some (VStr "B"); Some (VStr "A"); Some (VStr "C")].
Proof. vm_compute. reflexivity. Qed.

Lemma import_sorts_on_sample :
  stored page_AB = Some [record "A" 10; record "B" 20] /\
  exists kept,
    stored (fst (import (Some (Json (VArr [record "C" 5; record "D" 30]))) page_AB))
      = Some kept /\
    newestFirst Sample.Date_time kept /\
    List.length kept = 4%nat /\
    forall e, In e kept ->
      In e (map JS.jsonRoundTrip
              ([record "A" 10; record "B" 20] ++ [record "C" 5; record "D" 30])).
Proof.
  split; [reflexivity |].
  refine (importHistory_sorts Sample.Date_time page_AB
            [record "C" 5; record "D" 30] [record "A" 10; record "B" 20]
            eq_refl sample_AB_well_formed _).
  repeat (apply Forall_cons; [apply wellFormed_record; reflexivity |]).
  apply Forall_nil.
Defined.

Lemma stored_record_wins_on_sample :
  stored page_BA = Some [record "B" 20; record "A" 10] /\
  stored (fst (sync (Response true (Json data_A_changed)) page_BA))
    = Some [record "B" 20; record "A" 10].
Proof.
  split; [reflexivity |].
  refine (merge_of_stored_ids_adds_nothing Sample.Date_time page_BA data_A_changed
            [served "A" 999] [record "B" 20; record "A" 10]
            eq_refl sample_BA_well_formed sample_BA_newest_first _ eq_refl _).
  - simpl. lia.
  - apply Forall_cons; [| apply Forall_nil].
    exists "A". split; [reflexivity | simpl; auto].
Defined.

(** ** The history list *)



Lemma add_without_metadata :
  stored page_B = Some [record "B" 20] /\
  History.saveToHistory no_metadata page_B = (page_B, Throw TypeError).
Proof.
  split; [reflexivity |].
  exact (saveToHistory_needs_metadata page_B no_metadata [record "B" 20]
           (Some (VStr "M")) None eq_refl eq_refl eq_refl (or_introl eq_refl)).
Defined.

Lemma bad_record_blocks_the_list_on_sample :
  stored page_with_bad_record = Some [record "B" 20; no_request] /\
  History.renderEntry 0 (record "B" 20)
    = Normal (Some (mkHistoryItem 0 (Some (VStr "B")) 40.72 (-74.01) false
                      (Some (VNum 3000)) (Some (VNum 20)))) /\
  exists err,
    History.updateHistoryDisplay page_with_bad_record
    = (page_with_bad_record, Throw err).
Proof.
  split; [reflexivity |]. split; [reflexivity |].
  refine (one_bad_record_blocks_the_list page_with_bad_record
            [record "B" 20; no_request] no_request eq_refl _ _ _).
  - simpl. lia.
  - simpl. auto.
  - intro index. eexists. reflexivity.
Defined.

(** ** Exports *)

Lemma export_of_nothing :
  stored initial = Some [] /\
  snd (Exports.exportHistory initial) = Normal NothingToExport /\
  snd (Exports.exportHistoryGpx initial) = Normal NothingToExport.
Proof.
  split; [reflexivity |].
  exact (proj2 (proj2 (exports_refuse_an_empty_store initial)) eq_refl).
Defined.

Lemma sample_BA_importable :
  Forall (importable Sample.Date_time) [record "B" 20; record "A" 10].
Proof.
  repeat (apply Forall_cons;
          [split; [apply wellFormed_record; reflexivity | reflexivity] |]).
  apply Forall_nil.
Qed.

Lemma export_then_import_on_sample :
  stored page_BA = Some [record "B" 20; record "A" 10] /\
  exists file,
    Exports.exportHistory page_BA = (page_BA, Normal (Download file)) /\
    stored (fst (import (Some file) (fst (History.clearHistory true page_BA))))
      = Some [record "B" 20; record "A" 10] /\
    stored (fst (import (Some file) page_BA)) = Some [record "B" 20; record "A" 10].
Proof.
  split; [reflexivity |].
  refine (export_then_import_restores Sample.Date_time page_BA
            [record "B" 20; record "A" 10] eq_refl _ sample_BA_importable
            sample_BA_newest_first _).
  - discriminate.
  - simpl. lia.
Defined.

Lemma sample_BA_coordinates :
  Forall coordsUnderCoords [record "B" 20; record "A" 10].
Proof.
  repeat (apply Forall_cons;
          [intros winner props Hw Hr; vm_compute in Hw; injection Hw as <-;
           vm_compute in Hr; injection Hr as <-; split; reflexivity |]).
  apply Forall_nil.
Qed.

(** The history list shows B at (40.72, -74.01); the GPX file has a
    waypoint for it, without coordinates. *)
Lemma gpx_on_sample :
  (exists item rest,
     historyList (fst (History.updateHistoryDisplay page_BA)) = Items (item :: rest) /\
     item_lat item = 40.72 /\ item_lng item = (-74.01)) /\
  exists wpts,
    snd (Exports.exportHistoryGpx page_BA) = Normal (Download wpts) /\
    List.length wpts = 2%nat /\
    Forall (fun p => wpt_lat p = None /\ wpt_lon p = None) wpts.
Proof.
  split.
  - do 2 eexists. split; [reflexivity |]. split; reflexivity.
  - eexists. split; [reflexivity |]. split; [reflexivity |].
    exact (gpx_waypoints_have_no_coordinates page_BA [record "B" 20; record "A" 10] _
             eq_refl sample_BA_coordinates eq_refl).
Defined.

(** ** Choosing a type, generating, typing coordinates *)

Lemma setMapCenter_on_sample :
  PrimFloat.is_nan 40.72 = false /\
  PrimFloat.is_nan (-74.01) = false /\
  centerMarker (fst (Map.setMapCenter (Some (VNum 40.72)) (Some (VNum (-74.01)))
                       initial))
    = Some (40.72, -74.01) /\
  radiusCircle (fst (Map.setMapCenter (Some (VNum 40.72)) (Some (VNum (-74.01)))
                       initial))
    = Some (40.72, -74.01, Units.getRadiusInMeters initial).
Proof.
  split; [reflexivity |]. split; [reflexivity |].
  destruct (PageFacts.setMapCenter_draws_the_circle 40.72 (-74.01) initial
              eq_refl eq_refl) as (_ & _ & _ & Hmarker & Hcircle).
  split; [exact Hmarker | exact Hcircle].
Defined.

Lemma type_without_winner_on_sample :
  In "void" Map.typeNames /\
  currentResult shown_page = Some (generation "A" 10) /\
  Generate.selectType "void" shown_page
  = (set_resultPanel NoResultFound
       (set_resultMarkers [] (set_selectedType "void" shown_page)), Normal tt).
Proof.
  split; [right; left; reflexivity |]. split; [reflexivity |].
  exact (proj2 (PageFacts.selectType_without_winner "void" shown_page)
           (generation "A" 10)
           (Some (VObj [("attractor", winner 40.72 (-74.01))])) None
           (or_intror (or_introl eq_refl))
           eq_refl eq_refl eq_refl eq_refl eq_refl).
Defined.

Lemma generate_on_the_equator :
  selectedLat equator_page = Some (VNum 0) /\
  Generate.handleGenerate (fun _ => "") "pseudo" result_G equator_page
  = (equator_page, Normal (mkGenerated None (Some SelectLocationFirst))).
Proof.
  split; [reflexivity |].
  exact (PageFacts.handleGenerate_needs_a_location (fun _ => "") "pseudo" result_G
           equator_page (or_introl eq_refl)).
Defined.

Lemma refused_generation_on_sample :
  withoutResult refusal /\
  exists e,
    Generate.handleGenerate (fun _ => "") "pseudo" refusal located_page
    = (set_resultPanel Hidden located_page,
       Normal (mkGenerated
                 (Some (JS.JSON_stringify (Generate.params "pseudo" located_page)))
                 (Some (GenerationError e)))).
Proof.
  split; [exact I |].
  exact (PageFacts.failed_generation_changes_nothing (fun _ => "") "pseudo" refusal
           located_page eq_refl eq_refl I).
Defined.

Example refused_generation_message :
  alert_shown
    (match snd (Generate.handleGenerate (fun _ => "") "pseudo" refusal located_page) with
     | Normal out => out
     | Throw _ => mkGenerated None None
     end)
  = Some (GenerationError (Error "No entropy")).
Proof. vm_compute. reflexivity. Qed.

Lemma generation_on_sample :
  let run := Generate.handleGenerate (fun _ => "") "pseudo" result_G located_page in
  exists result record kept,
    result_G = Response true (Json result) /\
    currentResult (fst run) = Some result /\
    History.recordOf (Some result) = Normal record /\
    stored (fst run) = Some (JS.jsonRoundTrip record :: kept).
Proof.
  intros run.
  assert (H : Generate.handleGenerate (fun _ => "") "pseudo" result_G located_page
              = (fst run,
                 Normal (mkGenerated
                           (Some (JS.JSON_stringify
                                    (Generate.params "pseudo" located_page)))
                           None))) by (vm_compute; reflexivity).
  destruct (PageFacts.generation_without_alert_is_saved (fun _ => "") "pseudo"
              result_G located_page (fst run) _ H eq_refl)
    as (result & r & kept & H1 & _ & H2 & H3 & H4).
  exists result, r, kept. now repeat split.
Defined.

Lemma typed_coordinates_on_sample :
  let run := Location.parseAndSetLocation Sample.parseFloat "40.7128, -74.0060" initial in
  snd run = Normal LocationSet /\
  selectedLat (fst run) = Some (VNum 40.7128) /\
  selectedLng (fst run) = Some (VNum (-74.006)) /\
  mapView (fst run) = (40.7128, -74.006, 13%Z).
Proof.
  refine (PageFacts.parseAndSetLocation_accepts Sample.parseFloat
            (list_ascii_of_string "40.7128") (list_ascii_of_string ", ")
            (list_ascii_of_string "-74.0060") initial eq_refl eq_refl _ eq_refl _).
  - discriminate.
  - vm_compute. reflexivity.
Defined.

End Scenarios.
